(** * java-code-commentator: recognizer, comment generator and insertion pipeline

    A shallow embedding of [src/java_parser.py], [src/comment_generator.py],
    [src/file_processor.py], [src/project_scanner.py] and [src/config.py].

    Python [str] values are sequences of Unicode code points, so a string
    is a [list N] here.  The library operations the program calls
    ([strip], [split], [splitlines], [replace], [re]) are modelled next to
    the functions that use them. *)

From Stdlib Require Import Strings.String Strings.Ascii.
From Stdlib Require Import List NArith ZArith Arith Bool Lia.
From Stdlib Require Import Sorting.Sorted Sorting.Permutation.
From Equations Require Import Equations.
Import ListNotations.

Set Implicit Arguments.
Open Scope list_scope.
Open Scope nat_scope.

(* ================================================================== *)
(** ** Python strings *)
(* ================================================================== *)

Module PyStr.

Definition char := N.
Definition str := list char.

(** An ASCII literal as a Python string. *)
Definition lit (s : string) : str := map N_of_ascii (list_ascii_of_string s).
Arguments lit s%_string.

Definition NL : char := 10%N.   (* '\n' *)
Definition CR : char := 13%N.   (* '\r' *)

Fixpoint eqb_str (a b : str) : bool :=
  match a, b with
  | [], [] => true
  | x :: a', y :: b' => N.eqb x y && eqb_str a' b'
  | _, _ => false
  end.

(** Truthiness of a string: [if s:] holds when [s] is not empty. *)
Definition truthy (s : str) : bool :=
  match s with [] => false | _ :: _ => true end.

(** Truthiness of an [Optional[str]]: [None] and [''] are both falsy. *)
Definition truthy_opt (o : option str) : bool :=
  match o with None => false | Some s => truthy s end.

(** [str.isspace] on one code point: the whitespace characters of the
    Unicode database; [\s] of the [re] module is the same set. *)
Definition isspace (c : char) : bool :=
  (((9 <=? c) && (c <=? 13)) || ((28 <=? c) && (c <=? 32))
   || (c =? 133) || (c =? 160) || (c =? 5760)
   || ((8192 <=? c) && (c <=? 8202))
   || (c =? 8232) || (c =? 8233) || (c =? 8239) || (c =? 8287)
   || (c =? 12288))%N.

(** The line boundaries of [str.splitlines]. *)
Definition is_linebreak (c : char) : bool :=
  (((10 <=? c) && (c <=? 13)) || ((28 <=? c) && (c <=? 30))
   || (c =? 133) || (c =? 8232) || (c =? 8233))%N.

Fixpoint lstrip (s : str) : str :=
  match s with
  | [] => []
  | c :: s' => if isspace c then lstrip s' else s
  end.

Definition rstrip (s : str) : str := rev (lstrip (rev s)).

Definition strip (s : str) : str := lstrip (rstrip s).

Fixpoint startswith (s prefix : str) {struct prefix} : bool :=
  match prefix, s with
  | [], _ => true
  | p :: prefix', c :: s' => N.eqb c p && startswith s' prefix'
  | _ :: _, [] => false
  end.

Definition endswith (s suffix : str) : bool :=
  startswith (rev s) (rev suffix).

(** [sub in s]. *)
Fixpoint contains (s sub : str) : bool :=
  startswith s sub ||
  match s with
  | [] => false
  | _ :: s' => contains s' sub
  end.

(** [s.count(c)] for a one-character [c]. *)
Fixpoint count_char (c : char) (s : str) : nat :=
  match s with
  | [] => 0
  | x :: s' => (if N.eqb x c then 1 else 0) + count_char c s'
  end.

(** [s.replace(old, new)] for a non-empty [old]: occurrences are replaced
    from left to right and do not overlap.  [skip] counts the characters
    of the occurrence just replaced that are still to be dropped. *)
Fixpoint replace_from (old new : str) (skip : nat) (s : str) : str :=
  match s with
  | [] => []
  | c :: s' =>
      match skip with
      | S k => replace_from old new k s'
      | 0 =>
          if startswith s old
          then new ++ replace_from old new (length old - 1) s'
          else c :: replace_from old new 0 s'
      end
  end.

Definition replace (s old new : str) : str := replace_from old new 0 s.

(** [s.split(sep)] for a one-character separator. *)
Fixpoint split_on (sep : char) (s : str) : list str :=
  match s with
  | [] => [[]]
  | c :: s' =>
      if N.eqb c sep then [] :: split_on sep s'
      else match split_on sep s' with
           | l :: ls => (c :: l) :: ls
           | [] => [[c]]
           end
  end.

(** [s.splitlines()]: a CR LF pair is one boundary and a final boundary
    opens no further line. *)
Fixpoint splitlines (s : str) : list str :=
  match s with
  | [] => []
  | c :: s' =>
      if is_linebreak c then
        match s' with
        | d :: s'' =>
            if N.eqb c CR && N.eqb d NL then [] :: splitlines s''
            else [] :: splitlines s'
        | [] => [[]]
        end
      else match splitlines s' with
           | l :: ls => (c :: l) :: ls
           | [] => [[c]]
           end
  end.

(** [sep.join(parts)]. *)
Fixpoint join (sep : str) (parts : list str) : str :=
  match parts with
  | [] => []
  | [p] => p
  | p :: ps => p ++ sep ++ join sep ps
  end.

(** [enumerate(l)], counting from [i]. *)
Fixpoint enumerate_from {A} (i : nat) (l : list A) : list (nat * A) :=
  match l with
  | [] => []
  | x :: l' => (i, x) :: enumerate_from (S i) l'
  end.

Definition enumerate {A} (l : list A) : list (nat * A) := enumerate_from 0 l.

End PyStr.
Import PyStr.

(* ================================================================== *)
(** ** comment_generator.py: formatting *)
(* ================================================================== *)

(** One interior line of [_format_comment]. *)
Definition format_interior_line (line : str) : str :=
  let content := strip line in
  let content :=
    if startswith content (lit "*") then strip (skipn 1 content) else content in
  if eqb_str content [] then lit " *" else lit " * " ++ content.

(** The first steps of [_format_comment]: the code fences are removed,
    and the opening and the closing delimiter are added when missing. *)
Definition with_delimiters (comment : str) : str :=
  let comment :=
    strip (replace (replace comment (lit "```java") []) (lit "```") []) in
  let comment :=
    if negb (startswith comment (lit "/**"))
    then lit "/**" ++ [NL] ++ lit " * " ++ comment else comment in
  if negb (endswith comment (lit "*/"))
  then rstrip comment ++ [NL] ++ lit " */" else comment.

(** The loop of [_format_comment] over the numbered lines. *)
Definition format_lines (lines : list str) : list str :=
  map (fun il : nat * str =>
         let (i, line) := il in
         if i =? 0 then lit "/**"
         else if i =? length lines - 1 then lit " */"
         else format_interior_line line)
      (enumerate lines).

(** [CommentGenerator._format_comment]. *)
Definition _format_comment (comment : str) : str :=
  if negb (truthy comment) then []
  else
    let comment := with_delimiters comment in
    let lines := split_on NL comment in
    let formatted_lines := format_lines lines in
    join [NL] formatted_lines.

(* ================================================================== *)
(** ** The [re] module: a backtracking matcher *)
(* ================================================================== *)

Module Re.

(** Character sets. *)
Inductive cset : Type :=
| CChar (c : char)        (* a literal character *)
| CSpace                  (* \s *)
| CWord                   (* \w *)
| CAny                    (* . under re.DOTALL *)
| CUnion (a b : cset)     (* [ab] *)
| CCompl (a : cset).      (* [^a] *)

(** Patterns.  [r+] is [Seq r (Star r)] and [r?] is [Alt r Eps]; both
    try the longer match first, as greedy operators do. *)
Inductive regex : Type :=
| Eps
| Bol                                  (* ^ without re.MULTILINE *)
| One (cs : cset)
| Seq (r1 r2 : regex)
| Alt (r1 r2 : regex)                  (* r1|r2, r1 tried first *)
| Star (greedy : bool) (r : regex)     (* r* and r*? *)
| Group (name : string) (r : regex).   (* (?P<name>r) *)

Declare Scope re_scope.
Delimit Scope re_scope with re.
Bind Scope re_scope with regex.
Infix "-+-" := Seq (at level 60, right associativity) : re_scope.
Infix "-|-" := Alt (at level 70, right associativity) : re_scope.

Definition plus (r : regex) : regex := Seq r (Star true r).
Definition opt (r : regex) : regex := Alt r Eps.

(** A literal string. *)
Fixpoint chars (s : str) : regex :=
  match s with
  | [] => Eps
  | [c] => One (CChar c)
  | c :: s' => Seq (One (CChar c)) (chars s')
  end.

Definition text (s : string) : regex := chars (lit s).
Arguments text s%_string.

(** Names of the groups of a pattern ([Pattern.groupindex]). *)
Fixpoint group_names (r : regex) : list string :=
  match r with
  | Eps | Bol | One _ => []
  | Seq r1 r2 | Alt r1 r2 => group_names r1 ++ group_names r2
  | Star _ r' => group_names r'
  | Group name r' => name :: group_names r'
  end.

(** Captured groups, most recent first. *)
Definition caps := list (string * str).

Fixpoint lookup (name : string) (cs : caps) : option str :=
  match cs with
  | [] => None
  | (n, v) :: cs' => if String.eqb n name then Some v else lookup name cs'
  end.

(** Where a match ended and what it captured. *)
Definition result : Type := nat * caps.

(** A continuation receives the position reached, the rest of the input
    and the groups captured so far. *)
Definition cont : Type := nat -> str -> caps -> option result.

Section Matcher.

(** [str.isalnum] for the code points above U+007F: this part of the
    Unicode database belongs to the Python runtime, not to the program,
    and the development holds for every such table. *)
Variable alnum_high : char -> bool.

(** [\w]: alphanumeric or underscore. *)
Definition isword (c : char) : bool :=
  if (c <? 128)%N
  then (((48 <=? c) && (c <=? 57)) || ((65 <=? c) && (c <=? 90))
        || ((97 <=? c) && (c <=? 122)) || (c =? 95))%N
  else alnum_high c.

Fixpoint in_cset (cs : cset) (c : char) : bool :=
  match cs with
  | CChar x => N.eqb c x
  | CSpace => isspace c
  | CWord => isword c
  | CAny => true
  | CUnion a b => in_cset a c || in_cset b c
  | CCompl a => negb (in_cset a c)
  end.

(** Iterations of a starred pattern.  An iteration has to consume input,
    so the length of the input bounds their number. *)
Fixpoint star_loop (body : nat -> str -> caps -> cont -> option result)
    (greedy : bool) (fuel : nat) (pos : nat) (s : str) (cs : caps) (k : cont)
    {struct fuel} : option result :=
  match fuel with
  | 0 => k pos s cs
  | S fuel' =>
      let again (_ : unit) :=
        body pos s cs
          (fun pos' s' cs' =>
             if pos <? pos' then star_loop body greedy fuel' pos' s' cs' k
             else None) in
      if greedy then
        match again tt with
        | Some x => Some x
        | None => k pos s cs
        end
      else
        match k pos s cs with
        | Some x => Some x
        | None => again tt
        end
  end.

(** [rmatch r pos s cs k]: match [r] at position [pos], where the input
    that remains is [s]; alternatives are tried in the order of priority
    and the first one whose continuation succeeds is taken. *)
Fixpoint rmatch (r : regex) (pos : nat) (s : str) (cs : caps) (k : cont)
    {struct r} : option result :=
  match r with
  | Eps => k pos s cs
  | Bol => if pos =? 0 then k pos s cs else None
  | One c =>
      match s with
      | x :: s' => if in_cset c x then k (S pos) s' cs else None
      | [] => None
      end
  | Seq r1 r2 =>
      rmatch r1 pos s cs (fun pos' s' cs' => rmatch r2 pos' s' cs' k)
  | Alt r1 r2 =>
      match rmatch r1 pos s cs k with
      | Some x => Some x
      | None => rmatch r2 pos s cs k
      end
  | Star greedy r' => star_loop (rmatch r') greedy (length s) pos s cs k
  | Group name r' =>
      rmatch r' pos s cs
        (fun pos' s' cs' => k pos' s' ((name, firstn (pos' - pos) s) :: cs'))
  end.

(** The strings a pattern generates.  An iteration of a star is not
    empty, and [Bol] generates nothing here: the patterns of the
    declarations do not use it. *)
Inductive lang : regex -> str -> Prop :=
| lang_eps : lang Eps []
| lang_one (c : cset) (a : char) : in_cset c a = true -> lang (One c) [a]
| lang_seq (r1 r2 : regex) (a b : str) :
    lang r1 a -> lang r2 b -> lang (Seq r1 r2) (a ++ b)
| lang_alt_l (r1 r2 : regex) (a : str) : lang r1 a -> lang (Alt r1 r2) a
| lang_alt_r (r1 r2 : regex) (a : str) : lang r2 a -> lang (Alt r1 r2) a
| lang_star_nil (g : bool) (r : regex) : lang (Star g r) []
| lang_star_cons (g : bool) (r : regex) (a b : str) :
    a <> [] -> lang r a -> lang (Star g r) b -> lang (Star g r) (a ++ b)
| lang_group (name : string) (r : regex) (a : str) :
    lang r a -> lang (Group name r) a.

(** The pattern generates the empty string. *)
Fixpoint nullable (r : regex) : bool :=
  match r with
  | Eps => true
  | Bol => false
  | One _ => false
  | Seq r1 r2 => nullable r1 && nullable r2
  | Alt r1 r2 => nullable r1 || nullable r2
  | Star _ _ => true
  | Group _ r' => nullable r'
  end.

(** [c] can be the first character of a string of the pattern. *)
Fixpoint firsts (r : regex) (c : char) : bool :=
  match r with
  | Eps | Bol => false
  | One cs => in_cset cs c
  | Seq r1 r2 => firsts r1 c || (nullable r1 && firsts r2 c)
  | Alt r1 r2 => firsts r1 c || firsts r2 c
  | Star _ r' => firsts r' c
  | Group _ r' => firsts r' c
  end.

(** [Pattern.match] at one position. *)
Definition match_at (r : regex) (pos : nat) (s : str) : option result :=
  rmatch r pos s [] (fun pos' _ cs => Some (pos', cs)).

(** A match object. *)
Record Match : Type := {
  m_start : nat;            (* match.start() *)
  m_end : nat;              (* match.end() *)
  m_text : str;             (* match.group(0) *)
  m_caps : caps;
  m_names : list string     (* the groups of the pattern *)
}.

(** [match.group(name)] for a group of the pattern: [None] when the group
    took no part in the match. *)
Definition group (m : Match) (name : string) : option str :=
  lookup name (m_caps m).

(** [match.group(n1, n2, ...)]: the tuple of the groups, or IndexError
    ("no such group") when one of the names is not a group of the
    pattern; the error is the outer [None]. *)
Fixpoint group_tuple (m : Match) (names : list string)
    : option (list (option str)) :=
  match names with
  | [] => Some []
  | n :: names' =>
      if existsb (String.eqb n) (m_names m) then
        match group_tuple m names' with
        | Some vs => Some (group m n :: vs)
        | None => None
        end
      else None
  end.

(** [Pattern.finditer]: the matches from left to right, each search
    starting where the previous match ended.  [s] is the input from
    [pos] on.  The patterns of this program match no empty string; after
    an empty match the search moves on by one character. *)
Fixpoint finditer_from (fuel : nat) (r : regex) (pos : nat) (s : str)
    : list Match :=
  match fuel with
  | 0 => []
  | S fuel' =>
      match match_at r pos s with
      | Some (e, cs) =>
          {| m_start := pos; m_end := e; m_text := firstn (e - pos) s;
             m_caps := cs; m_names := group_names r |}
          :: (if e <=? pos
              then match s with
                   | [] => []
                   | _ :: s' => finditer_from fuel' r (S pos) s'
                   end
              else finditer_from fuel' r e (skipn (e - pos) s))
      | None =>
          match s with
          | [] => []
          | _ :: s' => finditer_from fuel' r (S pos) s'
          end
      end
  end.

Definition finditer (r : regex) (s : str) : list Match :=
  finditer_from (S (length s)) r 0 s.

(** [re.sub(r, repl, s)] for a literal replacement: the text between the
    matches is kept.  [s] is the input from [pos] on. *)
Fixpoint sub_matches (ms : list Match) (repl : str) (pos : nat) (s : str)
    : str :=
  match ms with
  | [] => s
  | m :: ms' =>
      firstn (m_start m - pos) s ++ repl
      ++ sub_matches ms' repl (m_end m) (skipn (m_end m - pos) s)
  end.

Definition sub (r : regex) (repl : str) (s : str) : str :=
  sub_matches (finditer r s) repl 0 s.

End Matcher.

End Re.
Import Re.

(* ================================================================== *)
(** ** java_parser.py *)
(* ================================================================== *)

(** The dictionary built by [_extract_method_info]. *)
Record MethodInfo : Type := {
  mi_name : str;
  mi_return_type : str;
  mi_parameters : list (str * str);   (* (type, name) *)
  mi_throws : list str
}.

(** [JavaElement].  [name] is what [match.group('name')] returned and
    [existing_comment] what [_extract_comment] returned; both are
    [Optional[str]] at run time.  [line_number] counts from 1, as
    [parse] sets it: the index [line_number - 1] the generators and the
    insertion loop compute is a natural number here, and stands for
    Python's index for every line number from 1 on (at 0 Python's index
    would be [-1], counted from the end). *)
Record JavaElement : Type := {
  type : str;
  name : option str;
  content : str;
  line_number : nat;
  existing_comment : option str;
  method_info : option MethodInfo
}.

Definition ws : regex := Star true (One CSpace).          (* \s* *)
Definition ws1 : regex := plus (One CSpace).              (* \s+ *)
Definition word1 : regex := plus (One CWord).             (* \w+ *)

(** [/\*\*.*?\*/\s*] *)
Definition javadoc_re : regex :=
  (text "/**" -+- Star false (One CAny) -+- text "*/" -+- ws)%re.

(** The annotations: any number of [@name], each with an optional
    parenthesised argument text free of closing parentheses, each followed
    by optional white space. *)
Definition annotations_re : regex :=
  Star true
    (text "@" -+- word1
     -+- opt (text "(" -+- Star true (One (CCompl (CChar 41%N))) -+- text ")")
     -+- ws)%re.

(** [\w+(?:\s*\.\s*\w+)*] *)
Definition dotted_re : regex :=
  (word1 -+- Star true (ws -+- text "." -+- ws -+- word1))%re.

(** The class pattern from its keyword on: [class], the name, the
    [extends] and [implements] clauses and the opening brace. *)
Definition class_head_re : regex :=
  (text "class" -+- ws1
   -+- Group "name" word1
   -+- opt (ws1 -+- text "extends" -+- ws1 -+- dotted_re)
   -+- opt (ws1 -+- text "implements" -+- ws1
            -+- dotted_re -+- Star true (ws -+- text "," -+- ws -+- dotted_re))
   -+- ws
   -+- text "{")%re.

(** The class pattern after its optional Javadoc block: annotations,
    modifiers and the part from the keyword on. *)
Definition class_declaration_re : regex :=
  (Group "annotations" annotations_re
   -+- Star true
         (Group "modifiers"
            ((text "public" -|- text "private" -|- text "protected"
              -|- text "static" -|- text "final" -|- text "abstract")
             -+- ws1))
   -+- class_head_re)%re.

(** [JavaParser.class_pattern]. *)
Definition class_pattern : regex :=
  (opt (Group "comment" javadoc_re) -+- class_declaration_re)%re.

(** [[\w.]+], [<[^>]+>], [\[\]] and [[\w\s,]+] of the method pattern. *)
Definition type_name_re : regex := plus (One (CUnion CWord (CChar 46%N))).
Definition generics_re : regex :=
  (text "<" -+- plus (One (CCompl (CChar 62%N))) -+- text ">")%re.
Definition throws_list_re : regex :=
  plus (One (CUnion CWord (CUnion CSpace (CChar 44%N)))).

(** [JavaParser.method_pattern]. *)
Definition method_pattern : regex :=
  (opt (Group "comment" javadoc_re)
   -+- Group "annotations" annotations_re
   -+- Star true
         (Group "modifiers"
            ((text "public" -|- text "private" -|- text "protected"
              -|- text "static" -|- text "final" -|- text "synchronized"
              -|- text "abstract")
             -+- ws1))
   -+- opt (Group "return_type"
              ((type_name_re -+- opt generics_re -+- Star true (text "[]"))
               -+- ws1))
   -+- Group "name" word1 -+- ws
   -+- text "(" -+- Group "params" (Star true (One (CCompl (CChar 41%N))))
   -+- text ")"
   -+- opt (ws1 -+- text "throws" -+- ws1 -+- Group "throws" throws_list_re)
   -+- ws
   -+- text "{")%re.

(** [^\s*\*\s?], the pattern of the [re.sub] call in [_extract_comment]. *)
Definition leading_star_re : regex :=
  (Bol -+- ws -+- text "*" -+- opt (One CSpace))%re.

(** A stable sort on [line_number], as [list.sort(key=...)] is. *)
Fixpoint insert_by_line (x : JavaElement) (l : list JavaElement)
    : list JavaElement :=
  match l with
  | [] => [x]
  | y :: l' =>
      if line_number x <=? line_number y then x :: y :: l'
      else y :: insert_by_line x l'
  end.

Fixpoint sort_by_line (l : list JavaElement) : list JavaElement :=
  match l with
  | [] => []
  | x :: l' => insert_by_line x (sort_by_line l')
  end.

(** [name.startswith(('get', 'set', 'is'))]. *)
Definition is_accessor_name (name : str) : bool :=
  startswith name (lit "get") || startswith name (lit "set")
  || startswith name (lit "is").

Section Parser.

Variable alnum_high : char -> bool.

(** [JavaParser._extract_comment]. *)
Definition _extract_comment (comment : option str) : option str :=
  match comment with
  | None => None
  | Some comment =>
      if negb (truthy comment) then None
      else
        let lines := split_on NL comment in
        let cleaned_lines :=
          flat_map
            (fun line =>
               let line :=
                 strip (replace (replace line (lit "/**") []) (lit "*/") []) in
               let line := sub alnum_high leading_star_re [] line in
               if truthy line then [line] else [])
            lines in
        Some (join [NL] cleaned_lines)
  end.

(** [JavaParser._extract_method_info].  [match.group('return_type', '')]
    asks for two groups, ['return_type'] and [''], and the pattern has no
    group named [''], so the call raises IndexError for every match; the
    [except Exception] clause turns it into [None].  (Had the call
    returned, its value would be a tuple, which has no [strip].) *)
Definition _extract_method_info (m : Match) : option MethodInfo :=
  let name := group m "name" in
  match group_tuple m ["return_type"; ""]%string with
  | None => None        (* IndexError, caught *)
  | Some _ => None      (* AttributeError, caught *)
  end.

(** [content[:match.start()].count('\n') + 1]. *)
Definition line_of (content : str) (m : Match) : nat :=
  count_char NL (firstn (m_start m) content) + 1.

(** The body of the loop over the class matches of [parse]. *)
Definition class_element (content : str) (m : Match) : list JavaElement :=
  let class_name := group m "name" in
  let class_comment := _extract_comment (group m "comment") in
  if truthy_opt class_comment then []
  else [ {| type := lit "class"; name := class_name; content := m_text m;
            line_number := line_of content m;
            existing_comment := class_comment; method_info := None |} ].

(** The body of the loop over the method matches of [parse]. *)
Definition method_element (content : str) (m : Match) : list JavaElement :=
  match _extract_method_info m with
  | None => []
  | Some info =>
      let method_comment := _extract_comment (group m "comment") in
      if truthy_opt method_comment then []
      else if is_accessor_name (mi_name info) then []
      else [ {| type := lit "method"; name := Some (mi_name info);
                content := m_text m; line_number := line_of content m;
                existing_comment := method_comment;
                method_info := Some info |} ]
  end.

(** [JavaParser.parse]. *)
Definition parse (content : str) : list JavaElement :=
  let elements :=
    flat_map (class_element content) (finditer alnum_high class_pattern content)
    ++ flat_map (method_element content)
         (finditer alnum_high method_pattern content) in
  sort_by_line elements.

(** The loop of [_extract_existing_comment], over the lines before the
    position, last line first. *)
Fixpoint collect_comment_lines (rev_lines comment_lines : list str)
    : list str :=
  match rev_lines with
  | [] => comment_lines
  | line :: rest =>
      let stripped_line := strip line in
      if startswith stripped_line (lit "/**")
         || startswith stripped_line (lit "*")
         || endswith stripped_line (lit "*/")
      then collect_comment_lines rest (line :: comment_lines)
      else if startswith stripped_line (lit "//")
      then collect_comment_lines rest (line :: comment_lines)
      else if eqb_str stripped_line [] then collect_comment_lines rest comment_lines
      else comment_lines
  end.

(** [JavaParser._extract_existing_comment]. *)
Definition _extract_existing_comment (content : str) (position : nat)
    : option str :=
  let lines_before := split_on NL (firstn position content) in
  let comment_lines := collect_comment_lines (rev lines_before) [] in
  match comment_lines with
  | [] => None
  | _ => Some (join [NL] comment_lines)
  end.

(** [JavaParser._is_inside_method]. *)
Definition _is_inside_method (content : str) (position : nat) : bool :=
  let before_content := firstn position content in
  let open_braces := count_char 123%N before_content in
  let close_braces := count_char 125%N before_content in
  close_braces <? open_braces.

End Parser.


(* ================================================================== *)
(** ** comment_generator.py: the backend and the generators *)
(* ================================================================== *)

(** The [context] argument of the generators: [None], a string or a list
    of lines. *)
Inductive context : Type :=
| NoContext
| TextContext (s : str)
| LinesContext (l : list str).

(** A prompt, reduced to what is interpolated into its fixed text.  The
    method prompt also shows the result of [_extract_method_signature],
    a function of the element's [content]. *)
Inductive prompt : Type :=
| ClassPrompt (surrounding_context : str)
| MethodPrompt (method_context : str) (element : JavaElement)
| FieldPrompt (surrounding_context : str).

(** What one request to the backend does: the text read from the
    response, or an exception with its message [str(e)]. *)
Inductive outcome : Type :=
| Response (comment : str)
| Raise (error_msg : str).

(** What the generator does to the outside world. *)
Inductive event : Type :=
| Create (p : prompt) (max_tokens : nat) (o : outcome)   (* messages.create *)
| Sleep (seconds : nat).                                 (* time.sleep *)

Definition MAX_TOKENS : nat := 4096.        (* Config.MAX_TOKENS *)
Definition max_retries : nat := 5.
Definition retry_delay : nat := 15.
Definition retry_multiplier : nat := 2.

Definition KO_CLASS : str := [53364; 47000; 49828]%N.    (* U+D074 U+B798 U+C2A4 *)
Definition KO_METHOD : str := [47700; 49548; 46300]%N.   (* U+BA54 U+C18C U+B4DC *)
Definition KO_FIELD : str := [54596; 46300]%N.           (* U+D544 U+B4DC *)

(** [f"{x}"] for an [Optional[str]]. *)
Definition format_opt (o : option str) : str :=
  match o with
  | Some s => s
  | None => lit "None"
  end.

(** [l[start:end]] for indices that are not negative. *)
Definition slice {A} (l : list A) (start stop : nat) : list A :=
  firstn (stop - start) (skipn start l).

(** [CommentGenerator._prepare_context]. *)
Definition _prepare_context (c : context) : list str :=
  match c with
  | NoContext => []
  | TextContext s => split_on NL s
  | LinesContext l => l
  end.

(** [error_msg] names an overload of the backend. *)
Definition is_overloaded (error_msg : str) : bool :=
  contains error_msg (lit "overloaded_error") || contains error_msg (lit "529").

Section Generator.

(** The backend: any state and any answer to a request. *)
Variable backend : Type.
Variable create : prompt -> nat -> backend -> outcome * backend.

Record world : Type := {
  api : backend;
  trace : list event       (* oldest first *)
}.

Definition request (p : prompt) (max_tokens : nat) (w : world)
    : outcome * world :=
  let (o, b) := create p max_tokens (api w) in
  (o, {| api := b; trace := trace w ++ [Create p max_tokens o] |}).

Definition sleep (seconds : nat) (w : world) : world :=
  {| api := api w; trace := trace w ++ [Sleep seconds] |}.

(** [CommentGenerator._call_claude_api]: [None] is Python's [None]. *)
Equations? _call_claude_api (p : prompt) (retry_count : nat) (w : world)
    : option str * world by wf (max_retries - retry_count) lt :=
_call_claude_api p retry_count w with request p MAX_TOKENS w := {
  | (Response comment, w1) => (Some (_format_comment comment), w1)
  | (Raise error_msg, w1)
      with is_overloaded error_msg, lt_dec retry_count (max_retries - 1) := {
      | true, left _ =>
          let wait_time := retry_delay * retry_multiplier ^ retry_count in
          _call_claude_api p (retry_count + 1) (sleep wait_time w1)
      | _, _ => (None, w1) } }.
Proof.
  clear wait_time _call_claude_api.
  do 4 (destruct retry_count as [|retry_count]; [simpl; lia|]).
  lia.
Qed.

(** The lines [start_line .. end_line) around an element. *)
Definition window (context_lines : list str) (line : nat) (before after : nat)
    : str :=
  let start_line := Nat.max 0 (line - before) in
  let end_line := Nat.min (length context_lines) (line + after) in
  join [NL] (slice context_lines start_line end_line).

(** [CommentGenerator._generate_class_comment]. *)
Definition _generate_class_comment (element : JavaElement) (c : context)
    (w : world) : str * world :=
  let context_lines := _prepare_context c in
  let class_line := line_number element - 1 in
  let surrounding_context := window context_lines class_line 10 20 in
  let (comment, w1) := _call_claude_api (ClassPrompt surrounding_context) 0 w in
  match comment with
  | None =>
      (lit "/**" ++ [NL] ++ lit " * " ++ format_opt (name element)
         ++ lit " " ++ KO_CLASS ++ [NL] ++ lit " */", w1)
  | Some comment => (comment, w1)
  end.

(** [CommentGenerator._generate_method_comment]. *)
Definition _generate_method_comment (element : JavaElement) (c : context)
    (w : world) : str * world :=
  let context_lines := _prepare_context c in
  let method_line := line_number element - 1 in
  let method_context := window context_lines method_line 5 15 in
  let (comment, w1) :=
    _call_claude_api (MethodPrompt method_context element) 0 w in
  match comment with
  | None =>
      (lit "/**" ++ [NL] ++ lit " * " ++ format_opt (name element)
         ++ lit " " ++ KO_METHOD ++ [NL] ++ lit " */", w1)
  | Some comment => (comment, w1)
  end.

(** [CommentGenerator._generate_field_comment]: one request, no retry. *)
Definition _generate_field_comment (element : JavaElement) (c : context)
    (w : world) : str * world :=
  let context_lines := _prepare_context c in
  let field_line := line_number element - 1 in
  let surrounding_context := window context_lines field_line 5 5 in
  let (o, w1) := request (FieldPrompt surrounding_context) 200 w in
  match o with
  | Response comment =>
      let comment := replace (strip comment) (lit "```") [] in
      let comment :=
        if negb (startswith comment (lit "//")) then lit "// " ++ comment
        else comment in
      (comment, w1)
  | Raise _ =>
      (lit "// " ++ format_opt (name element) ++ lit " " ++ KO_FIELD, w1)
  end.

Definition is_class_type (t : str) : bool :=
  eqb_str t (lit "class") || eqb_str t (lit "interface")
  || eqb_str t (lit "enum").

(** [CommentGenerator.generate_comment]. *)
Definition generate_comment (element : JavaElement) (file_context : context)
    (w : world) : str * world :=
  if is_class_type (type element)
  then _generate_class_comment element file_context w
  else if eqb_str (type element) (lit "method")
  then _generate_method_comment element file_context w
  else if eqb_str (type element) (lit "field")
  then _generate_field_comment element file_context w
  else ([], w).

End Generator.

(* ================================================================== *)
(** ** file_processor.py *)
(* ================================================================== *)

(** Exceptions that leave a function. *)
Inductive exn : Type :=
| IndexError
| ValueError
| TypeError
| AttributeError
| FileNotFoundError.

(** The files, by path, and the texts written, oldest first.  A write
    stores the text handed to [f.write] (the line separator of the
    platform is LF). *)
Record filesystem : Type := {
  files : string -> option str;
  written : list (string * str)
}.

(** Text mode with the default [newline=None]: on reading, CR LF and a
    lone CR become LF. *)
Fixpoint universal_newlines (s : str) : str :=
  match s with
  | [] => []
  | c :: s' =>
      if N.eqb c CR then
        NL :: match s' with
              | d :: s'' =>
                  if N.eqb d NL then universal_newlines s''
                  else universal_newlines s'
              | [] => []
              end
      else c :: universal_newlines s'
  end.

(** [open(file_path, 'r').read()]; [None] when the file cannot be opened. *)
Definition read_file (fs : filesystem) (file_path : string) : option str :=
  match files fs file_path with
  | None => None
  | Some data => Some (universal_newlines data)
  end.

Definition write_file (fs : filesystem) (file_path : string) (data : str)
    : filesystem :=
  {| files := fun p => if String.eqb p file_path then Some data else files fs p;
     written := written fs ++ [(file_path, data)] |}.

(** [FileProcessor._get_indent]. *)
Definition _get_indent (line : str) : nat :=
  length line - length (lstrip line).

(** [FileProcessor._indent_comment] on a string. *)
Definition _indent_comment (comment : str) (indent : str) : str :=
  let lines := splitlines comment in
  let indented_lines :=
    map (fun line => if truthy (strip line) then indent ++ line else line)
        lines in
  join [NL] indented_lines.

(** [FileProcessor._insert_comment]: [list.insert] puts the comment, one
    list item, before index [position], or at the end when the list is
    shorter. *)
Definition _insert_comment (lines : list str) (position : nat) (comment : str)
    : list str :=
  firstn position lines ++ comment :: skipn position lines.

Section FileProcessor.

Variable alnum_high : char -> bool.
Variable backend : Type.
Variable create : prompt -> nat -> backend -> outcome * backend.

(** The loop of [process_java_file] over the elements.  Indexing
    [modified_lines] past its end raises IndexError. *)
Fixpoint insert_comments (elements : list JavaElement)
    (content_lines modified_lines : list str) (w : world backend)
    : exn + (list str * world backend) :=
  match elements with
  | [] => inr (modified_lines, w)
  | element :: rest =>
      let (comment, w1) :=
        generate_comment create element (LinesContext content_lines) w in
      match nth_error modified_lines (line_number element - 1) with
      | None => inl IndexError
      | Some line =>
          let indent := _get_indent line in
          let indented_comment := _indent_comment comment (repeat 32%N indent) in
          insert_comments rest content_lines
            (_insert_comment modified_lines (line_number element - 1)
               indented_comment)
            w1
      end
  end.

(** [process_java_file] from the text read to the text written. *)
Definition process_text (content : str) (w : world backend)
    : exn + (str * world backend) :=
  let content_lines := splitlines content in
  let elements := parse alnum_high content in
  match insert_comments elements content_lines content_lines w with
  | inl e => inl e
  | inr (modified_lines, w1) => inr (join [NL] modified_lines, w1)
  end.

(** [FileProcessor.process_java_file]: an exception is logged and raised
    again, and nothing is written then. *)
Definition process_java_file (file_path : string) (fs : filesystem)
    (w : world backend) : exn + (filesystem * world backend) :=
  match read_file fs file_path with
  | None => inl FileNotFoundError
  | Some content =>
      match process_text content w with
      | inl e => inl e
      | inr (text, w1) => inr (write_file fs file_path text, w1)
      end
  end.

End FileProcessor.

(* ================================================================== *)
(** ** java_parser.py: the unused entry point *)
(* ================================================================== *)

Section OldParser.

Variable alnum_high : char -> bool.

(** [JavaParser.parse_java_file], which nothing calls.  Each loop body
    starts by unpacking [match.groups()] into two names, and the class
    pattern has four groups and the method pattern seven; the field loop
    reads [self.field_pattern], which is never assigned. *)
Definition unpack2 {A} (l : list A) : exn + (A * A) :=
  match l with
  | [a; b] => inr (a, b)
  | _ => inl ValueError
  end.

Definition groups (m : Match) : list (option str) :=
  map (group m) (m_names m).

Definition old_loop_body (m : Match) : exn + list JavaElement :=
  match unpack2 (groups m) with
  | inl e => inl e
  | inr _ => inl TypeError     (* JavaElement has no field element_type *)
  end.

Definition parse_java_file (fs : filesystem) (file_path : string)
    : exn + list JavaElement :=
  match read_file fs file_path with
  | None => inl FileNotFoundError
  | Some content =>
      match finditer alnum_high class_pattern content with
      | m :: _ => old_loop_body m
      | [] =>
          match finditer alnum_high method_pattern content with
          | m :: _ => old_loop_body m
          | [] => inl AttributeError
          end
      end
  end.

End OldParser.

(* ================================================================== *)
(** ** java_parser.py: the extent of a class *)
(* ================================================================== *)

(** The loop of [_extract_full_class_content] from index [i] on, where
    [s] is the content from there: the [end_pos] set before the [break],
    or [None] when the loop runs to the end.  The counter goes below zero
    on a closing brace that has no opening one. *)
Fixpoint class_end (s : str) (i : nat) (brace_count : Z) : option nat :=
  match s with
  | [] => None
  | c :: s' =>
      if N.eqb c 123%N then class_end s' (S i) (brace_count + 1)%Z
      else if N.eqb c 125%N then
        let brace_count := (brace_count - 1)%Z in
        if Z.eqb brace_count 0 then Some (i + 1)
        else class_end s' (S i) brace_count
      else class_end s' (S i) brace_count
  end.

(** [JavaParser._extract_full_class_content]. *)
Definition _extract_full_class_content (content : str) (start_pos : nat)
    : str :=
  let end_pos :=
    match class_end (skipn start_pos content) start_pos 0%Z with
    | Some e => e
    | None => start_pos
    end in
  slice content start_pos end_pos.

(* ================================================================== *)
(** ** comment_generator.py: the signature of a method *)
(* ================================================================== *)

(** The pieces of [s] between the characters that satisfy [p]. *)
Fixpoint split_by (p : char -> bool) (s : str) : list str :=
  match s with
  | [] => [[]]
  | c :: s' =>
      if p c then [] :: split_by p s'
      else match split_by p s' with
           | l :: ls => (c :: l) :: ls
           | [] => [[c]]
           end
  end.

(** [s.split()]: the words between runs of white space. *)
Definition split_ws (s : str) : list str :=
  filter truthy (split_by isspace s).

(** The pattern of [_extract_method_signature]: an optional access
    modifier, optional white space, the optional modifiers static,
    final, synchronized and abstract, each with white space after it,
    the return type (a word with optional type arguments and optional
    brackets), white space, the name, the parameters between
    parentheses, and an optional throws clause. *)
Definition signature_pattern : regex :=
  (opt (text "public" -|- text "private" -|- text "protected") -+- ws
   -+- opt (text "static" -+- ws1)
   -+- opt (text "final" -+- ws1)
   -+- opt (text "synchronized" -+- ws1)
   -+- opt (text "abstract" -+- ws1)
   -+- Group "return_type"
         (word1
          -+- opt (text "<" -+- Star true (One (CCompl (CChar 62%N)))
                   -+- text ">")
          -+- opt (text "[]"))
   -+- ws1
   -+- Group "method_name" word1 -+- ws -+- text "("
   -+- Group "parameters" (Star true (One (CCompl (CChar 41%N))))
   -+- text ")" -+- ws
   -+- opt (text "throws" -+- ws1 -+- Group "exceptions" throws_list_re))%re.

(** The dictionary [_extract_method_signature] returns. *)
Record MethodSignature : Type := {
  sig_return_type : option str;
  sig_method_name : option str;
  sig_parameters : list (str * str);      (* (type, name) *)
  sig_exceptions : list str
}.

(** One parameter: its last word is the name, the words before it,
    joined by one space, are the type; a parameter of one word is left
    out. *)
Definition parse_parameter (param : str) : list (str * str) :=
  let parts := split_ws param in
  if 2 <=? length parts
  then [(join (lit " ") (removelast parts), last parts [])]
  else [].

(** The parameters of [_extract_method_signature], from the text between
    the parentheses. *)
Definition parse_parameters (params_str : option str) : list (str * str) :=
  match params_str with
  | Some params_str =>
      if truthy params_str && truthy (strip params_str)
      then flat_map parse_parameter (map strip (split_on 44%N params_str))
      else []
  | None => []
  end.

(** The exceptions of [_extract_method_signature], from the text after
    throws. *)
Definition parse_exceptions (exceptions_str : option str) : list str :=
  match exceptions_str with
  | Some exceptions_str =>
      if truthy exceptions_str
      then map strip (split_on 44%N exceptions_str)
      else []
  | None => []
  end.

Section Signature.

Variable alnum_high : char -> bool.

(** [Pattern.search]: the leftmost match. *)
Definition search (r : regex) (s : str) : option Match :=
  match finditer alnum_high r s with
  | m :: _ => Some m
  | [] => None
  end.

(** [CommentGenerator._extract_method_signature]; [None] is the empty
    dictionary. *)
Definition _extract_method_signature (method_content : str)
    : option MethodSignature :=
  match search signature_pattern method_content with
  | None => None
  | Some m =>
      Some {| sig_return_type := group m "return_type";
              sig_method_name := group m "method_name";
              sig_parameters := parse_parameters (group m "parameters");
              sig_exceptions := parse_exceptions (group m "exceptions") |}
  end.

End Signature.

(* ================================================================== *)
(** ** file_processor.py: a list of files *)
(* ================================================================== *)

Section FileList.

Variable alnum_high : char -> bool.
Variable backend : Type.
Variable create : prompt -> nat -> backend -> outcome * backend.

(** [FileProcessor.process_java_files]: an exception of one file is
    logged and the loop goes on with the next file.  The state kept then
    is the one before the file: [process_java_file] raises before its
    first request and before it writes. *)
Fixpoint process_java_files (java_files : list string) (fs : filesystem)
    (w : world backend) : filesystem * world backend :=
  match java_files with
  | [] => (fs, w)
  | file_path :: rest =>
      match process_java_file alnum_high create file_path fs w with
      | inr (fs', w') => process_java_files rest fs' w'
      | inl _ => process_java_files rest fs w
      end
  end.

End FileList.

(* ================================================================== *)
(** ** config.py and project_scanner.py *)
(* ================================================================== *)

Definition JAVA_EXTENSIONS : list str := [lit ".java"].

Definition IGNORE_PATTERNS : list str :=
  [lit "test"; lit "tests"; lit "example"; lit "examples";
   lit "target"; lit "build"; lit ".git"; lit ".idea";
   lit "node_modules"; lit ".gradle"; lit "bin"; lit "out"].

(** [any(ignore in str(f) for ignore in IGNORE_PATTERNS)]. *)
Definition ignored (f : str) : bool :=
  existsb (fun ignore => contains f ignore) IGNORE_PATTERNS.

(** [ProjectScanner.scan_java_files].  [tree] lists the paths below the
    project root, each as the string [str(f)] that starts with the root,
    in the order [rglob] walks them; [rglob] keeps the paths whose name
    ends with the extension. *)
Definition scan_java_files (tree : list str) : list str :=
  flat_map
    (fun ext => filter (fun f => negb (ignored f))
                  (filter (fun f => endswith f ext) tree))
    JAVA_EXTENSIONS.

Record ProjectStructure : Type := {
  total_files : nat;
  files_by_package : list (str * list str);   (* a dict, in insertion order *)
  all_files : list str
}.

(** [d[package_dir].append(file_path)], after [d[package_dir] = []] for
    a new key. *)
Fixpoint add_to_package (d : list (str * list str)) (package_dir : str)
    (file_path : str) : list (str * list str) :=
  match d with
  | [] => [(package_dir, [file_path])]
  | (k, v) :: d' =>
      if eqb_str k package_dir then (k, v ++ [file_path]) :: d'
      else (k, v) :: add_to_package d' package_dir file_path
  end.

Section Scanner.

(** [str(Path(file_path).relative_to(project_path).parent)]. *)
Variable package_dir_of : str -> str.

(** [ProjectScanner.get_project_structure]. *)
Definition get_project_structure (tree : list str) : ProjectStructure :=
  let java_files := scan_java_files tree in
  {| total_files := length java_files;
     files_by_package :=
       fold_left (fun d file_path =>
                    add_to_package d (package_dir_of file_path) file_path)
                 java_files [];
     all_files := java_files |}.

End Scanner.

(* ================================================================== *)
(** ** Vocabulary of the statements *)
(* ================================================================== *)

(** The events of a run of attempts on one prompt: a request for each
    outcome, and a wait between two requests. *)
Fixpoint attempts (p : prompt) (outcomes : list outcome) (waits : list nat)
    : list event :=
  match outcomes with
  | [] => []
  | [o] => [Create p MAX_TOKENS o]
  | o :: os =>
      Create p MAX_TOKENS o
      :: match waits with
         | t :: ts => Sleep t :: attempts p os ts
         | [] => attempts p os []
         end
  end.

(** The outcome is an exception whose message names an overload. *)
Definition overload_error (o : outcome) : bool :=
  match o with
  | Response _ => false
  | Raise error_msg => is_overloaded error_msg
  end.

(** What [_call_claude_api] returns after a last outcome. *)
Definition returned (o : outcome) : option str :=
  match o with
  | Response comment => Some (_format_comment comment)
  | Raise _ => None
  end.

(** Between the traces [before] and [after] requests were made, and the
    last of them had the outcome [o]. *)
Definition last_outcome (before after : list event) (o : outcome) : Prop :=
  exists tr p max_tokens, after = before ++ tr ++ [Create p max_tokens o].

(** The text a run of [process_text] hands to [f.write]. *)
Definition text_of {W : Type} (r : exn + (str * W)) : option str :=
  match r with
  | inl _ => None
  | inr (text, _) => Some text
  end.

(** The element [parse] builds from a match of the class pattern. *)
Definition class_of_match (alnum_high : char -> bool) (content : str)
    (m : Match) : JavaElement :=
  {| type := lit "class"; name := group m "name"; content := m_text m;
     line_number := line_of content m;
     existing_comment := _extract_comment alnum_high (group m "comment");
     method_info := None |}.

(** A continuation that accepts at a position, whatever was captured. *)
Definition accepts (k : cont) (pos : nat) (s : str) : Prop :=
  forall cs, k pos s cs <> None.

(** A character of a name: a word character that is no white space. *)
Definition name_char (alnum_high : char -> bool) (c : char) : Prop :=
  isword alnum_high c = true /\ isspace c = false.

(** [l1] is [l2] with some items left out: the order is kept. *)
Inductive subseq {A : Type} : list A -> list A -> Prop :=
| subseq_nil : subseq [] []
| subseq_keep (x : A) (l1 l2 : list A) :
    subseq l1 l2 -> subseq (x :: l1) (x :: l2)
| subseq_skip (x : A) (l1 l2 : list A) :
    subseq l1 l2 -> subseq l1 (x :: l2).

(** The seconds slept and the requests made in a trace. *)
Fixpoint slept (tr : list event) : nat :=
  match tr with
  | [] => 0
  | Sleep t :: tr' => t + slept tr'
  | Create _ _ _ :: tr' => slept tr'
  end.

Fixpoint requests (tr : list event) : nat :=
  match tr with
  | [] => 0
  | Sleep _ :: tr' => requests tr'
  | Create _ _ _ :: tr' => 1 + requests tr'
  end.

(** A line that ends the search of [_extract_existing_comment]: it is
    not blank and has none of the marks of a comment. *)
Definition code_line (line : str) : bool :=
  let stripped_line := strip line in
  negb (startswith stripped_line (lit "/**"))
  && negb (startswith stripped_line (lit "*"))
  && negb (endswith stripped_line (lit "*/"))
  && negb (startswith stripped_line (lit "//"))
  && negb (eqb_str stripped_line []).

(** A word of a parameter: not empty, without white space, comma or
    closing parenthesis. *)
Definition token (s : str) : Prop :=
  s <> [] /\
  Forall (fun c => isspace c = false /\ c <> 44%N /\ c <> 41%N) s.

(** The text of a parameter list: type, space, name, the parameters
    separated by a comma and a space. *)
Definition render_parameters (params : list (str * str)) : str :=
  join (lit ", ") (map (fun tn : str * str => fst tn ++ lit " " ++ snd tn) params).

(** A text whose braces are well nested. *)
Inductive nested : str -> Prop :=
| nested_nil : nested []
| nested_char (c : char) (s : str) :
    c <> 123%N -> c <> 125%N -> nested s -> nested (c :: s)
| nested_block (b s : str) :
    nested b -> nested s -> nested (123%N :: b ++ 125%N :: s).

(** [p] ends with a closing brace and holds as many opening as closing
    braces: read from its start, the counter of
    [_extract_full_class_content] is back at zero at its last brace. *)
Definition closed_at_brace (p : str) : Prop :=
  endswith p (lit "}") = true
  /\ count_char 123%N p = count_char 125%N p.

(** The dictionary [d] groups the files [done] by package: no key twice,
    every file under the key of its package, and the groups together are
    [done]. *)
Definition grouped (package_dir_of : str -> str) (d : list (str * list str))
    (done : list str) : Prop :=
  NoDup (map fst d)
  /\ (forall k v f, In (k, v) d -> In f v -> package_dir_of f = k)
  /\ Permutation (concat (map snd d)) done.

(** A pattern without the assertion of the start of the text. *)
Fixpoint bol_free (r : regex) : bool :=
  match r with
  | Bol => false
  | Eps | One _ => true
  | Seq r1 r2 | Alt r1 r2 => bol_free r1 && bol_free r2
  | Star _ r' | Group _ r' => bol_free r'
  end.

(** A return type the signature pattern reads no modifier from: it does
    not start with an access modifier and is none of the other
    modifiers. *)
Definition modifier_free (return_type : str) : bool :=
  negb (startswith return_type (lit "public"))
  && negb (startswith return_type (lit "private"))
  && negb (startswith return_type (lit "protected"))
  && negb (existsb (eqb_str return_type)
             [lit "static"; lit "final"; lit "synchronized"; lit "abstract"]).

(** The file at [p] can be read. *)
Definition readable (fs : filesystem) (p : string) : bool :=
  match files fs p with Some _ => true | None => false end.

(** The order [parse] sorts by. *)
Definition line_le (a b : JavaElement) : Prop :=
  line_number a <= line_number b.


(** A string without a line feed. *)
Definition no_NL (s : str) : Prop := Forall (fun c => c <> NL) s.

(** A line holds none of the line boundaries. *)
Definition one_line (l : str) : Prop := existsb is_linebreak l = false.

(** A method element whose name starts with get, set or is. *)
Definition is_accessor_method (e : JavaElement) : bool :=
  eqb_str (type e) (lit "method")
  && match name e with
     | Some n => is_accessor_name n
     | None => false
     end.

(* ================================================================== *)
(** ** Inputs of the examples *)
(* ================================================================== *)

(** An alphanumeric table above U+007F for the examples: the letters and
    digits of Latin-1 and the Hangul syllables. *)
Definition alnum_sample (c : char) : bool :=
  ((c =? 170) || (c =? 178) || (c =? 179) || (c =? 181) || (c =? 185)
   || (c =? 186) || ((188 <=? c) && (c <=? 190))
   || ((192 <=? c) && (c <=? 214)) || ((216 <=? c) && (c <=? 246))
   || ((248 <=? c) && (c <=? 255))
   || ((44032 <=? c) && (c <=? 55203)))%N.

(** A backend that refuses every request. *)
Definition refusing (p : prompt) (max_tokens : nat) (b : unit)
    : outcome * unit :=
  (Raise (lit "Connection error."), b).

(** A backend that is overloaded at every request. *)
Definition overloaded (p : prompt) (max_tokens : nat) (b : unit)
    : outcome * unit :=
  (Raise (lit "Error code: 529 - overloaded_error"), b).

(** A backend that answers every request with an empty text. *)
Definition silent (p : prompt) (max_tokens : nat) (b : unit)
    : outcome * unit :=
  (Response [], b).

Definition idle : world unit := {| api := tt; trace := [] |}.

(** A backend that counts its requests: it refuses the first and
    answers the later ones. *)
Definition failing_once (p : prompt) (max_tokens : nat) (b : nat)
    : outcome * nat :=
  match b with
  | 0 => (Raise (lit "Connection error."), 1)
  | S _ => (Response (lit "A class."), S b)
  end.

Definition fresh : world nat := {| api := 0; trace := [] |}.

(** The element of a class Foo declared on line [n]. *)
Definition class_Foo (n : nat) : JavaElement :=
  {| type := lit "class"; name := Some (lit "Foo");
     content := lit "class Foo {"; line_number := n;
     existing_comment := None; method_info := None |}.

(** [class Foo {], [  public void bar() {}], [}] *)
Definition foo_bar_java : str :=
  lit "class Foo {" ++ NL :: lit "  public void bar() {}" ++ NL :: lit "}".

(** [class Foo {], [}], [class Bar {], [}] *)
Definition two_classes_java : str :=
  lit "class Foo {" ++ NL :: lit "}" ++ NL :: lit "class Bar {" ++ NL :: lit "}".

(** [public interface Shape {], [  double area();], [}] *)
Definition interface_java : str :=
  lit "public interface Shape {" ++ NL :: lit "  double area();"
  ++ NL :: lit "}".

(** [enum Color { RED, GREEN }] *)
Definition enum_java : str := lit "enum Color { RED, GREEN }".

(** [/** doc */], [class Foo {] *)
Definition javadoc_java : str :=
  lit "/** doc */" ++ NL :: lit "class Foo {".

(** [// doc], [class Foo {] *)
Definition line_comment_java : str :=
  lit "// doc" ++ NL :: lit "class Foo {".

(** A file system in which every path holds [data]. *)
Definition holding (data : str) : filesystem :=
  {| files := fun _ => Some data; written := [] |}.

(** The placeholder block of a class. *)
Definition class_placeholder (n : str) : str :=
  lit "/**" ++ [NL] ++ lit " * " ++ n ++ lit " " ++ KO_CLASS ++ [NL] ++ lit " */".

(* ================================================================== *)
(** ** Strings: basic facts *)
(* ================================================================== *)

Lemma eqb_str_eq (a b : str) : eqb_str a b = true <-> a = b.
Proof.
  revert b. induction a as [| x a IH]; intros [| y b]; simpl;
    split; intros H; try discriminate; try reflexivity.
  - apply andb_true_iff in H. destruct H as [Hx Ha].
    apply N.eqb_eq in Hx. apply IH in Ha. congruence.
  - injection H as -> ->. rewrite N.eqb_refl. simpl. apply IH. reflexivity.
Qed.

Lemma startswith_app (s t : str) : startswith (s ++ t) s = true.
Proof.
  induction s as [| c s IH]; simpl.
  - reflexivity.
  - rewrite N.eqb_refl. exact IH.
Qed.

Lemma contains_startswith (s sub : str) :
  startswith s sub = true -> contains s sub = true.
Proof. intros H. destruct s; simpl; rewrite H; reflexivity. Qed.

Lemma contains_app (a s b : str) : contains (a ++ s ++ b) s = true.
Proof.
  induction a as [| c a IH]; simpl.
  - apply contains_startswith, startswith_app.
  - rewrite IH. apply orb_true_r.
Qed.

(* ================================================================== *)
(** ** The comment format *)
(* ================================================================== *)

Lemma split_on_length (c : char) (s : str) :
  length (split_on c s) = S (count_char c s).
Proof.
  induction s as [| x s IH]; simpl.
  - reflexivity.
  - destruct (N.eqb x c); simpl.
    + rewrite IH. reflexivity.
    + destruct (split_on c s); simpl in *; [discriminate | exact IH].
Qed.

Lemma count_char_In (c : char) (s : str) : In c s -> 1 <= count_char c s.
Proof.
  induction s as [| x s IH]; simpl; intros H; [contradiction |].
  destruct H as [-> | H].
  - rewrite N.eqb_refl. lia.
  - apply IH in H. lia.
Qed.

Lemma split_on_no_sep (s : str) : Forall no_NL (split_on NL s).
Proof.
  induction s as [| x s IH]; simpl.
  - repeat constructor.
  - destruct (N.eqb x NL) eqn:E.
    + constructor; [constructor | exact IH].
    + destruct (split_on NL s) as [| l ls]; [repeat constructor |].
      * intros ->. discriminate E.
      * inversion IH; subst. constructor; [| assumption].
        constructor; [| assumption]. intros ->. discriminate E.
Qed.

Lemma split_on_line (l rest : str) :
  no_NL l -> split_on NL (l ++ NL :: rest) = l :: split_on NL rest.
Proof.
  induction 1 as [| x l Hx _ IH]; simpl.
  - reflexivity.
  - destruct (N.eqb x NL) eqn:E; [apply N.eqb_eq in E; contradiction |].
    rewrite IH. reflexivity.
Qed.

Lemma split_on_last (l : str) : no_NL l -> split_on NL l = [l].
Proof.
  induction 1 as [| x l Hx _ IH]; simpl.
  - reflexivity.
  - destruct (N.eqb x NL) eqn:E; [apply N.eqb_eq in E; contradiction |].
    rewrite IH. reflexivity.
Qed.

(** Splitting undoes joining. *)
Lemma split_on_join (ls : list str) :
  ls <> [] -> Forall no_NL ls -> split_on NL (join [NL] ls) = ls.
Proof.
  induction ls as [| l ls IH]; intros Hne Hall; [contradiction |].
  inversion Hall as [| ? ? Hl Hls]; subst.
  destruct ls as [| l' ls].
  - simpl. apply split_on_last. exact Hl.
  - change (join [NL] (l :: l' :: ls)) with (l ++ NL :: join [NL] (l' :: ls)).
    rewrite (split_on_line _ Hl). f_equal. apply IH; [discriminate | exact Hls].
Qed.

Lemma lstrip_no_NL (s : str) : no_NL s -> no_NL (lstrip s).
Proof.
  induction 1 as [| x s Hx Hs IH]; simpl.
  - constructor.
  - destruct (isspace x); [exact IH | constructor; assumption].
Qed.

Lemma rev_no_NL (s : str) : no_NL s -> no_NL (rev s).
Proof. intros H. apply Forall_rev. exact H. Qed.

Lemma strip_no_NL (s : str) : no_NL s -> no_NL (strip s).
Proof.
  intros H. unfold strip, rstrip.
  apply lstrip_no_NL, rev_no_NL, lstrip_no_NL, rev_no_NL. exact H.
Qed.

Lemma skipn_no_NL (n : nat) (s : str) : no_NL s -> no_NL (skipn n s).
Proof.
  intros H. revert n. induction H as [| x s Hx Hs IH]; intros [| n]; simpl;
    try constructor; auto.
Qed.

Lemma format_interior_line_no_NL (line : str) :
  no_NL line -> no_NL (format_interior_line line).
Proof.
  intros H. unfold format_interior_line.
  set (content := if startswith (strip line) (lit "*")
                  then strip (skipn 1 (strip line)) else strip line).
  assert (Hc : no_NL content).
  { unfold content. destruct (startswith _ _).
    - apply strip_no_NL, skipn_no_NL, strip_no_NL, H.
    - apply strip_no_NL, H. }
  destruct (eqb_str content []).
  - repeat constructor; discriminate.
  - apply Forall_app. split; [repeat constructor; discriminate | exact Hc].
Qed.

Lemma format_lines_from (n i : nat) (mid : list str) (last : str) :
  1 <= i -> i + length mid = n ->
  map (fun il : nat * str =>
         let (j, line) := il in
         if j =? 0 then lit "/**"
         else if j =? n then lit " */"
         else format_interior_line line)
      (enumerate_from i (mid ++ [last]))
  = map format_interior_line mid ++ [lit " */"].
Proof.
  revert i. induction mid as [| l mid IH]; intros i Hi Hn; simpl in *.
  - destruct i; [lia |]. cbn [enumerate_from app map].
    change (S i =? 0) with false. cbv iota.
    replace (S i =? n) with true by (symmetry; apply Nat.eqb_eq; lia).
    reflexivity.
  - destruct i; [lia |]. cbn [enumerate_from app map].
    change (S i =? 0) with false. cbv iota.
    replace (S i =? n) with false by (symmetry; apply Nat.eqb_neq; lia).
    f_equal. apply IH; lia.
Qed.

(** A text of two lines or more is reshaped into a block. *)
Lemma format_lines_block (first last : str) (mid : list str) :
  format_lines (first :: mid ++ [last])
  = lit "/**" :: map format_interior_line mid ++ [lit " */"].
Proof.
  unfold format_lines, enumerate. cbn [enumerate_from map Nat.eqb].
  f_equal. apply format_lines_from; [lia |].
  simpl. rewrite length_app. simpl. lia.
Qed.

(** A text of one line is reduced to the opening delimiter. *)
Lemma format_lines_single (l : str) : format_lines [l] = [lit "/**"].
Proof. reflexivity. Qed.

Lemma list_ends {A} (l : list A) :
  2 <= length l -> exists first mid last, l = first :: mid ++ [last].
Proof.
  destruct l as [| x l]; simpl; [lia |]. intros H.
  destruct (@exists_last _ l) as (mid & last & ->).
  - destruct l; simpl in H; [lia | discriminate].
  - exists x, mid, last. reflexivity.
Qed.

(** Outside the one-line case the format of C5 holds: when the text with
    its delimiters has a line break, the result is a block that opens
    with the opening delimiter, closes with the closing one and has the
    formatted interior lines in between. *)
Lemma format_comment_shape (comment : str) :
  truthy comment = true ->
  In NL (with_delimiters comment) ->
  exists first mid last,
    split_on NL (with_delimiters comment) = first :: mid ++ [last]
    /\ split_on NL (_format_comment comment)
       = lit "/**" :: map format_interior_line mid ++ [lit " */"].
Proof.
  intros Ht Hnl. unfold _format_comment. rewrite Ht. cbn [negb].
  assert (Hlen : 2 <= length (split_on NL (with_delimiters comment))).
  { rewrite split_on_length. apply count_char_In in Hnl. lia. }
  destruct (list_ends _ Hlen) as (first & mid & last & E).
  exists first, mid, last. split; [exact E |].
  cbv zeta. rewrite E, format_lines_block.
  apply split_on_join; [discriminate |].
  constructor; [repeat constructor; discriminate |].
  apply Forall_app. split.
  - pose proof (split_on_no_sep (with_delimiters comment)) as H.
    rewrite E in H. inversion H as [| ? ? _ H']; subst.
    apply Forall_app in H'. destruct H' as [Hmid _].
    apply Forall_map. eapply Forall_impl; [| exact Hmid].
    intros l Hl. apply format_interior_line_no_NL. exact Hl.
  - repeat constructor; discriminate.
Qed.

(** The text with its delimiters has a line break unless the reply,
    fences removed and stripped, starts with the opening delimiter and
    ends with the closing one. *)
Lemma with_delimiters_line_break (comment : str) :
  let body := strip (replace (replace comment (lit "```java") []) (lit "```") []) in
  startswith body (lit "/**") && endswith body (lit "*/") = false ->
  In NL (with_delimiters comment).
Proof.
  intros body H. unfold with_delimiters. fold body.
  destruct (startswith body (lit "/**")) eqn:Hs; cbn [negb].
  - simpl in H. rewrite H. cbn [negb].
    apply in_or_app. right. left. reflexivity.
  - destruct (negb _).
    + apply in_or_app. right. left. reflexivity.
    + right. right. right. left. reflexivity.
Qed.

(** The one-line case: the result is the opening delimiter alone. *)
Lemma format_comment_one_line (comment : str) :
  truthy comment = true ->
  no_NL (with_delimiters comment) ->
  _format_comment comment = lit "/**".
Proof.
  intros Ht Hnl. unfold _format_comment. rewrite Ht. cbn [negb]. cbv zeta.
  rewrite (split_on_last Hnl). reflexivity.
Qed.

(** C5, at the input where the code departs from it: a reply that is a
    one-line Javadoc block is reduced to its opening line, so the result
    has no closing line and the text of the reply is lost. *)
Theorem format_comment_one_line_block :
  _format_comment (lit "/** Foo */") = lit "/**".
Proof. vm_compute. reflexivity. Qed.

Lemma split_on_cons (c : char) (s : str) :
  exists l ls, split_on c s = l :: ls.
Proof.
  destruct (split_on c s) as [| l ls] eqn:E; [| eauto].
  pose proof (split_on_length c s) as H. rewrite E in H. discriminate H.
Qed.

Lemma format_lines_head (l : str) (ls : list str) :
  exists tl, format_lines (l :: ls) = lit "/**" :: tl.
Proof. unfold format_lines, enumerate. simpl. eauto. Qed.

(** A reply that is not empty is formatted to a text that opens a
    block. *)
Lemma format_comment_head (comment : str) :
  comment <> [] -> exists tl, _format_comment comment = lit "/**" ++ tl.
Proof.
  intros Hne. unfold _format_comment.
  destruct comment as [| c comment]; [contradiction |]. cbn [truthy negb].
  cbv zeta.
  destruct (split_on_cons NL (with_delimiters (c :: comment))) as (l & ls & ->).
  destruct (format_lines_head l ls) as (tl & ->).
  destruct tl as [| b tl].
  - exists []. reflexivity.
  - exists ([NL] ++ join [NL] (b :: tl)). reflexivity.
Qed.

(* ================================================================== *)
(** ** The retry policy *)
(* ================================================================== *)

Section RetryPolicy.

Variable backend : Type.
Variable create : prompt -> nat -> backend -> outcome * backend.

Lemma call_claude_api_unfold (p : prompt) (n : nat) (w : world backend) :
  _call_claude_api create p n w =
  match request create p MAX_TOKENS w with
  | (Response c, w1) => (Some (_format_comment c), w1)
  | (Raise msg, w1) =>
      if is_overloaded msg && (n <? max_retries - 1)
      then _call_claude_api create p (n + 1)
             (sleep (retry_delay * retry_multiplier ^ n) w1)
      else (None, w1)
  end.
Proof.
  simp _call_claude_api.
  destruct (request create p MAX_TOKENS w) as [[c | msg] w1].
  - reflexivity.
  - simp _call_claude_api.
    destruct (lt_dec n (max_retries - 1)) as [H | H].
    + apply Nat.ltb_lt in H as Hb. rewrite Hb, andb_true_r.
      destruct (is_overloaded msg); simp _call_claude_api; reflexivity.
    + apply Nat.ltb_nlt in H as Hb. rewrite Hb, andb_false_r.
      destruct (is_overloaded msg); simp _call_claude_api; reflexivity.
Qed.

(** A call that starts at [retry_count = n] makes at most [5 - n]
    requests; all but the last fail on an overload, and the waits are the
    rest of 15, 30, 60, 120. *)
Lemma retry_run (p : prompt) (k n : nat) (w : world backend) :
  n + k = 4 ->
  exists (failed : list outcome) (final : outcome),
    length failed <= k /\
    forallb overload_error failed = true /\
    (overload_error final = true -> length failed = k) /\
    trace (snd (_call_claude_api create p n w))
    = trace w ++ attempts p (failed ++ [final]) (skipn n [15; 30; 60; 120]) /\
    fst (_call_claude_api create p n w) = returned final.
Proof.
  revert n w. induction k as [| k IH]; intros n w Hn.
  - assert (n = 4) by lia. subst n.
    rewrite call_claude_api_unfold. unfold request.
    destruct (create p MAX_TOKENS (api w)) as [o b].
    exists [], o. destruct o as [c | msg]; simpl;
      rewrite ?andb_false_r; simpl; auto.
  - rewrite call_claude_api_unfold. unfold request.
    destruct (create p MAX_TOKENS (api w)) as [o b] eqn:Ho.
    destruct o as [c | msg].
    + exists [], (Response c). simpl.
      repeat split; auto; try lia; try discriminate.
    + assert (Hlt : (n <? max_retries - 1) = true)
        by (apply Nat.ltb_lt; unfold max_retries; lia).
      rewrite Hlt, andb_true_r.
      destruct (is_overloaded msg) eqn:Hov.
      * destruct (IH (n + 1) (sleep (retry_delay * retry_multiplier ^ n)
            {| api := b;
               trace := trace w ++ [Create p MAX_TOKENS (Raise msg)] |}))
          as (failed & final & Hlen & Hall & Hfin & Htr & Hret); [lia|].
        exists (Raise msg :: failed), final.
        repeat split.
        -- simpl. lia.
        -- simpl. rewrite Hov. exact Hall.
        -- intros H. simpl. f_equal. auto.
        -- rewrite Htr. simpl. rewrite <- !app_assoc. f_equal. simpl.
           assert (Hn4 : n < 4) by lia.
           destruct n as [|[|[|[|n]]]]; try lia; destruct failed; reflexivity.
        -- exact Hret.
      * exists [], (Raise msg). simpl. rewrite Hov.
        repeat split; auto; try lia; try discriminate.
Qed.

(** C6: whatever the backend does, [_call_claude_api] makes at most five
    requests.  Every request but the last failed on an overload, the
    waits between the requests are 15, 30, 60 and 120, and a last request
    that fails on an overload is the fifth.  So an error that is no
    overload ends the call at once.  The call returns the formatted reply
    or [None], on which the callers fall back; no exception leaves it. *)
Theorem retry_policy (p : prompt) (w : world backend) :
  exists (failed : list outcome) (final : outcome),
    length (failed ++ [final]) <= 5 /\
    forallb overload_error failed = true /\
    (overload_error final = true -> length (failed ++ [final]) = 5) /\
    trace (snd (_call_claude_api create p 0 w))
    = trace w ++ attempts p (failed ++ [final]) [15; 30; 60; 120] /\
    fst (_call_claude_api create p 0 w) = returned final.
Proof.
  destruct (@retry_run p 4 0 w eq_refl)
    as (failed & final & Hlen & Hall & Hfin & Htr & Hret).
  exists failed, final. rewrite length_app. simpl.
  repeat split; auto; try lia.
  intros H. apply Hfin in H. lia.
Qed.

Lemma attempts_cons (p : prompt) (o o' : outcome) (os : list outcome)
    (waits : list nat) :
  attempts p (o :: o' :: os) waits
  = Create p MAX_TOKENS o
    :: match waits with
       | t :: ts => Sleep t :: attempts p (o' :: os) ts
       | [] => attempts p (o' :: os) []
       end.
Proof. reflexivity. Qed.

(** A run of attempts ends with the request of its last outcome. *)
Lemma attempts_last (p : prompt) (failed : list outcome) (final : outcome) :
  forall waits, exists tr,
    attempts p (failed ++ [final]) waits = tr ++ [Create p MAX_TOKENS final].
Proof.
  induction failed as [| o failed IH]; intros waits.
  - exists []. reflexivity.
  - cbn [app]. destruct (failed ++ [final]) as [| o' os] eqn:E.
    { destruct failed; discriminate E. }
    rewrite attempts_cons. destruct waits as [| t ts].
    + destruct (IH []) as (tr & Htr).
      exists (Create p MAX_TOKENS o :: tr). rewrite Htr. reflexivity.
    + destruct (IH ts) as (tr & Htr).
      exists (Create p MAX_TOKENS o :: Sleep t :: tr). rewrite Htr.
      reflexivity.
Qed.

(** A call makes requests, and what it returns goes by the outcome of
    the last: the formatted reply, or [None] for an exception. *)
Lemma call_last_outcome (p : prompt) (w : world backend) :
  exists o,
    last_outcome (trace w) (trace (snd (_call_claude_api create p 0 w))) o
    /\ fst (_call_claude_api create p 0 w) = returned o.
Proof.
  destruct (@retry_run p 4 0 w eq_refl)
    as (failed & final & _ & _ & _ & Htr & Hret).
  destruct (attempts_last p failed final [15; 30; 60; 120]) as (tr & Hlast).
  exists final. split; [| exact Hret].
  exists tr, p, MAX_TOKENS. rewrite Htr. cbn [skipn]. rewrite Hlast.
  reflexivity.
Qed.

Lemma class_comment_outcome (e : JavaElement) (c : context)
    (w : world backend) :
  exists o,
    last_outcome (trace w) (trace (snd (_generate_class_comment create e c w))) o
    /\ fst (_generate_class_comment create e c w)
       = match o with
         | Response reply => _format_comment reply
         | Raise _ =>
             lit "/**" ++ [NL] ++ lit " * " ++ format_opt (name e)
             ++ lit " " ++ KO_CLASS ++ [NL] ++ lit " */"
         end.
Proof.
  unfold _generate_class_comment.
  destruct (call_last_outcome
              (ClassPrompt (window (_prepare_context c) (line_number e - 1)
                              10 20)) w) as (o & Hlast & Hret).
  destruct (_call_claude_api _ _ _ _) as [r w1]. cbn [fst snd] in *.
  subst r. exists o.
  destruct o; cbn [returned fst snd]; (split; [exact Hlast | reflexivity]).
Qed.

Lemma method_comment_outcome (e : JavaElement) (c : context)
    (w : world backend) :
  exists o,
    last_outcome (trace w)
      (trace (snd (_generate_method_comment create e c w))) o
    /\ fst (_generate_method_comment create e c w)
       = match o with
         | Response reply => _format_comment reply
         | Raise _ =>
             lit "/**" ++ [NL] ++ lit " * " ++ format_opt (name e)
             ++ lit " " ++ KO_METHOD ++ [NL] ++ lit " */"
         end.
Proof.
  unfold _generate_method_comment.
  destruct (call_last_outcome
              (MethodPrompt (window (_prepare_context c) (line_number e - 1)
                               5 15) e) w) as (o & Hlast & Hret).
  destruct (_call_claude_api _ _ _ _) as [r w1]. cbn [fst snd] in *.
  subst r. exists o.
  destruct o; cbn [returned fst snd]; (split; [exact Hlast | reflexivity]).
Qed.

Lemma field_comment_outcome (e : JavaElement) (c : context)
    (w : world backend) :
  exists o,
    last_outcome (trace w)
      (trace (snd (_generate_field_comment create e c w))) o
    /\ fst (_generate_field_comment create e c w) <> []
    /\ (forall error_msg, o = Raise error_msg ->
          fst (_generate_field_comment create e c w)
          = lit "// " ++ format_opt (name e) ++ lit " " ++ KO_FIELD).
Proof.
  unfold _generate_field_comment, request.
  destruct (create _ 200 (api w)) as [o b] eqn:E.
  exists o. split; [| split].
  - eexists [], _, 200. destruct o; reflexivity.
  - destruct o as [reply | msg]; cbn [fst]; [| discriminate].
    destruct (startswith (replace (strip reply) (lit "```") []) (lit "//"))
      eqn:H; cbn [negb]; [| discriminate].
    intros Hempty. rewrite Hempty in H. discriminate H.
  - intros error_msg ->. reflexivity.
Qed.

(** C7, as amended: for an element of a type the generator knows, the
    comment goes by the outcome of the last request made for it.  When
    that request failed (an error that is no overload, the fifth
    overload in a row, or for a field its one request) the comment is
    the placeholder: the block with the one line naming the element for
    a class (class, interface, enum) and for a method, the line comment
    naming it for a field; it is not empty and contains the element's
    name.  The comment is empty only when the backend replied with an
    empty text. *)
Theorem fallback_placeholder (e : JavaElement) (c : context)
    (w : world backend) :
  is_class_type (type e) = true \/ type e = lit "method"
  \/ type e = lit "field" ->
  let comment := fst (generate_comment create e c w) in
  exists o,
    last_outcome (trace w) (trace (snd (generate_comment create e c w))) o
    /\ (forall error_msg, o = Raise error_msg ->
          (is_class_type (type e) = true ->
           comment = lit "/**" ++ [NL] ++ lit " * " ++ format_opt (name e)
                     ++ lit " " ++ KO_CLASS ++ [NL] ++ lit " */")
          /\ (type e = lit "method" ->
              comment = lit "/**" ++ [NL] ++ lit " * " ++ format_opt (name e)
                        ++ lit " " ++ KO_METHOD ++ [NL] ++ lit " */")
          /\ (type e = lit "field" ->
              comment = lit "// " ++ format_opt (name e) ++ lit " " ++ KO_FIELD)
          /\ comment <> []
          /\ contains comment (format_opt (name e)) = true)
    /\ (comment = [] -> o = Response []).
Proof.
  intros Htype. cbv zeta.
  assert (Hreply : forall reply, _format_comment reply = [] -> reply = []).
  { intros reply H. destruct reply as [| a reply]; [reflexivity |].
    destruct (@format_comment_head (a :: reply)) as (tl & Htl);
      [discriminate |].
    rewrite Htl in H. discriminate H. }
  unfold generate_comment.
  destruct (is_class_type (type e)) eqn:Hclass.
  { destruct (class_comment_outcome e c w) as (o & Hlast & Hc).
    exists o. split; [exact Hlast |]. rewrite Hc.
    destruct o as [reply | msg]; split.
    - intros error_msg H. discriminate H.
    - intros H. f_equal. apply Hreply. exact H.
    - intros error_msg _.
      split; [reflexivity |].
      split; [intros H; rewrite H in Hclass; discriminate Hclass |].
      split; [intros H; rewrite H in Hclass; discriminate Hclass |].
      split; [discriminate |].
      apply (contains_app (lit "/**" ++ [NL] ++ lit " * ")).
    - intros H. discriminate H. }
  destruct (eqb_str (type e) (lit "method")) eqn:Hmethod.
  { apply eqb_str_eq in Hmethod.
    destruct (method_comment_outcome e c w) as (o & Hlast & Hc).
    exists o. split; [exact Hlast |]. rewrite Hc.
    destruct o as [reply | msg]; split.
    - intros error_msg H. discriminate H.
    - intros H. f_equal. apply Hreply. exact H.
    - intros error_msg _.
      split; [intros H; discriminate H |].
      split; [reflexivity |].
      split; [intros H; rewrite H in Hmethod; discriminate Hmethod |].
      split; [discriminate |].
      apply (contains_app (lit "/**" ++ [NL] ++ lit " * ")).
    - intros H. discriminate H. }
  destruct (eqb_str (type e) (lit "field")) eqn:Hfield.
  { apply eqb_str_eq in Hfield.
    destruct (field_comment_outcome e c w) as (o & Hlast & Hne & Hraise).
    exists o. split; [exact Hlast |]. split.
    - intros error_msg Ho. rewrite (Hraise error_msg Ho).
      split; [intros H; discriminate H |].
      split; [intros H; rewrite H in Hmethod; discriminate Hmethod |].
      split; [reflexivity |].
      split; [discriminate |].
      apply (contains_app (lit "// ")).
    - intros H. contradiction. }
  exfalso. destruct Htype as [H | [H | H]].
  - discriminate H.
  - rewrite H in Hmethod. discriminate Hmethod.
  - rewrite H in Hfield. discriminate Hfield.
Qed.

End RetryPolicy.

(** A backend that refuses the first request and would answer the
    second: the class gets its placeholder. *)
Lemma fallback_placeholder_witness :
  let comment := fst (generate_comment failing_once (class_Foo 1) NoContext
                        fresh) in
  exists o,
    last_outcome (trace fresh)
      (trace (snd (generate_comment failing_once (class_Foo 1) NoContext
                     fresh))) o
    /\ (forall error_msg, o = Raise error_msg ->
          (is_class_type (type (class_Foo 1)) = true ->
           comment = lit "/**" ++ [NL] ++ lit " * "
                     ++ format_opt (name (class_Foo 1))
                     ++ lit " " ++ KO_CLASS ++ [NL] ++ lit " */")
          /\ (type (class_Foo 1) = lit "method" ->
              comment = lit "/**" ++ [NL] ++ lit " * "
                        ++ format_opt (name (class_Foo 1))
                        ++ lit " " ++ KO_METHOD ++ [NL] ++ lit " */")
          /\ (type (class_Foo 1) = lit "field" ->
              comment = lit "// " ++ format_opt (name (class_Foo 1))
                        ++ lit " " ++ KO_FIELD)
          /\ comment <> []
          /\ contains comment (format_opt (name (class_Foo 1))) = true)
    /\ (comment = [] -> o = Response []).
Proof.
  apply (@fallback_placeholder nat failing_once (class_Foo 1) NoContext fresh).
  left. reflexivity.
Defined.

(** At that backend the request failed, and the comment is the
    placeholder of the class. *)
Example failing_once_class_run :
  generate_comment failing_once (class_Foo 1) NoContext fresh
  = (class_placeholder (lit "Foo"),
     {| api := 1;
        trace := [Create (ClassPrompt []) MAX_TOKENS
                    (Raise (lit "Connection error."))] |}).
Proof. vm_compute. reflexivity. Qed.

(** An overloaded backend: the request for a class is made five times,
    with the four waits in between, and the placeholder is returned. *)
Example overloaded_class_run :
  generate_comment overloaded (class_Foo 1) NoContext idle
  = (class_placeholder (lit "Foo"),
     {| api := tt;
        trace :=
          let failure :=
            Create (ClassPrompt []) MAX_TOKENS
              (Raise (lit "Error code: 529 - overloaded_error")) in
          [failure; Sleep 15; failure; Sleep 30; failure; Sleep 60;
           failure; Sleep 120; failure] |}).
Proof. vm_compute. reflexivity. Qed.

(** The request for a field is made once, overload or not. *)
Example overloaded_field_run :
  generate_comment overloaded
    {| type := lit "field"; name := Some (lit "count");
       content := lit "private int count;"; line_number := 1;
       existing_comment := None; method_info := None |} NoContext idle
  = (lit "// count " ++ KO_FIELD,
     {| api := tt;
        trace := [Create (FieldPrompt []) 200
                    (Raise (lit "Error code: 529 - overloaded_error"))] |}).
Proof. vm_compute. reflexivity. Qed.

(** C7, the input that refutes it as stated: a reply that is empty is
    passed on as it is, and the comment of the class is then empty. *)
Example empty_reply_empty_comment :
  fst (generate_comment silent (class_Foo 1) NoContext idle) = [].
Proof. vm_compute. reflexivity. Qed.

(* ================================================================== *)
(** ** The recognizer *)
(* ================================================================== *)

Section Recognizer.

Variable alnum_high : char -> bool.

(** No match of the method pattern yields method information. *)
Lemma extract_method_info_none (m : Match) : _extract_method_info m = None.
Proof.
  unfold _extract_method_info.
  destruct (group_tuple m _); reflexivity.
Qed.

(** What the method loop lets through is a method that is no accessor. *)
Lemma method_element_inv (text : str) (m : Match) (e : JavaElement) :
  In e (method_element alnum_high text m) ->
  type e = lit "method" /\
  exists n, name e = Some n /\ is_accessor_name n = false.
Proof.
  unfold method_element.
  destruct (_extract_method_info m) as [info |]; [| intros []].
  destruct (truthy_opt _); [intros [] |].
  destruct (is_accessor_name (mi_name info)) eqn:Hacc; [intros [] |].
  intros [<- | []]. simpl. split; [reflexivity |].
  exists (mi_name info). split; [reflexivity | exact Hacc].
Qed.

Lemma class_element_inv (text : str) (m : Match) (e : JavaElement) :
  In e (class_element alnum_high text m) <->
  truthy_opt (_extract_comment alnum_high (group m "comment")) = false /\
  e = class_of_match alnum_high text m.
Proof.
  unfold class_element, class_of_match.
  destruct (truthy_opt _); simpl; split.
  - intros [].
  - intros [H _]. discriminate.
  - intros [<- | []]. split; reflexivity.
  - intros [_ ->]. left. reflexivity.
Qed.

Lemma insert_by_line_perm (x : JavaElement) (l : list JavaElement) :
  Permutation (insert_by_line x l) (x :: l).
Proof.
  induction l as [| y l IH]; simpl.
  - apply Permutation_refl.
  - destruct (line_number x <=? line_number y).
    + apply Permutation_refl.
    + apply perm_trans with (y :: x :: l).
      * apply perm_skip. exact IH.
      * apply perm_swap.
Qed.

Lemma sort_by_line_perm (l : list JavaElement) :
  Permutation (sort_by_line l) l.
Proof.
  induction l as [| x l IH]; simpl.
  - apply perm_nil.
  - apply perm_trans with (x :: sort_by_line l).
    + apply insert_by_line_perm.
    + apply perm_skip. exact IH.
Qed.

Lemma sort_by_line_In (e : JavaElement) (l : list JavaElement) :
  In e (sort_by_line l) <-> In e l.
Proof.
  split; apply Permutation_in.
  - apply sort_by_line_perm.
  - apply Permutation_sym, sort_by_line_perm.
Qed.

Lemma insert_by_line_sorted (x : JavaElement) (l : list JavaElement) :
  StronglySorted line_le l -> StronglySorted line_le (insert_by_line x l).
Proof.
  induction l as [| y l IH]; simpl; intros Hs.
  - constructor; constructor.
  - inversion Hs as [| ? ? Hl Hy]; subst.
    destruct (line_number x <=? line_number y) eqn:Hxy.
    + apply Nat.leb_le in Hxy. constructor; [exact Hs |].
      constructor; [exact Hxy |].
      eapply Forall_impl; [| exact Hy].
      intros z Hz. unfold line_le in *. lia.
    + apply Nat.leb_gt in Hxy. constructor; [apply IH; exact Hl |].
      apply Forall_forall. intros z Hz.
      apply (Permutation_in _ (insert_by_line_perm x l)) in Hz.
      destruct Hz as [<- | Hz].
      * unfold line_le. lia.
      * rewrite Forall_forall in Hy. apply Hy. exact Hz.
Qed.

Lemma sort_by_line_sorted (l : list JavaElement) :
  StronglySorted line_le (sort_by_line l).
Proof.
  induction l as [| x l IH]; simpl.
  - constructor.
  - apply insert_by_line_sorted. exact IH.
Qed.

Lemma StronglySorted_map_line (l : list JavaElement) :
  StronglySorted line_le l -> StronglySorted le (map line_number l).
Proof.
  induction 1 as [| x l Hl IH Hx]; simpl; constructor.
  - exact IH.
  - apply Forall_map. exact Hx.
Qed.

(** The elements [parse] collects before sorting. *)
Lemma parse_In (text : str) (e : JavaElement) :
  In e (parse alnum_high text) <->
  (exists m, In m (finditer alnum_high class_pattern text)
             /\ In e (class_element alnum_high text m))
  \/ (exists m, In m (finditer alnum_high method_pattern text)
              /\ In e (method_element alnum_high text m)).
Proof.
  unfold parse. rewrite sort_by_line_In, in_app_iff, !in_flat_map.
  reflexivity.
Qed.

(** Only classes are returned. *)
Lemma parse_only_classes (text : str) (e : JavaElement) :
  In e (parse alnum_high text) -> type e = lit "class".
Proof.
  rewrite parse_In. intros [(m & _ & H) | (m & _ & H)].
  - apply class_element_inv in H. destruct H as [_ ->]. reflexivity.
  - unfold method_element in H. rewrite extract_method_info_none in H.
    destruct H.
Qed.

(** C8: no method named get..., set... or is... is among the elements
    [parse] returns, whatever the source text. *)
Theorem accessors_never_returned (text : str) :
  existsb is_accessor_method (parse alnum_high text) = false.
Proof.
  destruct (existsb _ _) eqn:H; [| reflexivity].
  apply existsb_exists in H. destruct H as (e & Hin & Hacc).
  apply parse_In in Hin. destruct Hin as [(m & _ & H) | (m & _ & H)].
  - apply class_element_inv in H. destruct H as [_ ->].
    discriminate Hacc.
  - apply method_element_inv in H. destruct H as (Ht & n & Hn & Hno).
    unfold is_accessor_method in Hacc. rewrite Hn, Hno, andb_false_r in Hacc.
    discriminate Hacc.
Qed.

(** C9, as amended: the elements [parse] returns are in ascending order
    of [line_number]; two of them may have the same line. *)
Theorem parse_sorted_by_line (text : str) :
  StronglySorted le (map line_number (parse alnum_high text)).
Proof.
  unfold parse. apply StronglySorted_map_line, sort_by_line_sorted.
Qed.

(** What [parse] goes by: an element is returned exactly for the matches
    of the class pattern whose comment group, the Javadoc block matched
    right before the declaration, is absent or empty once cleaned; the
    [existing_comment] of a returned element is therefore empty. *)
Theorem parse_keeps_undocumented_matches (text : str) (e : JavaElement) :
  (In e (parse alnum_high text) <->
   exists m, In m (finditer alnum_high class_pattern text)
     /\ truthy_opt (_extract_comment alnum_high (group m "comment")) = false
     /\ e = class_of_match alnum_high text m)
  /\ (In e (parse alnum_high text) -> truthy_opt (existing_comment e) = false).
Proof.
  assert (Hiff : In e (parse alnum_high text) <->
    exists m, In m (finditer alnum_high class_pattern text)
      /\ truthy_opt (_extract_comment alnum_high (group m "comment")) = false
      /\ e = class_of_match alnum_high text m).
  { rewrite parse_In. split.
    - intros [(m & Hm & H) | (m & _ & H)].
      + exists m. split; [exact Hm |]. apply class_element_inv. exact H.
      + unfold method_element in H. rewrite extract_method_info_none in H.
        destruct H.
    - intros (m & Hm & H). left. exists m. split; [exact Hm |].
      apply class_element_inv. exact H. }
  split; [exact Hiff |].
  intros H. apply Hiff in H. destruct H as (m & _ & Hc & ->). exact Hc.
Qed.

End Recognizer.

(** C9, the input that refutes it as stated: two classes that begin on
    one line are both returned with line 1. *)
Lemma two_elements_on_one_line :
  map line_number (parse alnum_sample (lit "class A { class B {")) = [1; 1]
  /\ ~ StronglySorted lt
        (map line_number (parse alnum_sample (lit "class A { class B {"))).
Proof.
  assert (H : map line_number (parse alnum_sample (lit "class A { class B {"))
              = [1; 1]) by (vm_compute; reflexivity).
  split; [exact H |]. rewrite H. intros Hs.
  inversion Hs as [| ? ? _ Hall]; subst.
  inversion Hall as [| ? ? Hlt _]; subst. lia.
Qed.

(** C3, at the input where the code departs from it: a class below a
    [//] line.  Below a Javadoc block the class is left out.  Below the
    [//] line the class pattern matches at the start of the second line;
    the lines before that position form a documentation block, which
    [_extract_existing_comment] returns; and [parse] returns the class
    all the same, as an element without an existing comment. *)
Theorem line_comment_not_excluded :
  parse alnum_sample javadoc_java = []
  /\ map (@m_start) (finditer alnum_sample class_pattern line_comment_java)
     = [7]
  /\ _extract_existing_comment line_comment_java 7 = Some (lit "// doc")
  /\ parse alnum_sample line_comment_java = [class_Foo 2].
Proof. vm_compute. repeat split. Qed.

(** The class below the [//] line: it is returned, its
    [existing_comment] is empty. *)
Lemma parse_keeps_undocumented_matches_witness :
  In (class_Foo 2) (parse alnum_sample line_comment_java)
  /\ truthy_opt (existing_comment (class_Foo 2)) = false.
Proof.
  assert (H : In (class_Foo 2) (parse alnum_sample line_comment_java)).
  { vm_compute. left. reflexivity. }
  split; [exact H |].
  exact (proj2 (parse_keeps_undocumented_matches alnum_sample
                  line_comment_java (class_Foo 2)) H).
Defined.

(** C2, at the input where the code departs from it: a field declared
    outside every block is not returned.  [parse] returns classes only,
    and [parse_java_file], which has the field loop, stops on the missing
    [field_pattern]. *)
Theorem fields_never_recognized :
  (forall alnum_high text,
      Forall (fun e => type e = lit "class") (parse alnum_high text))
  /\ parse alnum_sample (lit "private int count;") = []
  /\ _is_inside_method (lit "private int count;") 0 = false
  /\ parse_java_file alnum_sample (holding (lit "private int count;"))
       "Counter.java" = inl AttributeError.
Proof.
  split.
  - intros alnum_high text. apply Forall_forall. intros e.
    apply parse_only_classes.
  - vm_compute. repeat split.
Qed.

(** [list.insert] puts the comment at its index and moves the lines from
    there on down by one. *)
Lemma insert_comment_at (lines : list str) (p : nat) (c : str) :
  p <= length lines -> nth_error (_insert_comment lines p c) p = Some c.
Proof.
  intros H. unfold _insert_comment.
  rewrite nth_error_app2 by (rewrite length_firstn; lia).
  rewrite length_firstn, Nat.min_l by exact H.
  rewrite Nat.sub_diag. reflexivity.
Qed.

Lemma insert_comment_after (lines : list str) (p i : nat) (c : str) :
  p <= i -> p <= length lines ->
  nth_error (_insert_comment lines p c) (S i) = nth_error lines i.
Proof.
  intros Hi H. unfold _insert_comment.
  rewrite nth_error_app2 by (rewrite length_firstn; lia).
  rewrite length_firstn, Nat.min_l by exact H.
  replace (S i - p) with (S (i - p)) by lia. simpl.
  rewrite nth_error_skipn. f_equal. lia.
Qed.

(** Two insertions in ascending order at the recorded indices: the
    second comment lands above the line that precedes its target. *)
Lemma second_insertion_one_line_high (lines : list str) (p1 p2 : nat)
    (c1 c2 : str) :
  p1 < p2 -> p2 < length lines ->
  let out := _insert_comment (_insert_comment lines p1 c1) p2 c2 in
  nth_error out p2 = Some c2
  /\ nth_error out (S p2) = nth_error lines (p2 - 1)
  /\ nth_error out (S (S p2)) = nth_error lines p2.
Proof.
  intros H12 H2 out.
  assert (Hlen : length (_insert_comment lines p1 c1) = S (length lines)).
  { unfold _insert_comment. rewrite length_app. simpl.
    rewrite length_firstn, length_skipn. lia. }
  repeat split.
  - apply insert_comment_at. lia.
  - unfold out. rewrite insert_comment_after by lia.
    replace p2 with (S (p2 - 1)) at 1 by lia.
    apply insert_comment_after; lia.
  - unfold out. rewrite insert_comment_after by lia.
    apply insert_comment_after; lia.
Qed.

(** The same for the loop of [process_java_file], whatever the comments
    are: with two elements the comment of the second sits above the line
    that precedes the second element, not above the element. *)
Lemma second_comment_one_line_high (backend : Type)
    (create : prompt -> nat -> backend -> outcome * backend)
    (e1 e2 : JavaElement) (lines : list str) (w : world backend) :
  1 <= line_number e1 -> line_number e1 < line_number e2 ->
  line_number e2 <= length lines ->
  exists out c2 w',
    insert_comments create [e1; e2] lines lines w = inr (out, w')
    /\ nth_error out (line_number e2 - 1) = Some c2
    /\ nth_error out (line_number e2) = nth_error lines (line_number e2 - 2)
    /\ nth_error out (line_number e2 + 1)
       = nth_error lines (line_number e2 - 1).
Proof.
  intros H1 H12 H2. cbn [insert_comments].
  destruct (generate_comment create e1 (LinesContext lines) w) as [c1 w1].
  destruct (nth_error lines (line_number e1 - 1)) as [line1 |] eqn:E1.
  2:{ apply nth_error_None in E1. lia. }
  destruct (generate_comment create e2 (LinesContext lines) w1) as [c2 w2].
  set (m1 := _insert_comment lines (line_number e1 - 1)
               (_indent_comment c1 (repeat 32%N (_get_indent line1)))).
  assert (Hlen : length m1 = S (length lines)).
  { unfold m1, _insert_comment. rewrite length_app. simpl.
    rewrite length_firstn, length_skipn. lia. }
  destruct (nth_error m1 (line_number e2 - 1)) as [line2 |] eqn:E2.
  2:{ apply nth_error_None in E2. lia. }
  eexists _, _, _. split; [reflexivity |].
  destruct (@second_insertion_one_line_high lines (line_number e1 - 1)
              (line_number e2 - 1)
              (_indent_comment c1 (repeat 32%N (_get_indent line1)))
              (_indent_comment c2 (repeat 32%N (_get_indent line2))))
    as (Ha & Hb & Hc); [lia | lia |].
  fold m1 in Ha, Hb, Hc.
  split; [exact Ha |]. split.
  - replace (line_number e2 - 2) with (line_number e2 - 1 - 1) by lia.
    rewrite <- Hb. f_equal. lia.
  - rewrite <- Hc. f_equal. lia.
Qed.

(** C1, at the inputs where the code departs from it.  With two classes
    the second comment is put at the recorded line of its class, which
    the first insertion has moved down by one: the comment of Bar ends
    up above the closing brace of Foo, one line too high.  In the
    scenario of the specification the method is not recognized and gets
    no comment. *)
Theorem comment_above_wrong_line :
  text_of (process_text alnum_sample refusing two_classes_java idle)
  = Some (join [NL]
            [class_placeholder (lit "Foo"); lit "class Foo {";
             class_placeholder (lit "Bar"); lit "}";
             lit "class Bar {"; lit "}"])
  /\ text_of (process_text alnum_sample refusing foo_bar_java idle)
     = Some (join [NL]
               [class_placeholder (lit "Foo");
                lit "class Foo {"; lit "  public void bar() {}"; lit "}"]).
Proof. vm_compute. split; reflexivity. Qed.

(* ================================================================== *)
(** ** Rewriting a file *)
(* ================================================================== *)

Lemma one_line_cons (c : char) (l : str) :
  one_line (c :: l) -> is_linebreak c = false /\ one_line l.
Proof.
  unfold one_line. simpl. intros H. apply orb_false_iff in H. exact H.
Qed.


(** [splitlines] cuts a line at its terminator. *)
Lemma splitlines_line (l rest : str) :
  one_line l -> splitlines (l ++ NL :: rest) = l :: splitlines rest.
Proof.
  induction l as [| c l IH]; intros Hl.
  - simpl. destruct rest; reflexivity.
  - apply one_line_cons in Hl. destruct Hl as [Hc Hl].
    change ((c :: l) ++ NL :: rest) with (c :: (l ++ NL :: rest)).
    cbn [splitlines]. rewrite Hc, (IH Hl). reflexivity.
Qed.








(* ================================================================== *)
(** ** The matcher and the patterns it generates *)
(* ================================================================== *)

Section MatcherFacts.

Variable alnum_high : char -> bool.

Lemma rmatch_One_cons c pos a s cs k :
  rmatch alnum_high (One c) pos (a :: s) cs k
  = if in_cset alnum_high c a then k (S pos) s cs else None.
Proof. reflexivity. Qed.

Lemma rmatch_Seq r1 r2 pos s cs k :
  rmatch alnum_high (Seq r1 r2) pos s cs k
  = rmatch alnum_high r1 pos s cs (fun pos' s' cs' => rmatch alnum_high r2 pos' s' cs' k).
Proof. reflexivity. Qed.

Lemma rmatch_Star g r pos s cs k :
  rmatch alnum_high (Star g r) pos s cs k
  = star_loop (rmatch alnum_high r) g (length s) pos s cs k.
Proof. reflexivity. Qed.

Lemma rmatch_Group name r pos s cs k :
  rmatch alnum_high (Group name r) pos s cs k
  = rmatch alnum_high r pos s cs
      (fun pos' s' cs' => k pos' s' ((name, firstn (pos' - pos) s) :: cs')).
Proof. reflexivity. Qed.

Lemma rmatch_opt_skip r pos s cs k :
  rmatch alnum_high r pos s cs k = None -> rmatch alnum_high (opt r) pos s cs k = k pos s cs.
Proof. intros H. unfold opt. simpl. rewrite H. reflexivity. Qed.

(** A literal consumes itself. *)
Lemma rmatch_chars l pos s cs k :
  rmatch alnum_high (chars l) pos (l ++ s) cs k = k (pos + length l) s cs.
Proof.
  revert pos. induction l as [| c l IH]; intros pos.
  - simpl. rewrite Nat.add_0_r. reflexivity.
  - destruct l as [| c' l].
    + simpl. rewrite N.eqb_refl. f_equal. lia.
    + change (chars (c :: c' :: l)) with (Seq (One (CChar c)) (chars (c' :: l))).
      rewrite rmatch_Seq.
      change ((c :: c' :: l) ++ s) with (c :: ((c' :: l) ++ s)).
      rewrite rmatch_One_cons. simpl in_cset. rewrite N.eqb_refl.
      rewrite IH. f_equal. simpl. lia.
Qed.

(** A star whose body cannot start goes on with what follows it. *)
Lemma star_stop body g fuel pos s cs k :
  (forall k1, body pos s cs k1 = None) ->
  star_loop body g fuel pos s cs k = k pos s cs.
Proof.
  intros H. destruct fuel; simpl; [reflexivity |].
  rewrite H. destruct g; [reflexivity |]. destruct (k pos s cs); reflexivity.
Qed.

(** A greedy star over one character set takes a whole run of characters
    of the set when the continuation accepts what follows. *)
Lemma star_run (c : cset) (w s : str) (fuel pos : nat) (cs : caps)
    (k : cont) (x : result) :
  Forall (fun a => in_cset alnum_high c a = true) w ->
  match s with [] => True | a :: _ => in_cset alnum_high c a = false end ->
  length w <= fuel ->
  k (pos + length w) s cs = Some x ->
  star_loop (rmatch alnum_high (One c)) true fuel pos (w ++ s) cs k = Some x.
Proof.
  intros Hw Hs. revert fuel pos.
  induction Hw as [| a w Ha Hw IH]; intros fuel pos Hfuel Hk.
  - simpl in *. rewrite Nat.add_0_r in Hk. destruct fuel as [| fuel]; simpl.
    + exact Hk.
    + destruct s as [| a s]; [exact Hk |]. rewrite Hs. exact Hk.
  - destruct fuel as [| fuel]; [simpl in Hfuel; lia |].
    simpl. rewrite Ha.
    assert (Hlt : (pos <? S pos) = true) by (apply Nat.ltb_lt; lia).
    rewrite Hlt. rewrite IH; [reflexivity | simpl in Hfuel; lia |].
    simpl in Hk. rewrite <- Hk. f_equal. lia.
Qed.

Lemma firstn_length_app {A} (l l' : list A) n :
  n = length l -> firstn n (l ++ l') = l.
Proof.
  intros ->. rewrite firstn_app, Nat.sub_diag, firstn_all. simpl.
  apply app_nil_r.
Qed.

(** The part of the class pattern from the keyword on, on a plain
    declaration: the name group captures the name. *)
Lemma class_head_plain (n rest : str) (pos : nat) (cs : caps) (k : cont)
    (x : result) :
  n <> [] -> Forall (name_char alnum_high) n ->
  k (pos + length (lit "class " ++ n ++ lit " {")) rest
    (("name"%string, n) :: cs) = Some x ->
  rmatch alnum_high class_head_re pos (lit "class " ++ n ++ lit " {" ++ rest) cs k
  = Some x.
Proof.
  intros Hne Hn Hk.
  destruct n as [| a n]; [contradiction |].
  inversion Hn as [| ? ? [Hwa Hsa] Hn']; subst.
  unfold class_head_re.
  rewrite rmatch_Seq.
  change (lit "class " ++ (a :: n) ++ lit " {" ++ rest)
    with (lit "class" ++ 32%N :: a :: n ++ lit " {" ++ rest).
  unfold text. rewrite rmatch_chars.
  (* the white space after the keyword *)
  unfold ws1 at 1, plus. rewrite !rmatch_Seq, rmatch_One_cons.
  change (in_cset alnum_high CSpace 32%N) with true. cbv iota.
  rewrite rmatch_Star, star_stop
    by (intros k1; rewrite rmatch_One_cons; simpl in_cset; rewrite Hsa;
        reflexivity).
  (* the name *)
  cbv beta. rewrite rmatch_Seq, rmatch_Group. unfold word1, plus.
  rewrite rmatch_Seq, rmatch_One_cons.
  simpl in_cset. rewrite Hwa. rewrite rmatch_Star.
  apply star_run.
  - eapply Forall_impl; [| exact Hn']. intros c [Hc _]. exact Hc.
  - reflexivity.
  - rewrite length_app. lia.
  - (* no extends clause, no implements clause *)
    cbv beta. rewrite rmatch_Seq, rmatch_opt_skip.
    2:{ cbn. reflexivity. }
    rewrite rmatch_Seq, rmatch_opt_skip.
    2:{ cbn. reflexivity. }
    rewrite rmatch_Seq. unfold ws. rewrite rmatch_Star.
    change (lit " {" ++ rest) with ([32%N] ++ 123%N :: rest).
    apply star_run.
    + repeat constructor.
    + reflexivity.
    + rewrite length_app. simpl. lia.
    + change (123%N :: rest) with (lit "{" ++ rest). rewrite rmatch_chars.
      rewrite <- Hk. f_equal.
      * rewrite !length_app. simpl. unfold str, char in *. lia.
      * f_equal. f_equal.
        change (a :: n ++ [32%N] ++ lit "{" ++ rest)
          with ((a :: n) ++ ([32%N] ++ lit "{" ++ rest)).
        apply firstn_length_app. simpl length. unfold str, char in *. lia.
Qed.

Lemma star_loop_nil body g fuel pos s cs k :
  accepts k pos s -> star_loop body g fuel pos s cs k <> None.
Proof.
  intros Hk. destruct fuel as [| fuel]; simpl; [apply Hk |].
  destruct g.
  - destruct (body _ _ _ _); [discriminate | apply Hk].
  - specialize (Hk cs). destruct (k pos s cs); [discriminate | contradiction].
Qed.

Lemma star_loop_cons body g fuel pos (a s : str) cs k :
  a <> [] ->
  (forall cs' k', accepts k' (pos + length a) s ->
                  body pos (a ++ s) cs' k' <> None) ->
  (forall cs', star_loop body g fuel (pos + length a) s cs' k <> None) ->
  star_loop body g (S fuel) pos (a ++ s) cs k <> None.
Proof.
  intros Ha Hbody Hrest. simpl.
  assert (Hagain : body pos (a ++ s) cs
    (fun pos' s' cs' =>
       if pos <? pos' then star_loop body g fuel pos' s' cs' k else None)
    <> None).
  { apply Hbody. intros cs'.
    assert (Hlt : (pos <? pos + length a) = true).
    { apply Nat.ltb_lt. destruct a; [contradiction | simpl; lia]. }
    rewrite Hlt. apply Hrest. }
  destruct g.
  - destruct (body _ _ _ _); [discriminate | contradiction].
  - destruct (k pos (a ++ s) cs); [discriminate | exact Hagain].
Qed.

(** The matcher finds a match wherever the pattern generates a prefix of
    the input and the continuation accepts the rest. *)
Lemma rmatch_complete (r : regex) (a : str) :
  lang alnum_high r a ->
  forall pos rest cs k,
    accepts k (pos + length a) rest ->
    rmatch alnum_high r pos (a ++ rest) cs k <> None
    /\ (forall g r', r = Star g r' ->
        forall fuel, length (a ++ rest) <= fuel ->
          star_loop (rmatch alnum_high r') g fuel pos (a ++ rest) cs k <> None).
Proof.
  induction 1 as [| c x Hx | r1 r2 a b _ IH1 _ IH2 | r1 r2 a _ IH
                 | r1 r2 a _ IH | g r | g r a b Hne _ IHa _ IHb
                 | name r a _ IH];
    intros pos rest cs k Hk.
  - split; [| discriminate]. simpl in *. rewrite Nat.add_0_r in Hk. apply Hk.
  - split; [| discriminate]. simpl. rewrite Hx.
    replace (S pos) with (pos + length [x]) by (simpl; lia). apply Hk.
  - split; [| discriminate]. simpl. rewrite <- app_assoc.
    apply IH1. intros cs'. apply IH2. intros cs''.
    rewrite length_app, Nat.add_assoc in Hk. apply Hk.
  - split; [| discriminate]. simpl.
    destruct (rmatch alnum_high r1 _ _ _ _) eqn:E; [discriminate |].
    exfalso. revert E. apply IH. exact Hk.
  - split; [| discriminate]. simpl.
    destruct (rmatch alnum_high r1 _ _ _ _); [discriminate |].
    apply IH. exact Hk.
  - simpl in Hk. rewrite Nat.add_0_r in Hk. split.
    + simpl. apply star_loop_nil. exact Hk.
    + intros g' r' _ fuel _. simpl. apply star_loop_nil. exact Hk.
  - assert (Hloop : forall fuel, length ((a ++ b) ++ rest) <= fuel ->
      star_loop (rmatch alnum_high r) g fuel pos ((a ++ b) ++ rest) cs k <> None).
    { intros fuel Hfuel. rewrite <- app_assoc in *.
      destruct fuel as [| fuel].
      { rewrite length_app in Hfuel.
        destruct a; [contradiction | simpl in Hfuel; lia]. }
      apply star_loop_cons; [exact Hne | |].
      - intros cs' k' Hk'. apply IHa. exact Hk'.
      - intros cs'.
        assert (Hk' : accepts k (pos + length a + length b) rest).
        { intros cs''. rewrite length_app, Nat.add_assoc in Hk. apply Hk. }
        apply (proj2 (IHb (pos + length a) rest cs' k Hk') g r eq_refl).
        rewrite length_app in Hfuel.
        destruct a; [contradiction | simpl in Hfuel; lia]. }
    split.
    + simpl. apply Hloop. lia.
    + intros g' r' E. injection E as <- <-. exact Hloop.
  - split; [| discriminate]. simpl. apply IH. intros cs'. apply Hk.
Qed.

(** A pattern leaves the groups it does not contain as they were. *)
Lemma star_loop_caps (g : string) body greedy :
  (forall pos s cs k x, body pos s cs k = Some x ->
     exists pos' s' cs', k pos' s' cs' = Some x /\ lookup g cs' = lookup g cs) ->
  forall fuel pos s cs k x, star_loop body greedy fuel pos s cs k = Some x ->
     exists pos' s' cs', k pos' s' cs' = Some x /\ lookup g cs' = lookup g cs.
Proof.
  intros Hbody. induction fuel as [| fuel IH]; intros pos s cs k x H;
    simpl in H.
  - eauto.
  - assert (Hagain : forall y,
      body pos s cs
        (fun pos' s' cs' =>
           if pos <? pos' then star_loop body greedy fuel pos' s' cs' k
           else None) = Some y ->
      exists pos' s' cs', k pos' s' cs' = Some y /\ lookup g cs' = lookup g cs).
    { intros y Hy. apply Hbody in Hy. destruct Hy as (p1 & s1 & c1 & Hy & Hl).
      destruct (pos <? p1); [| discriminate].
      apply IH in Hy. destruct Hy as (p2 & s2 & c2 & Hy & Hl2).
      exists p2, s2, c2. split; [exact Hy | congruence]. }
    destruct greedy.
    + destruct (body _ _ _ _) as [y |] eqn:E.
      * injection H as ->. apply Hagain. reflexivity.
      * eauto.
    + destruct (k pos s cs) as [y |] eqn:E.
      * injection H as ->. eauto.
      * apply Hagain. exact H.
Qed.

Lemma rmatch_caps (g : string) (r : regex) :
  ~ In g (group_names r) ->
  forall pos s cs k x, rmatch alnum_high r pos s cs k = Some x ->
    exists pos' s' cs', k pos' s' cs' = Some x /\ lookup g cs' = lookup g cs.
Proof.
  induction r as [| | c | r1 IH1 r2 IH2 | r1 IH1 r2 IH2 | greedy r IH
                 | name r IH];
    intros Hg pos s cs k x H; simpl in *.
  - eauto.
  - destruct (pos =? 0); [eauto | discriminate].
  - destruct s as [| a s]; [discriminate |].
    destruct (in_cset alnum_high c a); [eauto | discriminate].
  - apply IH1 in H; [| intros Hin; apply Hg, in_or_app; left; exact Hin].
    destruct H as (p1 & s1 & c1 & H & Hl).
    apply IH2 in H; [| intros Hin; apply Hg, in_or_app; right; exact Hin].
    destruct H as (p2 & s2 & c2 & H & Hl2).
    exists p2, s2, c2. split; [exact H | congruence].
  - destruct (rmatch alnum_high r1 pos s cs k) as [y |] eqn:E.
    + injection H as ->. apply IH1 in E; [exact E |].
      intros Hin; apply Hg, in_or_app; left; exact Hin.
    + apply IH2 in H; [exact H |].
      intros Hin; apply Hg, in_or_app; right; exact Hin.
  - revert H. apply star_loop_caps. intros p0 s0 c0 k0 x0. apply IH. exact Hg.
  - apply IH in H; [| intros Hin; apply Hg; right; exact Hin].
    destruct H as (p1 & s1 & c1 & H & Hl).
    exists p1, s1, ((name, firstn (p1 - pos) s) :: c1). split; [exact H |].
    simpl. destruct (String.eqb name g) eqn:E; [| exact Hl].
    apply String.eqb_eq in E. exfalso. apply Hg. left. exact E.
Qed.

Lemma lang_nullable (r : regex) (a : str) :
  lang alnum_high r a -> a = [] -> nullable r = true.
Proof.
  induction 1 as [| c x Hx | r1 r2 a b _ IH1 _ IH2 | r1 r2 a _ IH
                 | r1 r2 a _ IH | g r | g r a b Hne _ IHa _ IHb
                 | name r a _ IH]; intros E; simpl.
  - reflexivity.
  - discriminate.
  - apply app_eq_nil in E. destruct E as [-> ->]. rewrite IH1, IH2; reflexivity.
  - rewrite IH; auto.
  - rewrite IH; auto using orb_true_r.
  - reflexivity.
  - reflexivity.
  - auto.
Qed.

Lemma lang_firsts (r : regex) (a : str) :
  lang alnum_high r a ->
  forall c a', a = c :: a' -> firsts alnum_high r c = true.
Proof.
  induction 1 as [| c x Hx | r1 r2 a b H1 IH1 _ IH2 | r1 r2 a _ IH
                 | r1 r2 a _ IH | g r | g r a b Hne _ IHa _ IHb
                 | name r a _ IH]; intros c0 a' E; simpl.
  - discriminate.
  - injection E as -> _. exact Hx.
  - destruct a as [| y a].
    + rewrite (lang_nullable H1 eq_refl). simpl in E.
      rewrite (IH2 _ _ E). apply orb_true_r.
    + injection E as -> _. rewrite (IH1 _ _ eq_refl). reflexivity.
  - rewrite (IH _ _ E). reflexivity.
  - rewrite (IH _ _ E). apply orb_true_r.
  - discriminate.
  - destruct a as [| y a]; [contradiction |].
    injection E as -> _. apply (IHa _ _ eq_refl).
  - apply (IH _ _ E).
Qed.

Lemma lang_chars (l : str) : lang alnum_high (chars l) l.
Proof.
  induction l as [| c l IH].
  - constructor.
  - destruct l as [| c' l].
    + simpl. constructor. simpl. apply N.eqb_refl.
    + change (chars (c :: c' :: l)) with (Seq (One (CChar c)) (chars (c' :: l))).
      apply (@lang_seq alnum_high _ _ [c] (c' :: l)); [| exact IH].
      constructor. simpl. apply N.eqb_refl.
Qed.

Lemma lang_star_run (g : bool) (c : cset) (w : str) :
  Forall (fun a => in_cset alnum_high c a = true) w ->
  lang alnum_high (Star g (One c)) w.
Proof.
  induction 1 as [| a w Ha _ IH].
  - constructor.
  - apply (@lang_star_cons alnum_high g (One c) [a] w).
    + discriminate.
    + constructor. exact Ha.
    + exact IH.
Qed.

Lemma isspace_neq (c x : char) :
  isspace c = true -> isspace x = false -> N.eqb c x = false.
Proof.
  intros Hc Hx. destruct (N.eqb c x) eqn:E; [| reflexivity].
  apply N.eqb_eq in E. subst x. congruence.
Qed.

(** No match of the class pattern starts at a white-space character. *)
Lemma class_pattern_not_at_space (c : char) (s : str) (pos : nat) :
  isspace c = true -> match_at alnum_high class_pattern pos (c :: s) = None.
Proof.
  intros Hc. unfold match_at.
  pose proof (@isspace_neq c 47%N Hc eq_refl) as H47.
  pose proof (@isspace_neq c 64%N Hc eq_refl) as H64.
  pose proof (@isspace_neq c 112%N Hc eq_refl) as H112.
  pose proof (@isspace_neq c 115%N Hc eq_refl) as H115.
  pose proof (@isspace_neq c 102%N Hc eq_refl) as H102.
  pose proof (@isspace_neq c 97%N Hc eq_refl) as H97.
  pose proof (@isspace_neq c 99%N Hc eq_refl) as H99.
  cbn -[N.eqb isspace isword].
  rewrite H47, H64, H112, H115, H102, H97, H99. reflexivity.
Qed.

Lemma finditer_from_skip (fuel pos : nat) (pre s : str) :
  Forall (fun c => isspace c = true) pre ->
  finditer_from alnum_high (length pre + fuel) class_pattern pos (pre ++ s)
  = finditer_from alnum_high fuel class_pattern (pos + length pre) s.
Proof.
  intros Hpre. revert pos. induction Hpre as [| c pre Hc _ IH]; intros pos.
  - simpl. rewrite Nat.add_0_r. reflexivity.
  - change (length (c :: pre) + fuel) with (S (length pre + fuel)).
    change ((c :: pre) ++ s) with (c :: (pre ++ s)).
    cbn [finditer_from]. rewrite class_pattern_not_at_space by exact Hc.
    rewrite IH. f_equal. simpl. lia.
Qed.

Lemma javadoc_needs_slash (c : char) (s : str) (pos : nat) (cs : caps)
    (k : cont) :
  N.eqb c 47%N = false ->
  rmatch alnum_high (Group "comment" javadoc_re) pos (c :: s) cs k = None.
Proof. intros H. cbn -[N.eqb]. rewrite H. reflexivity. Qed.

Lemma Some_neq_None {A} (x : A) : Some x <> None.
Proof. discriminate. Qed.

(** The class pattern matches where a declaration it generates starts,
    and its comment group takes no part in the match. *)
Lemma class_declaration_match (d rest : str) (pos : nat) :
  lang alnum_high class_declaration_re d ->
  exists e cs, match_at alnum_high class_pattern pos (d ++ rest) = Some (e, cs)
               /\ lookup "comment" cs = None.
Proof.
  intros Hd.
  destruct d as [| c d].
  { apply lang_nullable in Hd; [discriminate Hd | reflexivity]. }
  assert (Hc : N.eqb c 47%N = false).
  { destruct (N.eqb c 47%N) eqn:E; [| reflexivity].
    apply N.eqb_eq in E. subst c.
    pose proof (lang_firsts Hd eq_refl) as F. discriminate F. }
  unfold match_at, class_pattern.
  change (rmatch alnum_high (opt (Group "comment" javadoc_re) -+- class_declaration_re)%re
            pos ((c :: d) ++ rest) [] (fun pos' _ cs => Some (pos', cs)))
    with (match rmatch alnum_high (Group "comment" javadoc_re) pos (c :: d ++ rest) []
                  (fun pos' s' cs' => rmatch alnum_high class_declaration_re pos' s' cs'
                     (fun pos' _ cs => Some (pos', cs))) with
          | Some x => Some x
          | None => rmatch alnum_high class_declaration_re pos ((c :: d) ++ rest) []
                      (fun pos' _ cs => Some (pos', cs))
          end).
  rewrite javadoc_needs_slash by exact Hc.
  destruct (rmatch alnum_high class_declaration_re pos ((c :: d) ++ rest) []
              (fun pos' _ cs => Some (pos', cs))) as [[e cs] |] eqn:E.
  - exists e, cs. split; [reflexivity |].
    apply (@rmatch_caps "comment") in E.
    + destruct E as (p' & s' & cs' & E & Hl). injection E as <- <-. exact Hl.
    + cbv. intuition discriminate.
  - exfalso. revert E.
    apply (proj1 (@rmatch_complete _ _ Hd pos rest []
                    (fun pos' _ cs => Some (pos', cs))
                    (fun cs => @Some_neq_None _ _))).
Qed.

Lemma count_char_firstn_app (c : char) (pre s : str) :
  count_char c (firstn (length pre) (pre ++ s)) = count_char c pre.
Proof. rewrite firstn_length_app; reflexivity. Qed.

(** A declaration that the class pattern generates after its Javadoc
    part (annotations, modifiers, the keyword class, a name, the extends
    and implements clauses, the brace), standing after white space only,
    yields an element of type class, at the line where the declaration
    starts and without an existing comment. *)
Theorem class_declaration_recognized (pre d rest : str) :
  Forall (fun c => isspace c = true) pre ->
  lang alnum_high class_declaration_re d ->
  exists e, In e (parse alnum_high (pre ++ d ++ rest))
            /\ type e = lit "class"
            /\ line_number e = count_char NL pre + 1
            /\ existing_comment e = None.
Proof.
  intros Hpre Hd.
  destruct (class_declaration_match rest (0 + length pre) Hd)
    as (e & cs & Hm & Hc).
  set (m := {| m_start := 0 + length pre; m_end := e;
               m_text := firstn (e - (0 + length pre)) (d ++ rest);
               m_caps := cs; m_names := group_names class_pattern |}).
  assert (Hin : In m (finditer alnum_high class_pattern (pre ++ d ++ rest))).
  { unfold finditer.
    replace (S (length (pre ++ d ++ rest)))
      with (length pre + S (length (d ++ rest)))
      by (rewrite (length_app pre); unfold str, char; lia).
    rewrite finditer_from_skip by exact Hpre.
    cbn [finditer_from]. rewrite Hm. left. reflexivity. }
  exists (class_of_match alnum_high (pre ++ d ++ rest) m).
  split; [| split; [| split]].
  - apply parse_In. left. exists m. split; [exact Hin |].
    apply class_element_inv. split; [| reflexivity].
    unfold group. simpl. rewrite Hc. reflexivity.
  - reflexivity.
  - unfold class_of_match, line_of. simpl line_number.
    change (m_start m) with (length pre).
    rewrite count_char_firstn_app. reflexivity.
  - unfold class_of_match, group. simpl. rewrite Hc. reflexivity.
Qed.

(** A plain declaration, [class], a name and the brace, at the start of
    the text: the element carries the name and the text of the
    declaration. *)
Lemma plain_class_recognized (n rest : str) :
  n <> [] -> Forall (name_char alnum_high) n ->
  In {| type := lit "class"; name := Some n;
        content := lit "class " ++ n ++ lit " {"; line_number := 1;
        existing_comment := None; method_info := None |}
     (parse alnum_high (lit "class " ++ n ++ lit " {" ++ rest)).
Proof.
  intros Hne Hn.
  set (src := lit "class " ++ n ++ lit " {" ++ rest).
  set (e := length (lit "class " ++ n ++ lit " {")).
  assert (Hm : match_at alnum_high class_pattern 0 src
               = Some (e, [("name"%string, n); ("annotations"%string, [])])).
  { unfold match_at, class_pattern. rewrite rmatch_Seq, rmatch_opt_skip.
    2:{ reflexivity. }
    unfold class_declaration_re.
    rewrite rmatch_Seq, rmatch_Group. unfold annotations_re.
    rewrite rmatch_Star, star_stop by (intros k1; reflexivity).
    cbv beta. rewrite rmatch_Seq, rmatch_Star, star_stop
      by (intros k1; reflexivity).
    cbv beta. apply class_head_plain; [exact Hne | exact Hn |].
    reflexivity. }
  apply parse_In. left.
  exists {| m_start := 0; m_end := e; m_text := firstn (e - 0) src;
            m_caps := [("name"%string, n); ("annotations"%string, [])];
            m_names := group_names class_pattern |}.
  split.
  - unfold finditer. cbn [finditer_from]. rewrite Hm. left. reflexivity.
  - apply class_element_inv. split; [reflexivity |].
    unfold class_of_match, group, line_of. simpl. do 7 f_equal.
    change (n ++ 32%N :: 123%N :: rest) with (n ++ lit " {" ++ rest).
    rewrite app_assoc. symmetry. apply firstn_length_app. reflexivity.
Qed.

End MatcherFacts.

(** The pattern of the declarations generates [public class Foo {]. *)
Lemma public_class_Foo_generated :
  lang alnum_sample class_declaration_re (lit "public class Foo {").
Proof.
  unfold class_declaration_re.
  apply (@lang_seq _ _ _ [] (lit "public class Foo {")).
  { apply lang_group. apply lang_star_nil. }
  apply (@lang_seq _ _ _ (lit "public ") (lit "class Foo {")).
  { apply (@lang_star_cons _ _ _ (lit "public ") []);
      [discriminate | | apply lang_star_nil].
    apply lang_group.
    apply (@lang_seq _ _ _ (lit "public") (lit " ")).
    - apply lang_alt_l. apply lang_chars.
    - apply (@lang_seq _ _ _ (lit " ") []).
      + apply lang_one. reflexivity.
      + apply lang_star_nil. }
  unfold class_head_re.
  apply (@lang_seq _ _ _ (lit "class") (lit " Foo {")); [apply lang_chars |].
  apply (@lang_seq _ _ _ (lit " ") (lit "Foo {")).
  { apply (@lang_seq _ _ _ (lit " ") []).
    - apply lang_one. reflexivity.
    - apply lang_star_nil. }
  apply (@lang_seq _ _ _ (lit "Foo") (lit " {")).
  { apply lang_group.
    apply (@lang_seq _ _ _ (lit "F") (lit "oo")).
    - apply lang_one. reflexivity.
    - apply lang_star_run. repeat constructor. }
  apply (@lang_seq _ _ _ [] (lit " {")); [apply lang_alt_r, lang_eps |].
  apply (@lang_seq _ _ _ [] (lit " {")); [apply lang_alt_r, lang_eps |].
  apply (@lang_seq _ _ _ (lit " ") (lit "{")).
  - apply lang_star_run. repeat constructor.
  - apply lang_chars.
Defined.

(** A declaration on the second line of a text. *)
Lemma class_declaration_recognized_witness :
  exists e,
    In e (parse alnum_sample
            ([NL] ++ lit "public class Foo {" ++ NL :: lit "}"))
    /\ type e = lit "class"
    /\ line_number e = count_char NL [NL] + 1
    /\ existing_comment e = None.
Proof.
  apply (@class_declaration_recognized alnum_sample [NL]
           (lit "public class Foo {") (NL :: lit "}")).
  - repeat constructor.
  - exact public_class_Foo_generated.
Defined.

(* ================================================================== *)
(** ** The comment format and the generators *)
(* ================================================================== *)

Lemma startswith_join_head (a : str) (tl : list str) (sep : str) :
  startswith (join sep (a :: tl)) a = true.
Proof.
  destruct tl as [| b tl].
  - simpl. rewrite <- (app_nil_r a) at 1. apply startswith_app.
  - change (join sep (a :: b :: tl)) with (a ++ sep ++ join sep (b :: tl)).
    apply startswith_app.
Qed.

(** X1: whatever the reply, when it is not empty the formatted comment
    starts with the opening of a documentation block. *)
Theorem format_comment_opens (comment : str) :
  comment <> [] ->
  startswith (_format_comment comment) (lit "/**") = true.
Proof.
  intros Hne. unfold _format_comment.
  destruct comment as [| c comment]; [contradiction |]. cbn [truthy negb].
  cbv zeta.
  destruct (split_on_cons NL (with_delimiters (c :: comment))) as (l & ls & ->).
  destruct (format_lines_head l ls) as (tl & ->).
  apply startswith_join_head.
Qed.

(** A reply of one word. *)
Lemma format_comment_opens_witness :
  startswith (_format_comment (lit "ok")) (lit "/**") = true.
Proof. apply format_comment_opens. discriminate. Defined.

Section Gen.
Variable backend : Type.
Variable create : prompt -> nat -> backend -> outcome * backend.

(** X2: the comment of a field is a line comment, whatever the backend
    does, and it costs one request of 200 tokens and no wait. *)
Theorem field_comment_line (e : JavaElement) (c : context) (w : world backend) :
  startswith (fst (_generate_field_comment create e c w)) (lit "//") = true
  /\ exists p o,
       trace (snd (_generate_field_comment create e c w))
       = trace w ++ [Create p 200 o].
Proof.
  unfold _generate_field_comment, request.
  destruct (create _ 200 (api w)) as [o b] eqn:E.
  destruct o as [reply | msg]; cbn [fst snd trace].
  - split; [| eauto].
    destruct (startswith (replace (strip reply) (lit "```") []) (lit "//")) eqn:H;
      cbn [negb]; [exact H | reflexivity].
  - split; [reflexivity | eauto].
Qed.

End Gen.

(** X3: the context shown for an element on line [line] (counted from 0)
    is a run of consecutive lines of the file that starts [before] lines
    above it, has at most [before + after] lines and holds the line of
    the element. *)
Theorem window_bounds (context_lines : list str) (line before after : nat) :
  line < length context_lines -> 1 <= after ->
  exists pre ls post,
    context_lines = pre ++ ls ++ post
    /\ length pre = line - before
    /\ window context_lines line before after = join [NL] ls
    /\ length ls <= before + after
    /\ nth_error ls (Nat.min line before) = nth_error context_lines line.
Proof.
  intros Hline Hafter. unfold window, slice.
  set (start := Nat.max 0 (line - before)).
  set (stop := Nat.min (length context_lines) (line + after)).
  exists (firstn start context_lines),
         (firstn (stop - start) (skipn start context_lines)),
         (skipn (stop - start) (skipn start context_lines)).
  repeat split.
  - rewrite firstn_skipn, firstn_skipn. reflexivity.
  - rewrite length_firstn. unfold start. lia.
  - rewrite length_firstn. unfold start, stop. lia.
  - rewrite nth_error_firstn.
    assert (Hlt : (Nat.min line before <? stop - start) = true).
    { apply Nat.ltb_lt. unfold start, stop. lia. }
    rewrite Hlt. rewrite nth_error_skipn. f_equal. unfold start. lia.
Qed.

(** The window of a class on the twelfth of thirteen lines. *)
Lemma window_bounds_witness :
  exists pre ls post,
    repeat (lit "x") 13 = pre ++ ls ++ post
    /\ length pre = 11 - 10
    /\ window (repeat (lit "x") 13) 11 10 20 = join [NL] ls
    /\ length ls <= 10 + 20
    /\ nth_error ls (Nat.min 11 10) = nth_error (repeat (lit "x") 13) 11.
Proof. apply window_bounds; simpl; lia. Defined.

Lemma slept_app (a b : list event) : slept (a ++ b) = slept a + slept b.
Proof.
  induction a as [| [p m o | t] a IH]; simpl; [reflexivity | exact IH |].
  rewrite IH. lia.
Qed.

Lemma requests_app (a b : list event) :
  requests (a ++ b) = requests a + requests b.
Proof.
  induction a as [| [p m o | t] a IH]; simpl; [reflexivity | | exact IH].
  rewrite IH. reflexivity.
Qed.

Section Cost.
Variable backend : Type.
Variable create : prompt -> nat -> backend -> outcome * backend.

Lemma call_cost (p : prompt) (w : world backend) :
  requests (trace (snd (_call_claude_api create p 0 w)))
  <= requests (trace w) + 5
  /\ slept (trace (snd (_call_claude_api create p 0 w)))
     <= slept (trace w) + 225.
Proof.
  destruct (@retry_run backend create p 4 0 w eq_refl)
    as (failed & final & Hlen & _ & _ & Htr & _).
  rewrite Htr, requests_app, slept_app. cbn [skipn].
  destruct failed as [| o1 [| o2 [| o3 [| o4 [| o5 failed]]]]];
    simpl in Hlen; try lia; simpl; lia.
Qed.

(** A comment costs at most five requests and 225 seconds of waiting. *)
Lemma generate_comment_cost (e : JavaElement) (c : context)
    (w : world backend) :
  requests (trace (snd (generate_comment create e c w)))
  <= requests (trace w) + 5
  /\ slept (trace (snd (generate_comment create e c w)))
     <= slept (trace w) + 225.
Proof.
  unfold generate_comment.
  destruct (is_class_type (type e)).
  { unfold _generate_class_comment.
    pose proof (call_cost
      (ClassPrompt (window (_prepare_context c) (line_number e - 1) 10 20)) w)
      as H.
    destruct (_call_claude_api _ _ _ _) as [[r |] w1]; exact H. }
  destruct (eqb_str (type e) (lit "method")).
  { unfold _generate_method_comment.
    pose proof (call_cost
      (MethodPrompt (window (_prepare_context c) (line_number e - 1) 5 15) e) w)
      as H.
    destruct (_call_claude_api _ _ _ _) as [[r |] w1]; exact H. }
  destruct (eqb_str (type e) (lit "field")).
  { unfold _generate_field_comment, request.
    destruct (create _ 200 (api w)) as [[reply | msg] b];
      cbn [snd trace]; rewrite requests_app, slept_app; simpl; lia. }
  cbn [snd]. lia.
Qed.
End Cost.

(* ================================================================== *)
(** ** The extent of a class *)
(* ================================================================== *)


Lemma class_end_spec (s : str) :
  forall i bc e, class_end s i bc = Some e ->
  exists a rest,
    s = a ++ 125%N :: rest /\ e = i + length a + 1
    /\ (Z.of_nat (count_char 123%N a) - Z.of_nat (count_char 125%N a) + bc
        = 1)%Z.
Proof.
  induction s as [| c s IH]; intros i bc e H; simpl in H; [discriminate |].
  destruct (N.eqb c 123%N) eqn:E1.
  - apply N.eqb_eq in E1. subst c.
    apply IH in H. destruct H as (a & rest & -> & -> & Hc).
    exists (123%N :: a), rest. repeat split.
    + simpl. lia.
    + simpl count_char. lia.
  - destruct (N.eqb c 125%N) eqn:E2.
    + apply N.eqb_eq in E2. subst c.
      destruct (Z.eqb (bc - 1) 0) eqn:E0.
      * apply Z.eqb_eq in E0. injection H as <-.
        exists [], s. repeat split; simpl; lia.
      * apply IH in H. destruct H as (a & rest & -> & -> & Hc).
        exists (125%N :: a), rest. repeat split.
        -- simpl. lia.
        -- simpl count_char. lia.
    + apply IH in H. destruct H as (a & rest & -> & -> & Hc).
      exists (c :: a), rest. repeat split.
      * simpl. lia.
      * simpl count_char. rewrite E1, E2. lia.
Qed.

Lemma count_char_app (c : char) (a b : str) :
  count_char c (a ++ b) = count_char c a + count_char c b.
Proof. induction a as [| x a IH]; simpl; [reflexivity | rewrite IH; lia]. Qed.

Lemma endswith_app (a b : str) : endswith (a ++ b) b = true.
Proof. unfold endswith. rewrite rev_app_distr. apply startswith_app. Qed.

(** The loop stops at the first closing brace that brings the counter
    to zero. *)
Lemma class_end_least (s : str) :
  forall i bc a' rest',
    s = a' ++ 125%N :: rest' ->
    (Z.of_nat (count_char 123%N a') - Z.of_nat (count_char 125%N a') + bc
     = 1)%Z ->
    exists a rest,
      class_end s i bc = Some (i + length a + 1)
      /\ s = a ++ 125%N :: rest
      /\ length a <= length a'.
Proof.
  induction s as [| c s IH]; intros i bc a' rest' Hs Hc.
  - destruct a'; discriminate Hs.
  - destruct a' as [| x a'].
    + injection Hs as Hc0 Hs0. subst c s. simpl in Hc.
      cbn [class_end]. change (N.eqb 125 123)%N with false.
      change (N.eqb 125 125)%N with true. cbv iota zeta.
      replace (Z.eqb (bc - 1) 0) with true
        by (symmetry; apply Z.eqb_eq; lia).
      exists [], rest'. repeat split; [f_equal; simpl; lia | simpl; lia].
    + injection Hs as Hc0 Hs0. subst x s. cbn [class_end].
      cbn [count_char] in Hc.
      destruct (N.eqb c 123%N) eqn:E1.
      * assert (E2 : N.eqb c 125%N = false)
          by (apply N.eqb_eq in E1; subst c; reflexivity).
        rewrite E2 in Hc.
        destruct (IH (S i) (bc + 1)%Z a' rest' eq_refl)
          as (a & rest & He & Hs & Hl); [lia |].
        exists (c :: a), rest. rewrite He. repeat split.
        -- f_equal. simpl. lia.
        -- rewrite Hs. reflexivity.
        -- simpl. lia.
      * destruct (N.eqb c 125%N) eqn:E2.
        -- cbv zeta. rewrite ?E2 in Hc.
           destruct (Z.eqb (bc - 1) 0) eqn:E0.
           ++ apply N.eqb_eq in E2. subst c.
              exists [], (a' ++ 125%N :: rest').
              repeat split; [f_equal; simpl; lia | simpl; lia].
           ++ destruct (IH (S i) (bc - 1)%Z a' rest' eq_refl)
                as (a & rest & He & Hs & Hl); [lia |].
              exists (c :: a), rest. rewrite He. repeat split.
              ** f_equal. simpl. lia.
              ** rewrite Hs. reflexivity.
              ** simpl. lia.
        -- rewrite ?E2 in Hc.
           destruct (IH (S i) bc a' rest' eq_refl)
             as (a & rest & He & Hs & Hl); [lia |].
           exists (c :: a), rest. rewrite He. repeat split.
           ++ f_equal. simpl. lia.
           ++ rewrite Hs. reflexivity.
           ++ simpl. lia.
Qed.

Lemma endswith_inv (p : str) (c : char) :
  endswith p [c] = true -> exists a, p = a ++ [c].
Proof.
  unfold endswith. cbn [rev app]. intros H.
  destruct (rev p) as [| x t] eqn:E; [discriminate |].
  cbn [startswith] in H. rewrite andb_true_r in H.
  apply N.eqb_eq in H. subst x.
  exists (rev t). rewrite <- (rev_involutive p), E. reflexivity.
Qed.

(** X4: what [_extract_full_class_content] returns is a piece of the
    content that starts at [start_pos], holds as many opening as closing
    braces, and, when it is not empty, ends with a closing brace.  It is
    the shortest such piece: when some piece from [start_pos] on is
    closed at a brace the result is not empty and no longer than it, and
    when none is the result is empty. *)
Theorem class_content_balanced (content : str) (start_pos : nat) :
  let r := _extract_full_class_content content start_pos in
  (exists rest, skipn start_pos content = r ++ rest)
  /\ count_char 123%N r = count_char 125%N r
  /\ (r <> [] -> endswith r (lit "}") = true)
  /\ (forall p rest, skipn start_pos content = p ++ rest ->
        closed_at_brace p -> r <> [] /\ length r <= length p)
  /\ ((forall p rest, skipn start_pos content = p ++ rest ->
         ~ closed_at_brace p) -> r = []).
Proof.
  unfold _extract_full_class_content, slice.
  assert (Hleast : forall p rest, skipn start_pos content = p ++ rest ->
            closed_at_brace p ->
            exists a rest0,
              class_end (skipn start_pos content) start_pos 0
              = Some (start_pos + length a + 1)
              /\ skipn start_pos content = a ++ 125%N :: rest0
              /\ length a + 1 <= length p).
  { intros p rest Hp [Hend Hcount].
    apply endswith_inv in Hend. destruct Hend as (a' & ->).
    rewrite !count_char_app in Hcount. simpl in Hcount.
    destruct (@class_end_least (skipn start_pos content) start_pos 0 a' rest)
      as (a & rest0 & He & Hs & Hl).
    - rewrite Hp, <- app_assoc. reflexivity.
    - lia.
    - exists a, rest0. rewrite length_app. simpl. repeat split; auto.
      unfold str, char in *. lia. }
  destruct (class_end (skipn start_pos content) start_pos 0) as [e |] eqn:E.
  - apply class_end_spec in E. destruct E as (a & rest & Hs & -> & Hc).
    rewrite Hs in *.
    replace (start_pos + length a + 1 - start_pos) with (length (a ++ [125%N]))
      by (rewrite length_app; simpl; lia).
    change (a ++ 125%N :: rest) with (a ++ [125%N] ++ rest) in *.
    rewrite app_assoc, firstn_length_app by reflexivity.
    assert (Hclosed : closed_at_brace (a ++ [125%N])).
    { split; [apply (endswith_app a (lit "}")) |].
      rewrite !count_char_app. simpl. lia. }
    split; [exists rest; reflexivity |].
    split; [apply Hclosed |].
    split; [intros _; apply Hclosed |].
    split.
    + intros p rest0 Hp Hcl. split; [destruct a; discriminate |].
      rewrite <- app_assoc in Hp.
      destruct (Hleast p rest0 Hp Hcl) as (a0 & rest1 & He & _ & Hl).
      injection He as He. rewrite length_app. simpl.
      unfold str, char in *. lia.
    + intros Hnone. exfalso.
      apply (Hnone (a ++ [125%N]) rest); [reflexivity | exact Hclosed].
  - rewrite Nat.sub_diag. simpl.
    split; [eexists; reflexivity |].
    split; [reflexivity |].
    split; [intros H; contradiction |].
    split; [| reflexivity].
    intros p rest Hp Hcl.
    destruct (Hleast p rest Hp Hcl) as (a0 & rest1 & He & _).
    discriminate He.
Qed.

Lemma class_end_nested (b : str) :
  nested b ->
  forall s i bc, (1 <= bc)%Z ->
    class_end (b ++ s) i bc = class_end s (i + length b) bc.
Proof.
  induction 1 as [| c b Hc1 Hc2 _ IH | b b' _ IHb _ IHb']; intros s i bc Hbc.
  - simpl. rewrite Nat.add_0_r. reflexivity.
  - simpl.
    apply N.eqb_neq in Hc1, Hc2. rewrite Hc1, Hc2.
    rewrite IH by exact Hbc. f_equal. lia.
  - cbn [app]. rewrite <- app_assoc. cbn [app class_end].
    change (N.eqb 123 123)%N with true. cbv iota.
    rewrite IHb by lia.
    cbn [class_end]. change (N.eqb 125 123)%N with false.
    change (N.eqb 125 125)%N with true. cbv iota zeta.
    replace (bc + 1 - 1)%Z with bc by lia.
    destruct (Z.eqb bc 0) eqn:E0; [apply Z.eqb_eq in E0; lia |].
    rewrite IHb' by exact Hbc. f_equal. simpl. rewrite length_app. simpl. lia.
Qed.

Lemma class_end_plain (pre : str) :
  Forall (fun c => c <> 123%N /\ c <> 125%N) pre ->
  forall s i bc, class_end (pre ++ s) i bc = class_end s (i + length pre) bc.
Proof.
  induction 1 as [| c pre [Hc1 Hc2] _ IH]; intros s i bc.
  - simpl. rewrite Nat.add_0_r. reflexivity.
  - simpl. apply N.eqb_neq in Hc1, Hc2. rewrite Hc1, Hc2.
    rewrite IH. f_equal. lia.
Qed.

Lemma skipn_length_app {A} (l l' : list A) n :
  n = length l -> skipn n (l ++ l') = l'.
Proof.
  intros ->. rewrite skipn_app, Nat.sub_diag, skipn_all. reflexivity.
Qed.

(** X5: from the start of a declaration whose body has well nested
    braces, the content returned runs to the brace that closes the
    body. *)
Theorem class_content_to_matching_brace (before pre body rest : str) :
  Forall (fun c => c <> 123%N /\ c <> 125%N) pre ->
  nested body ->
  _extract_full_class_content
    (before ++ pre ++ lit "{" ++ body ++ lit "}" ++ rest) (length before)
  = pre ++ lit "{" ++ body ++ lit "}".
Proof.
  intros Hpre Hbody. unfold _extract_full_class_content, slice.
  rewrite skipn_length_app by reflexivity.
  rewrite (class_end_plain Hpre).
  change (lit "{" ++ body ++ lit "}" ++ rest)
    with (123%N :: (body ++ 125%N :: rest)).
  cbn [class_end]. change (N.eqb 123 123)%N with true. cbv iota.
  rewrite (class_end_nested Hbody) by lia.
  cbn [class_end]. change (N.eqb 125 123)%N with false.
  change (N.eqb 125 125)%N with true. cbv iota zeta.
  change (Z.eqb (0 + 1 - 1) 0) with true. cbv iota.
  match goal with
  | |- firstn ?n _ = _ =>
      replace n with (length (pre ++ 123%N :: body ++ [125%N]))
  end.
  2:{ rewrite length_app. simpl length. rewrite length_app. simpl length.
      unfold str, char in *. lia. }
  change (pre ++ 123%N :: body ++ 125%N :: rest)
    with (pre ++ (123%N :: body ++ [125%N] ++ rest)).
  replace (pre ++ 123%N :: body ++ [125%N] ++ rest)
    with ((pre ++ 123%N :: body ++ [125%N]) ++ rest).
  2:{ rewrite <- app_assoc. simpl. rewrite <- app_assoc. reflexivity. }
  rewrite firstn_length_app by reflexivity. reflexivity.
Qed.

(** A class with a block in its body, between an import and another
    class. *)
Lemma class_content_to_matching_brace_witness :
  _extract_full_class_content
    ((lit "import a;" ++ [NL]) ++ lit "class A " ++ lit "{" ++ lit "x{y}z"
     ++ lit "}" ++ lit " class B {}")
    (length (lit "import a;" ++ [NL]))
  = lit "class A " ++ lit "{" ++ lit "x{y}z" ++ lit "}".
Proof.
  apply class_content_to_matching_brace.
  - repeat constructor; discriminate.
  - apply nested_char; [discriminate | discriminate |].
    apply (@nested_block (lit "y") (lit "z"));
      repeat (apply nested_char; [discriminate | discriminate |]);
      apply nested_nil.
Defined.

(* ================================================================== *)
(** ** The unused entry point and the scanner *)
(* ================================================================== *)

Lemma finditer_from_names tbl (r : regex) (fuel pos : nat) (s : str) (m : Match) :
  In m (finditer_from tbl fuel r pos s) -> m_names m = group_names r.
Proof.
  revert pos s. induction fuel as [| fuel IH]; intros pos s H; simpl in H;
    [contradiction |].
  destruct (match_at tbl r pos s) as [[e cs] |].
  - destruct H as [<- | H]; [reflexivity |].
    destruct (e <=? pos).
    + destruct s; [contradiction | eapply IH; exact H].
    + eapply IH; exact H.
  - destruct s; [contradiction | eapply IH; exact H].
Qed.

(** X6: [parse_java_file] returns for no file: it raises when the file
    cannot be read, at the first match of the class or the method
    pattern, or else at the pattern of the fields. *)
Theorem parse_java_file_raises tbl (fs : filesystem) (file_path : string) :
  parse_java_file tbl fs file_path = inl FileNotFoundError
  \/ parse_java_file tbl fs file_path = inl ValueError
  \/ parse_java_file tbl fs file_path = inl AttributeError.
Proof.
  unfold parse_java_file.
  destruct (read_file fs file_path) as [content |]; [| left; reflexivity].
  right.
  assert (Hbody : forall r m s, (r = class_pattern \/ r = method_pattern) ->
            In m (finditer tbl r s) -> old_loop_body m = inl ValueError).
  { intros r m s Hr Hm. apply finditer_from_names in Hm.
    unfold old_loop_body, groups. rewrite Hm.
    destruct Hr as [-> | ->]; reflexivity. }
  destruct (finditer tbl class_pattern content) as [| m ms] eqn:E.
  - destruct (finditer tbl method_pattern content) as [| m ms] eqn:E'.
    + right. reflexivity.
    + left. apply (Hbody method_pattern m content); [right; reflexivity |].
      rewrite E'. left. reflexivity.
  - left. apply (Hbody class_pattern m content); [left; reflexivity |].
    rewrite E. left. reflexivity.
Qed.

(** The files the scan returns. *)
Lemma scan_java_files_In (tree : list str) (f : str) :
  In f (scan_java_files tree) <->
  In f tree /\ endswith f (lit ".java") = true /\ ignored f = false.
Proof.
  unfold scan_java_files, JAVA_EXTENSIONS. simpl. rewrite app_nil_r.
  rewrite !filter_In. rewrite negb_true_iff. tauto.
Qed.

Lemma startswith_prefix (f root : str) :
  startswith f root = true -> exists t, f = root ++ t.
Proof.
  revert f. induction root as [| c root IH]; intros f H.
  - exists f. reflexivity.
  - destruct f as [| x f]; simpl in H; [discriminate |].
    apply andb_true_iff in H. destruct H as [Hx H].
    apply N.eqb_eq in Hx. subst x.
    destruct (IH _ H) as (t & ->). exists t. reflexivity.
Qed.

Lemma startswith_app_l (s t sub : str) :
  startswith s sub = true -> startswith (s ++ t) sub = true.
Proof.
  revert s. induction sub as [| c sub IH]; intros s H; [reflexivity |].
  destruct s as [| x s]; simpl in *; [discriminate |].
  apply andb_true_iff in H. destruct H as [-> H]. simpl. apply IH. exact H.
Qed.

Lemma contains_app_l (s t sub : str) :
  contains s sub = true -> contains (s ++ t) sub = true.
Proof.
  induction s as [| x s IH]; simpl; intros H.
  - rewrite orb_false_r in H. apply contains_startswith.
    apply (startswith_app_l [] t sub H).
  - apply orb_true_iff in H. destruct H as [H | H].
    + change (x :: s ++ t) with ((x :: s) ++ t).
      rewrite (startswith_app_l (x :: s) t sub H). reflexivity.
    + rewrite (IH H). apply orb_true_r.
Qed.

(** X7: the ignore patterns are looked for in the whole path, the root of
    the project included: below a root whose path holds one of them the
    scan finds no file. *)
Theorem scan_nothing_below_ignored_root (root : str) (tree : list str) :
  ignored root = true ->
  Forall (fun f => startswith f root = true) tree ->
  scan_java_files tree = [].
Proof.
  intros Hroot Htree.
  destruct (scan_java_files tree) as [| f fs] eqn:E; [reflexivity |].
  assert (Hin : In f (scan_java_files tree)) by (rewrite E; left; reflexivity).
  apply scan_java_files_In in Hin. destruct Hin as (Hf & _ & Hig).
  rewrite Forall_forall in Htree. apply Htree in Hf.
  apply startswith_prefix in Hf. destruct Hf as (t & ->).
  unfold ignored in *. apply existsb_exists in Hroot.
  destruct Hroot as (pat & Hpat & Hc).
  assert (Hx : existsb (fun ignore => contains (root ++ t) ignore) IGNORE_PATTERNS
               = true).
  { apply existsb_exists. exists pat. split; [exact Hpat |].
    apply contains_app_l. exact Hc. }
  congruence.
Qed.

(** A project in a directory named latest. *)
Lemma scan_nothing_below_ignored_root_witness :
  scan_java_files
    [lit "/home/dev/latest/src/Main.java";
     lit "/home/dev/latest/src/util/Strings.java"]
  = [].
Proof.
  apply (@scan_nothing_below_ignored_root (lit "/home/dev/latest")).
  - reflexivity.
  - repeat constructor.
Defined.

(* ================================================================== *)
(** ** The structure of a project *)
(* ================================================================== *)

Section Structure.
Variable package_dir_of : str -> str.


Lemma eqb_str_neq (a b : str) : eqb_str a b = false -> a <> b.
Proof.
  intros H E. apply eqb_str_eq in E. congruence.
Qed.

Lemma add_to_package_keys (d : list (str * list str)) (k f : str) :
  (In k (map fst d) /\ map fst (add_to_package d k f) = map fst d)
  \/ (~ In k (map fst d) /\ map fst (add_to_package d k f) = map fst d ++ [k]).
Proof.
  induction d as [| [k' v] d IH]; simpl.
  - right. split; [tauto | reflexivity].
  - destruct (eqb_str k' k) eqn:E.
    + apply eqb_str_eq in E. subst k'. left. split; [left; reflexivity |].
      reflexivity.
    + apply eqb_str_neq in E. simpl.
      destruct IH as [[Hin ->] | [Hn ->]].
      * left. split; [right; exact Hin | reflexivity].
      * right. split; [intros [H | H]; [congruence | contradiction] |].
        reflexivity.
Qed.

Lemma add_to_package_In (d : list (str * list str)) (k f k' : str)
    (v' : list str) :
  In (k', v') (add_to_package d k f) ->
  In (k', v') d
  \/ (k' = k /\ (v' = [f] \/ exists v, In (k, v) d /\ v' = v ++ [f])).
Proof.
  induction d as [| [k0 v0] d IH]; simpl.
  - intros [H | []]. injection H as <- <-. right. split; [reflexivity |].
    left. reflexivity.
  - destruct (eqb_str k0 k) eqn:E.
    + apply eqb_str_eq in E. subst k0.
      intros [H | H].
      * injection H as <- <-. right. split; [reflexivity |]. right.
        exists v0. split; [left; reflexivity | reflexivity].
      * left. right. exact H.
    + intros [H | H].
      * left. left. exact H.
      * destruct (IH H) as [H' | (-> & [-> | (v & Hv & ->)])].
        -- left. right. exact H'.
        -- right. split; [reflexivity |]. left. reflexivity.
        -- right. split; [reflexivity |]. right. exists v.
           split; [right; exact Hv | reflexivity].
Qed.

Lemma add_to_package_concat (d : list (str * list str)) (k f : str) :
  Permutation (concat (map snd (add_to_package d k f)))
              (concat (map snd d) ++ [f]).
Proof.
  induction d as [| [k0 v0] d IH]; simpl.
  - apply Permutation_refl.
  - destruct (eqb_str k0 k); simpl.
    + rewrite <- !app_assoc. apply Permutation_app_head.
      apply Permutation_app_comm.
    + rewrite <- app_assoc. apply Permutation_app_head. exact IH.
Qed.

Lemma add_to_package_grouped (d : list (str * list str)) (done : list str)
    (f : str) :
  grouped package_dir_of d done ->
  grouped package_dir_of (add_to_package d (package_dir_of f) f) (done ++ [f]).
Proof.
  intros (Hnd & Hpk & Hperm). repeat split.
  - destruct (add_to_package_keys d (package_dir_of f) f) as [[_ ->] | [Hn ->]].
    + exact Hnd.
    + apply NoDup_app; [exact Hnd | repeat constructor; tauto |].
      intros x Hx [<- | []]. contradiction.
  - intros k v g Hin Hg.
    apply add_to_package_In in Hin.
    destruct Hin as [Hin | (-> & [-> | (v0 & Hv0 & ->)])].
    + eapply Hpk; eassumption.
    + destruct Hg as [<- | []]. reflexivity.
    + apply in_app_or in Hg. destruct Hg as [Hg | [<- | []]].
      * eapply Hpk; eassumption.
      * reflexivity.
  - eapply perm_trans; [apply add_to_package_concat |].
    apply Permutation_app_tail. exact Hperm.
Qed.

Lemma fold_grouped (files : list str) :
  forall d done, grouped package_dir_of d done ->
    grouped package_dir_of (fold_left (fun d file_path =>
                          add_to_package d (package_dir_of file_path) file_path)
                       files d)
            (done ++ files).
Proof.
  induction files as [| f files IH]; intros d done H; simpl.
  - rewrite app_nil_r. exact H.
  - replace (done ++ f :: files) with ((done ++ [f]) ++ files)
      by (rewrite <- app_assoc; reflexivity).
    apply IH. apply add_to_package_grouped. exact H.
Qed.

(** X8: the structure of a project groups every scanned file under the
    directory of its package: no package twice, no file under another
    package, the groups together are the files scanned, and
    [total_files] counts them. *)
Theorem project_structure_partition (tree : list str) :
  let st := get_project_structure package_dir_of tree in
  NoDup (map fst (files_by_package st))
  /\ (forall k v f, In (k, v) (files_by_package st) -> In f v ->
        package_dir_of f = k)
  /\ Permutation (concat (map snd (files_by_package st))) (all_files st)
  /\ total_files st = length (concat (map snd (files_by_package st))).
Proof.
  cbv zeta. unfold get_project_structure. cbn [files_by_package all_files total_files].
  destruct (@fold_grouped (scan_java_files tree) [] []) as (H1 & H2 & H3).
  { repeat split; [constructor | intros k v f [] | apply perm_nil]. }
  simpl in H3. repeat split; [exact H1 | exact H2 | exact H3 |].
  symmetry. apply Permutation_length. exact H3.
Qed.
End Structure.

(* ================================================================== *)
(** ** Indentation and insertion *)
(* ================================================================== *)

Lemma lstrip_run (sp s : str) :
  Forall (fun c => isspace c = true) sp -> lstrip (sp ++ s) = lstrip s.
Proof.
  induction 1 as [| c sp Hc _ IH]; simpl; [reflexivity |].
  rewrite Hc. exact IH.
Qed.

Lemma lstrip_fixed (s : str) :
  match s with [] => True | c :: _ => isspace c = false end -> lstrip s = s.
Proof. destruct s as [| c s]; simpl; [reflexivity |]. intros ->. reflexivity. Qed.

(** X9: the indent of a line is the number of white space characters
    before its first other character. *)
Theorem get_indent_leading_space (sp s : str) :
  Forall (fun c => isspace c = true) sp ->
  match s with [] => True | c :: _ => isspace c = false end ->
  _get_indent (sp ++ s) = length sp.
Proof.
  intros Hsp Hs. unfold _get_indent.
  rewrite (lstrip_run s Hsp), (lstrip_fixed s Hs), length_app. lia.
Qed.

(** A line behind a tab and two spaces. *)
Lemma get_indent_leading_space_witness :
  _get_indent ((9%N :: lit "  ") ++ lit "int x;") = length (9%N :: lit "  ").
Proof.
  apply get_indent_leading_space; [repeat constructor | reflexivity].
Defined.

Lemma one_line_no_break (l : str) : one_line l -> forall c, In c l -> is_linebreak c = false.
Proof.
  unfold one_line. intros H c Hc.
  destruct (is_linebreak c) eqn:E; [| reflexivity].
  assert (existsb is_linebreak l = true) by (apply existsb_exists; eauto).
  congruence.
Qed.

Lemma splitlines_last_line (l : str) :
  one_line l -> l <> [] -> splitlines l = [l].
Proof.
  induction l as [| c l IH]; intros Hl Hne; [contradiction |].
  apply one_line_cons in Hl. destruct Hl as [Hc Hl].
  cbn [splitlines]. rewrite Hc.
  destruct l as [| d l]; [reflexivity |].
  rewrite IH by (auto; discriminate). reflexivity.
Qed.

Lemma splitlines_join (ls : list str) :
  Forall one_line ls -> last ls [] <> [] ->
  splitlines (join [NL] ls) = ls.
Proof.
  induction ls as [| l ls IH]; intros Hall Hlast; [reflexivity |].
  inversion Hall as [| ? ? Hl Hls]; subst.
  destruct ls as [| l' ls].
  - simpl in *. apply splitlines_last_line; assumption.
  - change (join [NL] (l :: l' :: ls)) with (l ++ NL :: join [NL] (l' :: ls)).
    rewrite (splitlines_line _ Hl). f_equal. apply IH; [exact Hls | exact Hlast].
Qed.

(** X10: a comment of several lines is indented line by line, and a
    blank line stays as it is. *)
Theorem indent_comment_lines (ls : list str) (indent : str) :
  Forall one_line ls -> last ls [] <> [] ->
  _indent_comment (join [NL] ls) indent
  = join [NL] (map (fun line => if truthy (strip line) then indent ++ line
                                else line) ls).
Proof.
  intros Hall Hlast. unfold _indent_comment.
  rewrite (splitlines_join Hall Hlast). reflexivity.
Qed.

(** A block with a blank line in it. *)
Lemma indent_comment_lines_witness :
  _indent_comment (join [NL] [lit "/**"; []; lit " */"]) (lit "  ")
  = join [NL]
      (map (fun line => if truthy (strip line) then lit "  " ++ line
                        else line)
           [lit "/**"; []; lit " */"]).
Proof.
  apply indent_comment_lines; [repeat constructor | discriminate].
Defined.

Lemma subseq_refl {A} (l : list A) : subseq l l.
Proof. induction l; constructor; assumption. Qed.

Lemma subseq_trans {A} (l1 l2 l3 : list A) :
  subseq l1 l2 -> subseq l2 l3 -> subseq l1 l3.
Proof.
  intros H12 H23. revert l1 H12.
  induction H23 as [| x l2 l3 _ IH | x l2 l3 _ IH]; intros l1 H12.
  - exact H12.
  - inversion H12; subst.
    + apply subseq_keep. apply IH. assumption.
    + apply subseq_skip. apply IH. assumption.
  - apply subseq_skip. apply IH. exact H12.
Qed.

Lemma subseq_insert (lines : list str) (p : nat) (c : str) :
  subseq lines (_insert_comment lines p c).
Proof.
  unfold _insert_comment. revert p.
  induction lines as [| l lines IH]; intros [| p]; simpl.
  - apply subseq_skip. constructor.
  - apply subseq_skip. constructor.
  - apply subseq_skip. apply subseq_refl.
  - apply subseq_keep. apply IH.
Qed.

Lemma insert_comment_length (lines : list str) (p : nat) (c : str) :
  length (_insert_comment lines p c) = S (length lines).
Proof.
  unfold _insert_comment. rewrite length_app. simpl.
  rewrite length_firstn, length_skipn. lia.
Qed.

Section Loop.
Variable backend : Type.
Variable create : prompt -> nat -> backend -> outcome * backend.

Lemma insert_comments_keeps (elements : list JavaElement) :
  forall (content_lines modified_lines out : list str) (w w' : world backend),
    insert_comments create elements content_lines modified_lines w
    = inr (out, w') ->
    length out = length modified_lines + length elements
    /\ subseq modified_lines out.
Proof.
  induction elements as [| e elements IH];
    intros content_lines modified_lines out w w' H; cbn [insert_comments] in H.
  - injection H as <- <-. split; [simpl; lia | apply subseq_refl].
  - destruct (generate_comment create e (LinesContext content_lines) w)
      as [comment w1].
    destruct (nth_error modified_lines (line_number e - 1)) as [line |];
      [| discriminate].
    apply IH in H. destruct H as [Hlen Hsub]. split.
    + rewrite Hlen, insert_comment_length. simpl. lia.
    + eapply subseq_trans; [apply subseq_insert | exact Hsub].
Qed.

Lemma insert_comments_succeeds (elements : list JavaElement) :
  forall (content_lines modified_lines : list str) (w : world backend),
    Forall (fun e => line_number e - 1 < length modified_lines) elements ->
    exists out w',
      insert_comments create elements content_lines modified_lines w
      = inr (out, w').
Proof.
  induction elements as [| e elements IH];
    intros content_lines modified_lines w Hall; cbn [insert_comments].
  - eauto.
  - inversion Hall as [| ? ? He Hrest]; subst.
    destruct (generate_comment create e (LinesContext content_lines) w)
      as [comment w1].
    destruct (nth_error modified_lines (line_number e - 1)) as [line |] eqn:E.
    2:{ apply nth_error_None in E. lia. }
    apply IH. eapply Forall_impl; [| exact Hrest].
    intros x Hx. rewrite insert_comment_length. cbv beta in Hx. lia.
Qed.

(** X11: the comment of one element is put right above the line of the
    element, indented as that line, and the line follows it. *)
Theorem single_comment_above_its_line (e : JavaElement) (lines : list str)
    (w : world backend) :
  1 <= line_number e -> line_number e <= length lines ->
  exists line,
    nth_error lines (line_number e - 1) = Some line
    /\ let (comment, w') := generate_comment create e (LinesContext lines) w in
       let indented :=
         _indent_comment comment (repeat 32%N (_get_indent line)) in
       exists out,
         insert_comments create [e] lines lines w = inr (out, w')
         /\ nth_error out (line_number e - 1) = Some indented
         /\ nth_error out (line_number e) = Some line
         /\ length out = S (length lines).
Proof.
  intros H1 H2.
  destruct (nth_error lines (line_number e - 1)) as [line |] eqn:E.
  2:{ apply nth_error_None in E. lia. }
  exists line. split; [reflexivity |].
  cbn [insert_comments].
  destruct (generate_comment create e (LinesContext lines) w) as [comment w'].
  rewrite E. eexists. split; [reflexivity |]. repeat split.
  - apply insert_comment_at. lia.
  - match goal with
    | |- nth_error (_insert_comment _ _ ?c) _ = _ =>
        pose proof (@insert_comment_after lines (line_number e - 1)
                      (line_number e - 1) c (le_n _) ltac:(lia)) as Hx
    end.
    rewrite E in Hx. rewrite <- Hx. f_equal. lia.
  - apply insert_comment_length.
Qed.
End Loop.

(** A class on the first of two lines, at a backend that refuses. *)
Lemma single_comment_above_its_line_witness :
  exists line,
    nth_error [lit "class Foo {"; lit "}"] (line_number (class_Foo 1) - 1)
    = Some line
    /\ let (comment, w') :=
         generate_comment refusing (class_Foo 1)
           (LinesContext [lit "class Foo {"; lit "}"]) idle in
       let indented :=
         _indent_comment comment (repeat 32%N (_get_indent line)) in
       exists out,
         insert_comments refusing [class_Foo 1]
           [lit "class Foo {"; lit "}"] [lit "class Foo {"; lit "}"] idle
         = inr (out, w')
         /\ nth_error out (line_number (class_Foo 1) - 1) = Some indented
         /\ nth_error out (line_number (class_Foo 1)) = Some line
         /\ length out = S (length [lit "class Foo {"; lit "}"]).
Proof.
  apply (@single_comment_above_its_line unit refusing (class_Foo 1)
           [lit "class Foo {"; lit "}"] idle); simpl; lia.
Defined.

(* ================================================================== *)
(** ** The pipeline on one text *)
(* ================================================================== *)

Lemma splitlines_nonempty (s : str) : s <> [] -> splitlines s <> [].
Proof.
  destruct s as [| c s]; [contradiction |]. intros _. cbn [splitlines].
  destruct (is_linebreak c).
  - destruct s as [| d s]; [discriminate |].
    destruct (N.eqb c CR && N.eqb d NL); discriminate.
  - destruct (splitlines s); discriminate.
Qed.

Lemma count_lines_bound (n : nat) :
  forall (s : str) (p : nat),
    length s <= n -> p < length s ->
    count_char NL (firstn p s) < length (splitlines s).
Proof.
  unfold str, char.
  induction n as [| n IH]; intros s p Hn Hp; [lia |].
  destruct s as [| c s]; [simpl in Hp; lia |].
  destruct p as [| p].
  - simpl firstn. simpl count_char.
    pose proof (@splitlines_nonempty (c :: s)) as H.
    destruct (splitlines (c :: s)); [exfalso; apply H; [discriminate | reflexivity] |].
    simpl. lia.
  - simpl in Hn, Hp. assert (Hp' : p < length s) by lia.
    cbn [firstn count_char splitlines].
    destruct (is_linebreak c) eqn:Hc.
    + destruct s as [| d s]; [simpl in Hp'; lia |].
      destruct (N.eqb c CR && N.eqb d NL) eqn:Hcr.
      * apply andb_true_iff in Hcr. destruct Hcr as [Hc1 Hd].
        apply N.eqb_eq in Hc1, Hd. subst c d.
        change (N.eqb CR NL) with false. cbv iota.
        destruct p as [| p]; [simpl; lia |].
        cbn [firstn count_char]. change (N.eqb NL NL) with true. cbv iota.
        simpl in Hp', Hn.
        assert (H := IH s p ltac:(lia) ltac:(lia)).
        cbn [length]. unfold str, char in *. lia.
      * assert (H := IH (d :: s) p ltac:(simpl; simpl in Hn; lia) Hp').
        cbn [length]. unfold str, char in *. destruct (N.eqb c NL); lia.
    + assert (Hnl : N.eqb c NL = false).
      { destruct (N.eqb c NL) eqn:E; [| reflexivity].
        apply N.eqb_eq in E. subst c. discriminate Hc. }
      rewrite Hnl.
      assert (H := IH s p ltac:(lia) Hp').
      destruct (splitlines s) as [| l ls]; [simpl in H; lia |].
      cbn [length] in *. unfold str, char in *. lia.
Qed.

Section Bounds.
Variable tbl : char -> bool.

Lemma finditer_from_start (r : regex) :
  (forall pos, match_at tbl r pos [] = None) ->
  forall fuel pos s m,
    In m (finditer_from tbl fuel r pos s) ->
    pos <= m_start m /\ m_start m < pos + length s.
Proof.
  intros Hr. induction fuel as [| fuel IH]; intros pos s m H; simpl in H;
    [contradiction |].
  destruct (match_at tbl r pos s) as [[e cs] |] eqn:E.
  - assert (Hs : s <> []) by (intros ->; rewrite Hr in E; discriminate).
    destruct H as [<- | H].
    + simpl. destruct s; [contradiction | simpl; lia].
    + destruct (e <=? pos) eqn:Hle.
      * destruct s as [| c s]; [contradiction |].
        apply IH in H. simpl. lia.
      * apply Nat.leb_gt in Hle. apply IH in H.
        rewrite length_skipn in H. lia.
  - destruct s as [| c s]; [contradiction |].
    apply IH in H. simpl. lia.
Qed.

Lemma class_pattern_needs_input (pos : nat) :
  match_at tbl class_pattern pos [] = None.
Proof. reflexivity. Qed.

(** The line of an element is a line of the text. *)
Lemma parse_line_bound (content : str) (e : JavaElement) :
  In e (parse tbl content) ->
  1 <= line_number e /\ line_number e <= length (splitlines content).
Proof.
  intros H. apply parse_In in H. destruct H as [(m & Hm & H) | (m & _ & H)].
  - apply class_element_inv in H. destruct H as [_ ->].
    unfold class_of_match, line_of. cbn [line_number].
    apply (@finditer_from_start class_pattern class_pattern_needs_input) in Hm.
    pose proof (@count_lines_bound (length content) content (m_start m)
                  (le_n _) ltac:(lia)) as Hc.
    lia.
  - unfold method_element in H. rewrite extract_method_info_none in H.
    destruct H.
Qed.
End Bounds.

Section Total.
Variable tbl : char -> bool.
Variable backend : Type.
Variable create : prompt -> nat -> backend -> outcome * backend.

(** The loop of the pipeline runs to its end on the elements of
    [parse]. *)
Lemma process_text_runs (content : str) (w : world backend) :
  exists out w',
    insert_comments create (parse tbl content) (splitlines content)
      (splitlines content) w = inr (out, w')
    /\ process_text tbl create content w = inr (join [NL] out, w').
Proof.
  destruct (@insert_comments_succeeds backend create (parse tbl content)
              (splitlines content) (splitlines content) w) as (out & w' & H).
  { apply Forall_forall. intros e He.
    apply parse_line_bound in He. cbv beta. lia. }
  exists out, w'. split; [exact H |].
  unfold process_text. rewrite H. reflexivity.
Qed.

(** X12: the pipeline raises on no text.  What it writes is the lines of
    the text, in their order, with one item added for each element. *)
Theorem process_text_keeps_lines (content : str) (w : world backend) :
  exists out w',
    process_text tbl create content w = inr (join [NL] out, w')
    /\ length out = length (splitlines content) + length (parse tbl content)
    /\ subseq (splitlines content) out.
Proof.
  destruct (process_text_runs content w) as (out & w' & H & Hp).
  exists out, w'. split; [exact Hp |].
  apply insert_comments_keeps in H. exact H.
Qed.
End Total.

(* ================================================================== *)
(** ** The matcher takes strings of the pattern *)
(* ================================================================== *)


Section Sound.
Variable tbl : char -> bool.

Lemma star_loop_sound (g : bool) (r : regex) :
  (forall pos s cs k x, rmatch tbl r pos s cs k = Some x ->
     exists a s' cs', s = a ++ s' /\ lang tbl r a
                      /\ k (pos + length a) s' cs' = Some x) ->
  forall fuel pos s cs k x,
    star_loop (rmatch tbl r) g fuel pos s cs k = Some x ->
    exists a s' cs', s = a ++ s' /\ lang tbl (Star g r) a
                     /\ k (pos + length a) s' cs' = Some x.
Proof.
  intros Hbody. induction fuel as [| fuel IH]; intros pos s cs k x H;
    simpl in H.
  - exists [], s, cs. rewrite Nat.add_0_r. repeat split; [constructor | exact H].
  - assert (Hagain : forall y,
      rmatch tbl r pos s cs
        (fun pos' s' cs' =>
           if pos <? pos' then star_loop (rmatch tbl r) g fuel pos' s' cs' k
           else None) = Some y ->
      exists a s' cs', s = a ++ s' /\ lang tbl (Star g r) a
                       /\ k (pos + length a) s' cs' = Some y).
    { intros y Hy. apply Hbody in Hy.
      destruct Hy as (a1 & s1 & c1 & -> & Ha1 & Hy).
      destruct (pos <? pos + length a1) eqn:Hlt; [| discriminate].
      apply Nat.ltb_lt in Hlt.
      apply IH in Hy. destruct Hy as (a2 & s2 & c2 & -> & Ha2 & Hy).
      exists (a1 ++ a2), s2, c2. repeat split.
      - rewrite app_assoc. reflexivity.
      - apply lang_star_cons; [| exact Ha1 | exact Ha2].
        intros ->. simpl in Hlt. lia.
      - rewrite length_app, Nat.add_assoc. exact Hy. }
    assert (Hskip : forall y, k pos s cs = Some y ->
      exists a s' cs', s = a ++ s' /\ lang tbl (Star g r) a
                       /\ k (pos + length a) s' cs' = Some y).
    { intros y Hy. exists [], s, cs. rewrite Nat.add_0_r.
      repeat split; [constructor | exact Hy]. }
    destruct g.
    + destruct (rmatch tbl r pos s cs _) as [y |] eqn:E.
      * injection H as ->. apply Hagain. reflexivity.
      * apply Hskip. exact H.
    + destruct (k pos s cs) as [y |] eqn:E.
      * injection H as ->. apply Hskip. reflexivity.
      * apply Hagain. exact H.
Qed.

(** What the matcher takes is a string of the pattern. *)
Lemma rmatch_sound (r : regex) :
  bol_free r = true ->
  forall pos s cs k x, rmatch tbl r pos s cs k = Some x ->
    exists a s' cs', s = a ++ s' /\ lang tbl r a
                     /\ k (pos + length a) s' cs' = Some x.
Proof.
  induction r as [| | c | r1 IH1 r2 IH2 | r1 IH1 r2 IH2 | g r IH | name r IH];
    intros Hb pos s cs k x H; simpl in Hb.
  - exists [], s, cs. rewrite Nat.add_0_r. repeat split; [constructor | exact H].
  - discriminate.
  - simpl in H. destruct s as [| a s]; [discriminate |].
    destruct (in_cset tbl c a) eqn:E; [| discriminate].
    exists [a], s, cs. repeat split; [constructor; exact E |].
    simpl. rewrite Nat.add_1_r. exact H.
  - apply andb_true_iff in Hb. destruct Hb as [Hb1 Hb2]. simpl in H.
    apply (IH1 Hb1) in H. destruct H as (a1 & s1 & c1 & -> & Ha1 & H).
    apply (IH2 Hb2) in H. destruct H as (a2 & s2 & c2 & -> & Ha2 & H).
    exists (a1 ++ a2), s2, c2. repeat split.
    + rewrite app_assoc. reflexivity.
    + constructor; assumption.
    + rewrite length_app, Nat.add_assoc. exact H.
  - apply andb_true_iff in Hb. destruct Hb as [Hb1 Hb2]. simpl in H.
    destruct (rmatch tbl r1 pos s cs k) as [y |] eqn:E.
    + injection H as ->. apply (IH1 Hb1) in E.
      destruct E as (a & s' & c' & -> & Ha & E).
      exists a, s', c'. repeat split; [apply lang_alt_l; exact Ha | exact E].
    + apply (IH2 Hb2) in H. destruct H as (a & s' & c' & -> & Ha & H).
      exists a, s', c'. repeat split; [apply lang_alt_r; exact Ha | exact H].
  - simpl in H. revert H. apply star_loop_sound. apply IH. exact Hb.
  - simpl in H. apply (IH Hb) in H. destruct H as (a & s' & c' & -> & Ha & H).
    exists a, s', ((name, firstn (pos + length a - pos) (a ++ s')) :: c').
    repeat split; [apply lang_group; exact Ha | exact H].
Qed.

(** A match found by [finditer] is a string of the pattern, at its place
    in the text. *)
Lemma finditer_from_sound (r : regex) :
  bol_free r = true ->
  forall fuel pos s m,
    In m (finditer_from tbl fuel r pos s) ->
    exists pre post, s = pre ++ m_text m ++ post
                     /\ m_start m = pos + length pre
                     /\ lang tbl r (m_text m).
Proof.
  intros Hb. induction fuel as [| fuel IH]; intros pos s m H; simpl in H;
    [contradiction |].
  assert (Hnext : forall c s', s = c :: s' ->
            In m (finditer_from tbl fuel r (S pos) s') ->
            exists pre post, s = pre ++ m_text m ++ post
                             /\ m_start m = pos + length pre
                             /\ lang tbl r (m_text m)).
  { intros c s' -> Hm. apply IH in Hm.
    destruct Hm as (pre & post & -> & Hst & Hl).
    exists (c :: pre), post. repeat split; [| exact Hl].
    rewrite Hst. simpl. lia. }
  destruct (match_at tbl r pos s) as [[e cs] |] eqn:E.
  - unfold match_at in E. apply (rmatch_sound r Hb) in E.
    destruct E as (a & s' & c' & -> & Ha & E). injection E as <- <-.
    replace (pos + length a - pos) with (length a) in H by lia.
    rewrite firstn_length_app in H by reflexivity.
    destruct H as [<- | H].
    + exists [], s'. simpl. rewrite Nat.add_0_r. repeat split. exact Ha.
    + destruct (pos + length a <=? pos) eqn:Hle.
      * destruct (a ++ s') as [| c t] eqn:Et; [contradiction |].
        apply (Hnext c t eq_refl H).
      * rewrite skipn_app, Nat.sub_diag, skipn_all in H. simpl in H.
        apply IH in H. destruct H as (pre & post & -> & Hst & Hl).
        exists (a ++ pre), post. repeat split; [| | exact Hl].
        -- rewrite <- app_assoc. reflexivity.
        -- rewrite Hst, length_app. lia.
  - destruct s as [| c s']; [contradiction |].
    apply (Hnext c s' eq_refl H).
Qed.

Lemma lang_chars_inv (l a : str) : lang tbl (chars l) a -> a = l.
Proof.
  revert a. induction l as [| c l IH]; intros a H.
  - simpl in H. inversion H. reflexivity.
  - destruct l as [| c' l].
    + simpl in H. inversion H as [| ? x Hx | | | | | |]; subst.
      simpl in Hx. apply N.eqb_eq in Hx. subst. reflexivity.
    + change (chars (c :: c' :: l)) with (Seq (One (CChar c)) (chars (c' :: l))) in H.
      inversion H as [| | ? ? a1 a2 H1 H2 | | | | |]; subst.
      apply IH in H2. subst a2.
      inversion H1 as [| ? x Hx | | | | | |]; subst.
      simpl in Hx. apply N.eqb_eq in Hx. subst. reflexivity.
Qed.

Lemma contains_app_r (pre s sub : str) :
  contains s sub = true -> contains (pre ++ s) sub = true.
Proof.
  intros H. induction pre as [| c pre IH]; simpl; [exact H |].
  rewrite IH. apply orb_true_r.
Qed.

Lemma class_pattern_text (a : str) :
  lang tbl class_pattern a ->
  contains a (lit "class") = true /\ endswith a (lit "{") = true.
Proof.
  unfold class_pattern, class_declaration_re, class_head_re. intros H.
  inversion H as [| | ? ? a1 b1 _ H1 | | | | |]; subst. clear H.
  inversion H1 as [| | ? ? a2 b2 _ H2 | | | | |]; subst. clear H1.
  inversion H2 as [| | ? ? a3 b3 _ H3 | | | | |]; subst. clear H2.
  inversion H3 as [| | ? ? a4 b4 H4 H5 | | | | |]; subst. clear H3.
  apply lang_chars_inv in H4. subst a4.
  split.
  - rewrite !app_assoc. rewrite <- (app_assoc _ (lit "class") b4).
    apply contains_app.
  - inversion H5 as [| | ? ? a5 b5 _ H6 | | | | |]; subst. clear H5.
    inversion H6 as [| | ? ? a6 b6 _ H7 | | | | |]; subst. clear H6.
    inversion H7 as [| | ? ? a7 b7 _ H8 | | | | |]; subst. clear H7.
    inversion H8 as [| | ? ? a8 b8 _ H9 | | | | |]; subst. clear H8.
    inversion H9 as [| | ? ? a9 b9 _ H10 | | | | |]; subst. clear H9.
    apply lang_chars_inv in H10. subst b9.
    rewrite !app_assoc. apply endswith_app.
Qed.
End Sound.

(* ================================================================== *)
(** ** The elements in the text, and a list of files *)
(* ================================================================== *)

Section Shape.
Variable tbl : char -> bool.

Lemma class_pattern_bol_free : bol_free class_pattern = true.
Proof. reflexivity. Qed.

Lemma class_match_in_text (content : str) (m : Match) :
  In m (finditer tbl class_pattern content) ->
  exists pre post, content = pre ++ m_text m ++ post
                   /\ m_start m = length pre
                   /\ lang tbl class_pattern (m_text m).
Proof.
  intros H. unfold finditer in H.
  apply (finditer_from_sound tbl class_pattern class_pattern_bol_free) in H.
  exact H.
Qed.

(** X13: the content of an element is a piece of the text that holds the
    keyword class and ends with an opening brace; the line of the
    element is the line where the piece starts, a line of the text. *)
Theorem element_in_text (source : str) (e : JavaElement) :
  In e (parse tbl source) ->
  exists pre post,
    source = pre ++ content e ++ post
    /\ line_number e = count_char NL pre + 1
    /\ line_number e <= length (splitlines source)
    /\ contains (content e) (lit "class") = true
    /\ endswith (content e) (lit "{") = true.
Proof.
  intros H. pose proof (parse_line_bound tbl source e H) as [_ Hb].
  apply parse_In in H. destruct H as [(m & Hm & H) | (m & _ & H)].
  - apply class_element_inv in H. destruct H as [_ ->].
    apply class_match_in_text in Hm.
    destruct Hm as (pre & post & Hc & Hs & Hl).
    exists pre, post. unfold class_of_match, line_of in *.
    cbn [content line_number] in *.
    apply class_pattern_text in Hl. destruct Hl as [Hk Hbr].
    repeat split; try assumption.
    rewrite Hs. rewrite Hc at 1. rewrite firstn_length_app by reflexivity.
    reflexivity.
  - unfold method_element in H. rewrite extract_method_info_none in H.
    destruct H.
Qed.

(** A text without the keyword has no element. *)
Lemma parse_without_class (content : str) :
  contains content (lit "class") = false -> parse tbl content = [].
Proof.
  intros H. unfold parse.
  destruct (finditer tbl class_pattern content) as [| m l] eqn:E.
  - simpl. replace (flat_map _ _) with (@nil JavaElement); [reflexivity |].
    symmetry. induction (finditer tbl method_pattern content) as [| m l IH];
      [reflexivity |].
    simpl. rewrite <- IH. unfold method_element.
    rewrite extract_method_info_none. reflexivity.
  - assert (Hm : In m (finditer tbl class_pattern content))
      by (rewrite E; left; reflexivity).
    apply class_match_in_text in Hm.
    destruct Hm as (pre & post & Hc & _ & Hl).
    apply class_pattern_text in Hl. destruct Hl as [Hk _].
    rewrite Hc in H. rewrite contains_app_r in H; [discriminate |].
    apply contains_app_l. exact Hk.
Qed.
End Shape.

(** C4, at the inputs where the code departs from it: the pattern of the
    declarations has the keyword class and no other.  A text that does
    not hold the word class yields no element, so an interface or an
    enum is not returned, although [generate_comment] takes the types
    interface and enum as it takes class. *)
Theorem interface_and_enum_not_recognized :
  (forall alnum_high text,
      contains text (lit "class") = false -> parse alnum_high text = [])
  /\ parse alnum_sample interface_java = []
  /\ parse alnum_sample enum_java = []
  /\ is_class_type (lit "interface") = true
  /\ is_class_type (lit "enum") = true.
Proof.
  split.
  - intros alnum_high text H. apply parse_without_class. exact H.
  - vm_compute. repeat split.
Qed.

(** The class of a text of three lines. *)
Lemma element_in_text_witness :
  exists pre post,
    foo_bar_java = pre ++ content (class_Foo 1) ++ post
    /\ line_number (class_Foo 1) = count_char NL pre + 1
    /\ line_number (class_Foo 1) <= length (splitlines foo_bar_java)
    /\ contains (content (class_Foo 1)) (lit "class") = true
    /\ endswith (content (class_Foo 1)) (lit "{") = true.
Proof.
  apply (@element_in_text alnum_sample foo_bar_java (class_Foo 1)).
  vm_compute. left. reflexivity.
Defined.

Section Files.
Variable tbl : char -> bool.
Variable backend : Type.
Variable create : prompt -> nat -> backend -> outcome * backend.

(** X14: a text that does not hold the keyword class has no element,
    costs no request, and is written as its lines joined by line
    feeds. *)
Theorem text_without_class_untouched (content : str) (w : world backend) :
  contains content (lit "class") = false ->
  parse tbl content = []
  /\ process_text tbl create content w
     = inr (join [NL] (splitlines content), w).
Proof.
  intros H. apply (parse_without_class tbl) in H. split; [exact H |].
  unfold process_text. rewrite H. reflexivity.
Qed.


Lemma process_java_file_result (p : string) (fs : filesystem)
    (w : world backend) :
  match files fs p with
  | None => process_java_file tbl create p fs w = inl FileNotFoundError
  | Some data =>
      exists text w',
        process_text tbl create (universal_newlines data) w = inr (text, w')
        /\ process_java_file tbl create p fs w
           = inr (write_file fs p text, w')
  end.
Proof.
  unfold process_java_file, read_file.
  destruct (files fs p) as [data |]; [| reflexivity].
  destruct (process_text_runs tbl create (universal_newlines data) w)
    as (out & w' & _ & Hp).
  exists (join [NL] out), w'. rewrite Hp. split; reflexivity.
Qed.

Lemma readable_write (fs : filesystem) (p q : string) (text : str) :
  readable fs p = true ->
  readable (write_file fs p text) q = readable fs q.
Proof.
  unfold readable, write_file. cbn [files]. intros H.
  destruct (String.eqb q p) eqn:E; [| reflexivity].
  apply String.eqb_eq in E. subst q. symmetry. exact H.
Qed.

(** X15: of a list of files, the ones that can be read are written, in
    the order of the list and one write for each place in it; a file
    that cannot be read stops nothing, and no file appears or
    disappears. *)
Theorem process_java_files_writes (java_files : list string)
    (fs : filesystem) (w : world backend) :
  let fs' := fst (process_java_files tbl create java_files fs w) in
  map fst (written fs')
  = map fst (written fs) ++ filter (readable fs) java_files
  /\ forall q, readable fs' q = readable fs q.
Proof.
  revert fs w. induction java_files as [| p rest IH]; intros fs w.
  - simpl. rewrite app_nil_r. split; reflexivity.
  - cbn [process_java_files filter].
    pose proof (process_java_file_result p fs w) as Hp.
    unfold readable at 1.
    destruct (files fs p) as [data |] eqn:Ef.
    + destruct Hp as (text & w' & _ & ->).
      specialize (IH (write_file fs p text) w').
      cbv zeta in IH. destruct IH as [IH1 IH2].
      assert (Hr : readable fs p = true) by (unfold readable; rewrite Ef; reflexivity).
      split.
      * rewrite IH1. cbn [write_file written]. rewrite map_app. cbn [map fst].
        rewrite <- app_assoc. cbn [app]. do 2 f_equal.
        apply filter_ext. intros q. apply readable_write. exact Hr.
      * intros q. rewrite IH2. apply readable_write. exact Hr.
    + rewrite Hp. apply IH.
Qed.
End Files.

(** An interface, at a backend that is not asked. *)
Lemma text_without_class_untouched_witness :
  parse alnum_sample (lit "interface A {}") = []
  /\ process_text alnum_sample silent (lit "interface A {}") idle
     = inr (join [NL] (splitlines (lit "interface A {}")), idle).
Proof. apply text_without_class_untouched. reflexivity. Defined.

Lemma split_on_app (c : char) (a b : str) :
  split_on c (a ++ c :: b) = split_on c a ++ split_on c b.
Proof.
  induction a as [| x a IH].
  - simpl. rewrite N.eqb_refl. reflexivity.
  - simpl. destruct (N.eqb x c) eqn:E.
    + rewrite IH. reflexivity.
    + rewrite IH. destruct (split_on c a) as [| l ls] eqn:Es.
      * pose proof (split_on_length c a) as Hl. rewrite Es in Hl. simpl in Hl. lia.
      * reflexivity.
Qed.

Lemma collect_stops (code : str) (l1 l2 acc : list str) :
  code_line code = true ->
  collect_comment_lines (l1 ++ code :: l2) acc = collect_comment_lines l1 acc.
Proof.
  intros Hc. revert acc. induction l1 as [| l l1 IH]; intros acc.
  - cbn [app collect_comment_lines]. unfold code_line in Hc.
    destruct (startswith (strip code) (lit "/**")); [discriminate |].
    destruct (startswith (strip code) (lit "*")); [discriminate |].
    destruct (endswith (strip code) (lit "*/")); [discriminate |].
    destruct (startswith (strip code) (lit "//")); [discriminate |].
    destruct (eqb_str (strip code) []); [discriminate |].
    reflexivity.
  - cbn [app collect_comment_lines]. rewrite !IH. reflexivity.
Qed.

(* ================================================================== *)
(** ** Comments and braces before a position *)
(* ================================================================== *)

(** X16: the search for an existing comment stops at the nearest line of
    code above the position: what lies before that line has no part in
    the result. *)
Theorem existing_comment_stops_at_code (before code after rest : str) :
  no_NL code -> code_line code = true ->
  _extract_existing_comment
    ((before ++ NL :: code ++ NL :: after) ++ rest)
    (length (before ++ NL :: code ++ NL :: after))
  = _extract_existing_comment (after ++ rest) (length after).
Proof.
  intros Hn Hc. unfold _extract_existing_comment.
  rewrite !firstn_length_app by reflexivity.
  rewrite split_on_app.
  rewrite (@split_on_line code after Hn).
  rewrite rev_app_distr. cbn [rev]. rewrite <- !app_assoc. cbn [app].
  rewrite collect_stops by exact Hc.
  reflexivity.
Qed.

(** A line comment behind a declaration that has an older comment above
    it. *)
Lemma existing_comment_stops_at_code_witness :
  _extract_existing_comment
    ((lit "// old" ++ NL :: lit "int y;" ++ NL :: lit "// doc" ++ [NL])
     ++ lit "int z;")
    (length (lit "// old" ++ NL :: lit "int y;" ++ NL :: lit "// doc" ++ [NL]))
  = _extract_existing_comment ((lit "// doc" ++ [NL]) ++ lit "int z;")
      (length (lit "// doc" ++ [NL])).
Proof.
  apply (@existing_comment_stops_at_code (lit "// old") (lit "int y;")
           (lit "// doc" ++ [NL]) (lit "int z;")).
  - repeat constructor; discriminate.
  - reflexivity.
Defined.

Lemma nested_balanced (b : str) :
  nested b -> count_char 123%N b = count_char 125%N b.
Proof.
  induction 1 as [| c b Ho Hc Hb IH | b b' Hb IH Hb' IH'].
  - reflexivity.
  - simpl. destruct (N.eqb c 123) eqn:E1.
    { apply N.eqb_eq in E1. contradiction. }
    destruct (N.eqb c 125) eqn:E2.
    { apply N.eqb_eq in E2. contradiction. }
    exact IH.
  - change (123%N :: b ++ 125%N :: b')
      with ([123%N] ++ b ++ [125%N] ++ b').
    rewrite !count_char_app. cbn. lia.
Qed.

(** X17: a block with well nested braces changes nothing for
    [_is_inside_method]: the position after the block is inside when the
    position before it is. *)
Theorem inside_method_skips_block (pre block rest : str) :
  nested block ->
  _is_inside_method ((pre ++ block) ++ rest) (length (pre ++ block))
  = _is_inside_method (pre ++ block ++ rest) (length pre).
Proof.
  intros Hb. unfold _is_inside_method.
  rewrite !firstn_length_app by reflexivity.
  rewrite !count_char_app, (nested_balanced Hb).
  destruct (count_char 125%N pre <? count_char 123%N pre) eqn:E.
  - apply Nat.ltb_lt in E. apply Nat.ltb_lt. lia.
  - apply Nat.ltb_ge in E. apply Nat.ltb_ge. lia.
Qed.

(** A method with an empty body, in a class. *)
Lemma inside_method_skips_block_witness :
  _is_inside_method ((lit "class A {" ++ lit "void f() {} ") ++ lit "int x; }")
    (length (lit "class A {" ++ lit "void f() {} "))
  = _is_inside_method (lit "class A {" ++ lit "void f() {} " ++ lit "int x; }")
      (length (lit "class A {")).
Proof.
  apply inside_method_skips_block.
  repeat (apply nested_char; [discriminate | discriminate |]).
  apply (@nested_block [] (lit " ")); [apply nested_nil |].
  apply nested_char; [discriminate | discriminate | apply nested_nil].
Defined.

(* ================================================================== *)
(** ** The parameters of a signature *)
(* ================================================================== *)

Lemma split_on_single (sep : char) (s : str) :
  Forall (fun c => c <> sep) s -> split_on sep s = [s].
Proof.
  induction 1 as [| c s Hc _ IH]; simpl; [reflexivity |].
  apply N.eqb_neq in Hc. rewrite Hc, IH. reflexivity.
Qed.

Lemma split_by_single (p : char -> bool) (s : str) :
  Forall (fun c => p c = false) s -> split_by p s = [s].
Proof.
  induction 1 as [| c s Hc _ IH]; simpl; [reflexivity |].
  rewrite Hc, IH. reflexivity.
Qed.

Lemma split_by_app (p : char -> bool) (a : str) (c : char) (b : str) :
  Forall (fun c => p c = false) a -> p c = true ->
  split_by p (a ++ c :: b) = a :: split_by p b.
Proof.
  intros Ha Hc. induction Ha as [| x a Hx _ IH]; simpl.
  - rewrite Hc. reflexivity.
  - rewrite Hx, IH. reflexivity.
Qed.

Lemma lstrip_exists (s : str) :
  Exists (fun c => isspace c = false) s ->
  Exists (fun c => isspace c = false) (lstrip s).
Proof.
  induction s as [| c s IH]; intros H; simpl; [exact H |].
  destruct (isspace c) eqn:E; [| exact H].
  apply IH. inversion H as [? ? Hc | ? ? Hs]; subst; [congruence | exact Hs].
Qed.

Lemma strip_exists (s : str) :
  Exists (fun c => isspace c = false) s -> truthy (strip s) = true.
Proof.
  intros H. unfold strip, rstrip.
  assert (H' : Exists (fun c => isspace c = false) (lstrip (rev (lstrip (rev s))))).
  { apply lstrip_exists. apply Exists_rev. apply lstrip_exists.
    apply Exists_rev. exact H. }
  destruct (lstrip (rev (lstrip (rev s)))); [inversion H' | reflexivity].
Qed.

Lemma token_nonspace (t : str) :
  token t -> Forall (fun c => isspace c = false) t.
Proof.
  intros [_ H]. eapply Forall_impl; [| exact H]. intros c [Hc _]. exact Hc.
Qed.

Lemma token_no_comma (t : str) : token t -> Forall (fun c => c <> 44%N) t.
Proof.
  intros [_ H]. eapply Forall_impl; [| exact H]. intros c (_ & Hc & _). exact Hc.
Qed.

Lemma lstrip_token (t s : str) : token t -> lstrip (t ++ s) = t ++ s.
Proof.
  intros [Hne H]. destruct t as [| c t]; [contradiction |].
  inversion H as [| ? ? [Hc _] _]; subst. simpl. rewrite Hc. reflexivity.
Qed.

(** A parameter written as type, space, name is stripped to itself,
    also after white space. *)
Lemma strip_parameter (sp t n : str) :
  Forall (fun c => isspace c = true) sp -> token t -> token n ->
  strip (sp ++ t ++ 32%N :: n) = t ++ 32%N :: n.
Proof.
  intros Hsp Ht Hn. unfold strip, rstrip.
  assert (Hrev : rev (sp ++ t ++ 32%N :: n)
                 = rev n ++ 32%N :: rev t ++ rev sp).
  { rewrite !rev_app_distr. cbn [rev]. rewrite <- !app_assoc. reflexivity. }
  assert (Hrn : token (rev n)).
  { destruct Hn as [Hne Hn]. split.
    - intros E. apply Hne. rewrite <- (rev_involutive n), E. reflexivity.
    - apply Forall_rev. exact Hn. }
  rewrite Hrev, (@lstrip_token (rev n) _ Hrn), <- Hrev, rev_involutive.
  rewrite (@lstrip_run sp _ Hsp). apply lstrip_token. exact Ht.
Qed.

Lemma parse_parameter_plain (t n : str) :
  token t -> token n -> parse_parameter (t ++ 32%N :: n) = [(t, n)].
Proof.
  intros Ht Hn. unfold parse_parameter, split_ws.
  pose proof (@split_by_app isspace t 32%N n (token_nonspace Ht) eq_refl)
    as E1.
  pose proof (@split_by_single isspace n (token_nonspace Hn)) as E2.
  unfold str, char in *. rewrite E1, E2.
  destruct Ht as [Ht _], Hn as [Hn _].
  destruct t as [| a t]; [contradiction |].
  destruct n as [| b n]; [contradiction |].
  cbn. reflexivity.
Qed.


Lemma split_parameters (params : list (str * str)) (sp : str) :
  params <> [] ->
  Forall (fun tn => token (fst tn) /\ token (snd tn)) params ->
  Forall (fun c => isspace c = true /\ c <> 44%N) sp ->
  flat_map parse_parameter
    (map strip (split_on 44%N (sp ++ render_parameters params)))
  = params.
Proof.
  intros Hne H. revert sp Hne.
  induction H as [| [t n] params [Ht Hn] Hps IH]; intros sp Hne Hsp;
    [contradiction |].
  assert (Hsp1 : Forall (fun c => isspace c = true) sp)
    by (eapply Forall_impl; [| exact Hsp]; intros c [Hc _]; exact Hc).
  assert (Hitem : Forall (fun c => c <> 44%N) (sp ++ t ++ 32%N :: n)).
  { apply Forall_app. split.
    - eapply Forall_impl; [| exact Hsp]. intros c [_ Hc]. exact Hc.
    - apply Forall_app. split; [apply token_no_comma; exact Ht |].
      constructor; [discriminate | apply token_no_comma; exact Hn]. }
  unfold render_parameters. cbn [map fst snd].
  destruct params as [| tn params].
  - cbn [map join]. change (lit " " ++ n) with (32%N :: n).
    rewrite (@split_on_single 44%N _ Hitem). cbn [map flat_map].
    rewrite (@strip_parameter sp t n Hsp1 Ht Hn), (@parse_parameter_plain t n Ht Hn).
    reflexivity.
  - change (join (lit ", ")
              ((t ++ lit " " ++ n)
               :: map (fun tn0 : str * str => fst tn0 ++ lit " " ++ snd tn0)
                    (tn :: params)))
      with ((t ++ 32%N :: n) ++ 44%N :: [32%N]
              ++ render_parameters (tn :: params)).
    replace (sp ++ (t ++ 32%N :: n) ++ 44%N :: [32%N]
                ++ render_parameters (tn :: params))
      with ((sp ++ t ++ 32%N :: n) ++ 44%N :: [32%N]
              ++ render_parameters (tn :: params))
      by (rewrite <- !app_assoc; reflexivity).
    rewrite split_on_app.
    rewrite (@split_on_single 44%N _ Hitem). cbn [app map flat_map].
    rewrite (@strip_parameter sp t n Hsp1 Ht Hn), (@parse_parameter_plain t n Ht Hn).
    cbn [app]. f_equal.
    apply (IH [32%N]); [discriminate |].
    repeat constructor. discriminate.
Qed.

Lemma parse_parameters_render (params : list (str * str)) :
  Forall (fun tn => token (fst tn) /\ token (snd tn)) params ->
  parse_parameters (Some (render_parameters params)) = params.
Proof.
  intros H. destruct params as [| [t n] params]; [reflexivity |].
  unfold parse_parameters.
  assert (Hex : Exists (fun c => isspace c = false)
                  (render_parameters ((t, n) :: params))).
  { inversion H as [| ? ? [[Hne Ht] _] _]; subst. cbn [fst] in *.
    destruct t as [| c t]; [contradiction |].
    inversion Ht as [| ? ? [Hc _] _]; subst.
    unfold render_parameters. cbn [map fst].
    destruct params; cbn [map join app]; apply Exists_cons_hd; exact Hc. }
  rewrite (@strip_exists _ Hex).
  destruct (render_parameters ((t, n) :: params)) eqn:E;
    [inversion Hex |].
  cbn [truthy andb]. rewrite <- E.
  apply (@split_parameters ((t, n) :: params) []);
    [discriminate | exact H | constructor].
Qed.

(* ================================================================== *)
(** ** The signature of a method *)
(* ================================================================== *)


Section Sig.
Variable tbl : char -> bool.

Lemma chars_fail (l : str) :
  forall pos s cs k,
    startswith s l = false -> rmatch tbl (chars l) pos s cs k = None.
Proof.
  induction l as [| c l IH]; intros pos s cs k H; [discriminate |].
  destruct l as [| c' l].
  - destruct s as [| a s]; [reflexivity |].
    simpl in H. rewrite andb_true_r in H.
    change (chars [c]) with (One (CChar c)). rewrite rmatch_One_cons.
    simpl in_cset. rewrite H. reflexivity.
  - change (chars (c :: c' :: l)) with (Seq (One (CChar c)) (chars (c' :: l))).
    rewrite rmatch_Seq. destruct s as [| a s]; [reflexivity |].
    rewrite rmatch_One_cons. simpl in_cset.
    cbn [startswith] in H. destruct (N.eqb a c); [| reflexivity].
    apply IH. exact H.
Qed.

Lemma startswith_before_space (l : str) :
  Forall (fun c => c <> 32%N) l ->
  forall rt rest, startswith rt l = false ->
    startswith (rt ++ 32%N :: rest) l = false.
Proof.
  induction 1 as [| p l Hp _ IH]; intros rt rest H; [discriminate |].
  destruct rt as [| c rt]; cbn [app startswith] in *.
  - destruct (N.eqb 32 p) eqn:E; [| reflexivity].
    apply N.eqb_eq in E. congruence.
  - destruct (N.eqb c p); [| reflexivity]. apply IH. exact H.
Qed.

Lemma prefix_before_space (l : str) :
  Forall (fun c => c <> 32%N) l ->
  forall rt rest, startswith (rt ++ 32%N :: rest) l = true -> rt <> l ->
    exists c rt', rt = l ++ c :: rt'.
Proof.
  induction 1 as [| p l Hp _ IH]; intros rt rest H Hne.
  - destruct rt as [| c rt]; [contradiction |]. exists c, rt. reflexivity.
  - destruct rt as [| c rt]; cbn [app startswith] in H.
    + apply andb_true_iff in H. destruct H as [H _].
      apply N.eqb_eq in H. congruence.
    + apply andb_true_iff in H. destruct H as [Hc H].
      apply N.eqb_eq in Hc. subst c.
      destruct (IH rt rest H) as (c & rt' & ->); [congruence |].
      exists c, rt'. reflexivity.
Qed.

(** A modifier followed by white space does not match at a word that is
    not the modifier. *)
Lemma keyword_fail (l rt rest : str) (pos : nat) (cs : caps) (k : cont) :
  Forall (fun c => c <> 32%N) l ->
  Forall (fun c => isspace c = false) rt ->
  rt <> l ->
  rmatch tbl (Seq (chars l) ws1) pos (rt ++ 32%N :: rest) cs k = None.
Proof.
  intros Hl Hrt Hne. rewrite rmatch_Seq.
  destruct (startswith (rt ++ 32%N :: rest) l) eqn:E.
  - destruct (@prefix_before_space l Hl rt rest E Hne) as (c & rt' & ->).
    rewrite <- app_assoc. rewrite rmatch_chars.
    unfold ws1, plus. rewrite rmatch_Seq. cbn [app]. rewrite rmatch_One_cons.
    apply Forall_app in Hrt. destruct Hrt as [_ Hrt].
    inversion Hrt as [| ? ? Hc _]; subst. simpl in_cset. rewrite Hc.
    reflexivity.
  - apply chars_fail. exact E.
Qed.
End Sig.

Section SigMatch.
Variable tbl : char -> bool.

Lemma rmatch_Alt r1 r2 pos s cs k :
  rmatch tbl (Alt r1 r2) pos s cs k
  = match rmatch tbl r1 pos s cs k with
    | Some x => Some x
    | None => rmatch tbl r2 pos s cs k
    end.
Proof. reflexivity. Qed.

Lemma modifier_free_inv (rt : str) :
  modifier_free rt = true ->
  (startswith rt (lit "public") = false
   /\ startswith rt (lit "private") = false
   /\ startswith rt (lit "protected") = false)
  /\ rt <> lit "static" /\ rt <> lit "final"
  /\ rt <> lit "synchronized" /\ rt <> lit "abstract".
Proof.
  unfold modifier_free. intros H.
  repeat (apply andb_true_iff in H; destruct H as [H ?]).
  repeat match goal with
         | H : negb _ = true |- _ => apply negb_true_iff in H
         end.
  cbn [existsb] in *.
  repeat match goal with
         | H : (_ || _) = false |- _ =>
             apply orb_false_iff in H; destruct H
         end.
  repeat split; try assumption; apply eqb_str_neq; assumption.
Qed.

Lemma no_space_lit (l : str) :
  forallb (fun c => negb (N.eqb c 32)) l = true ->
  Forall (fun c => c <> 32%N) l.
Proof.
  intros H. apply Forall_forall. intros c Hc.
  rewrite forallb_forall in H. specialize (H c Hc).
  apply negb_true_iff, N.eqb_neq in H. exact H.
Qed.

Lemma signature_match (rt mn ps : str) :
  rt <> [] -> Forall (name_char tbl) rt -> modifier_free rt = true ->
  mn <> [] -> Forall (name_char tbl) mn ->
  Forall (fun c => c <> 41%N) ps ->
  match_at tbl signature_pattern 0 (rt ++ 32%N :: mn ++ 40%N :: ps ++ [41%N])
  = Some (length (rt ++ 32%N :: mn ++ 40%N :: ps ++ [41%N]),
          [("parameters"%string, ps); ("method_name"%string, mn);
           ("return_type"%string, rt)]).
Proof.
  intros Hrt0 Hrt Hfree Hmn0 Hmn Hps.
  apply modifier_free_inv in Hfree.
  destruct Hfree as ((Hpub & Hpri & Hpro) & Hst & Hfi & Hsy & Hab).
  assert (Hrts : Forall (fun c => isspace c = false) rt).
  { eapply Forall_impl; [| exact Hrt]. intros c [_ Hc]. exact Hc. }
  unfold match_at, signature_pattern.
  (* no access modifier *)
  rewrite rmatch_Seq, rmatch_opt_skip.
  2:{ rewrite !rmatch_Alt. unfold text.
      rewrite !chars_fail; [reflexivity | | |];
        apply startswith_before_space;
        try assumption; apply no_space_lit; reflexivity. }
  cbv beta. rewrite rmatch_Seq. unfold ws at 1. rewrite rmatch_Star.
  destruct rt as [| a rt]; [contradiction |].
  inversion Hrt as [| ? ? [Hwa Hsa] Hrt']; subst.
  rewrite star_stop
    by (intros k1; cbn [app]; rewrite rmatch_One_cons; simpl in_cset;
        rewrite Hsa; reflexivity).
  cbv beta.
  (* no other modifier *)
  rewrite rmatch_Seq, rmatch_opt_skip
    by (apply keyword_fail; [apply no_space_lit; reflexivity | assumption ..]).
  cbv beta.
  rewrite rmatch_Seq, rmatch_opt_skip
    by (apply keyword_fail; [apply no_space_lit; reflexivity | assumption ..]).
  cbv beta.
  rewrite rmatch_Seq, rmatch_opt_skip
    by (apply keyword_fail; [apply no_space_lit; reflexivity | assumption ..]).
  cbv beta.
  rewrite rmatch_Seq, rmatch_opt_skip
    by (apply keyword_fail; [apply no_space_lit; reflexivity | assumption ..]).
  cbv beta.
  (* the return type *)
  rewrite rmatch_Seq, rmatch_Group. rewrite rmatch_Seq.
  unfold word1 at 1, plus. rewrite rmatch_Seq. cbn [app].
  rewrite rmatch_One_cons. simpl in_cset. rewrite Hwa. rewrite rmatch_Star.
  apply star_run.
  { eapply Forall_impl; [| exact Hrt']. intros c [Hc _]. exact Hc. }
  { reflexivity. }
  { rewrite length_app. lia. }
  cbv beta. rewrite rmatch_Seq, rmatch_opt_skip by (cbn; reflexivity).
  cbv beta. rewrite rmatch_opt_skip by (cbn; reflexivity).
  (* the white space and the name *)
  destruct mn as [| b mn]; [contradiction |].
  inversion Hmn as [| ? ? [Hwb Hsb] Hmn']; subst.
  rewrite rmatch_Seq. unfold ws1 at 1, plus. rewrite rmatch_Seq.
  rewrite rmatch_One_cons.
  change (in_cset tbl CSpace 32%N) with true. cbv iota.
  rewrite rmatch_Star, star_stop
    by (intros k1; cbn [app]; rewrite rmatch_One_cons; simpl in_cset;
        rewrite Hsb; reflexivity).
  cbv beta. rewrite rmatch_Seq, rmatch_Group.
  unfold word1 at 1, plus. rewrite rmatch_Seq. cbn [app].
  rewrite rmatch_One_cons. simpl in_cset. rewrite Hwb. rewrite rmatch_Star.
  apply star_run.
  { eapply Forall_impl; [| exact Hmn']. intros c [Hc _]. exact Hc. }
  { reflexivity. }
  { rewrite length_app. lia. }
  (* the parameters *)
  cbv beta. rewrite rmatch_Seq. unfold ws at 1.
  rewrite rmatch_Star, star_stop by (intros k1; reflexivity).
  cbv beta. rewrite rmatch_Seq.
  change (40%N :: ps ++ [41%N]) with (lit "(" ++ ps ++ [41%N]).
  unfold text at 1. rewrite rmatch_chars.
  rewrite rmatch_Seq, rmatch_Group, rmatch_Star.
  apply star_run.
  { eapply Forall_impl; [| exact Hps]. intros c Hc. simpl.
    apply negb_true_iff, N.eqb_neq. exact Hc. }
  { reflexivity. }
  { rewrite length_app. lia. }
  cbv beta. rewrite rmatch_Seq.
  change [41%N] with (lit ")" ++ []).
  unfold text at 1. rewrite rmatch_chars.
  rewrite rmatch_Seq. unfold ws at 1. rewrite rmatch_Star.
  cbn [length star_loop]. rewrite rmatch_opt_skip by reflexivity.
  apply f_equal. apply f_equal2.
  { do 4 (rewrite ?length_app; cbn [length]).
    cbn. unfold str, char in *. lia. }
  apply f_equal2; [| apply f_equal2; [| apply f_equal2; [| reflexivity]]];
    apply f_equal.
  - apply firstn_length_app. unfold str, char in *. lia.
  - match goal with
    | |- firstn _ (b :: mn ++ ?X) = _ =>
        change (b :: mn ++ X) with ((b :: mn) ++ X)
    end.
    apply firstn_length_app. cbn [length]. unfold str, char in *. lia.
  - match goal with
    | |- firstn _ (a :: rt ++ ?X) = _ =>
        change (a :: rt ++ X) with ((a :: rt) ++ X)
    end.
    apply firstn_length_app. cbn [length]. unfold str, char in *. lia.
Qed.

(** The signature of a plain declaration. *)
Lemma signature_search (rt mn ps : str) :
  rt <> [] -> Forall (name_char tbl) rt -> modifier_free rt = true ->
  mn <> [] -> Forall (name_char tbl) mn ->
  Forall (fun c => c <> 41%N) ps ->
  exists m,
    search tbl signature_pattern (rt ++ 32%N :: mn ++ 40%N :: ps ++ [41%N])
    = Some m
    /\ m_caps m = [("parameters"%string, ps); ("method_name"%string, mn);
                   ("return_type"%string, rt)].
Proof.
  intros Hrt0 Hrt Hfree Hmn0 Hmn Hps.
  unfold search, finditer. cbn [finditer_from].
  rewrite (signature_match Hrt0 Hrt Hfree Hmn0 Hmn Hps).
  eexists. split; reflexivity.
Qed.

(** X18: from a declaration written as return type, space, name and the
    parameters between parentheses, each parameter a type and a name,
    [_extract_method_signature] returns the return type, the name and
    the parameters in their order, and no exception. *)
Theorem method_signature_extracted (return_type method_name : str)
    (params : list (str * str)) :
  return_type <> [] -> Forall (name_char tbl) return_type ->
  modifier_free return_type = true ->
  method_name <> [] -> Forall (name_char tbl) method_name ->
  Forall (fun tn => token (fst tn) /\ token (snd tn)) params ->
  _extract_method_signature tbl
    (return_type ++ lit " " ++ method_name ++ lit "("
     ++ render_parameters params ++ lit ")")
  = Some {| sig_return_type := Some return_type;
            sig_method_name := Some method_name;
            sig_parameters := params;
            sig_exceptions := [] |}.
Proof.
  intros Hrt0 Hrt Hfree Hmn0 Hmn Hps.
  assert (Hclose : Forall (fun c => c <> 41%N) (render_parameters params)).
  { unfold render_parameters.
    induction Hps as [| [t n] params [[_ Ht] [_ Hn]] _ IH]; [constructor |].
    cbn [fst snd] in *.
    assert (Hitem : Forall (fun c => c <> 41%N) (t ++ lit " " ++ n)).
    { apply Forall_app. split.
      - eapply Forall_impl; [| exact Ht]. intros c (_ & _ & Hc). exact Hc.
      - constructor; [discriminate |].
        eapply Forall_impl; [| exact Hn]. intros c (_ & _ & Hc). exact Hc. }
    cbn [map fst snd]. destruct params as [| tn params]; [exact Hitem |].
    change (join (lit ", ")
              ((t ++ lit " " ++ n)
               :: map (fun tn0 : str * str => fst tn0 ++ lit " " ++ snd tn0)
                    (tn :: params)))
      with ((t ++ lit " " ++ n) ++ lit ", "
              ++ join (lit ", ")
                   (map (fun tn0 : str * str => fst tn0 ++ lit " " ++ snd tn0)
                      (tn :: params))).
    apply Forall_app. split; [exact Hitem |].
    apply Forall_app. split; [repeat constructor; discriminate | exact IH]. }
  destruct (signature_search Hrt0 Hrt Hfree Hmn0 Hmn Hclose) as (m & Hm & Hc).
  unfold _extract_method_signature.
  change (return_type ++ lit " " ++ method_name ++ lit "("
          ++ render_parameters params ++ lit ")")
    with (return_type ++ 32%N :: method_name ++ 40%N
          :: render_parameters params ++ [41%N]).
  rewrite Hm. unfold group. rewrite Hc. cbn [lookup String.eqb Ascii.eqb Bool.eqb].
  cbn [parse_exceptions].
  rewrite (parse_parameters_render Hps). reflexivity.
Qed.
End SigMatch.

(** A method of two parameters. *)
Lemma method_signature_extracted_witness :
  _extract_method_signature alnum_sample
    (lit "int" ++ lit " " ++ lit "add" ++ lit "("
     ++ render_parameters [(lit "int", lit "a"); (lit "List", lit "items")]
     ++ lit ")")
  = Some {| sig_return_type := Some (lit "int");
            sig_method_name := Some (lit "add");
            sig_parameters := [(lit "int", lit "a"); (lit "List", lit "items")];
            sig_exceptions := [] |}.
Proof.
  apply method_signature_extracted;
    repeat first [discriminate | reflexivity | constructor].
Defined.

(* ================================================================== *)
(** ** The requests of the pipeline *)
(* ================================================================== *)

Section PipelineCost.
Variable tbl : char -> bool.
Variable backend : Type.
Variable create : prompt -> nat -> backend -> outcome * backend.

Lemma insert_comments_cost (elements : list JavaElement) :
  forall (content_lines modified_lines out : list str) (w w' : world backend),
    insert_comments create elements content_lines modified_lines w
    = inr (out, w') ->
    requests (trace w') <= requests (trace w) + 5 * length elements
    /\ slept (trace w') <= slept (trace w) + 225 * length elements.
Proof.
  induction elements as [| e elements IH];
    intros content_lines modified_lines out w w' H.
  - simpl in H. injection H as _ <-. simpl. lia.
  - cbn [insert_comments] in H.
    pose proof (generate_comment_cost create e (LinesContext content_lines) w)
      as Hc.
    destruct (generate_comment create e (LinesContext content_lines) w)
      as [comment w1].
    cbn [snd] in Hc.
    destruct (nth_error modified_lines (line_number e - 1)); [| discriminate].
    apply IH in H. cbn [length]. lia.
Qed.

(** X19: a text costs at most five requests and 225 seconds of waiting
    for each of its elements. *)
Theorem process_text_cost (content : str) (w : world backend) :
  exists text w',
    process_text tbl create content w = inr (text, w')
    /\ requests (trace w')
       <= requests (trace w) + 5 * length (parse tbl content)
    /\ slept (trace w')
       <= slept (trace w) + 225 * length (parse tbl content).
Proof.
  destruct (process_text_runs tbl create content w)
    as (out & w' & Hi & Hp).
  exists (join [NL] out), w'. split; [exact Hp |].
  apply insert_comments_cost in Hi. exact Hi.
Qed.
End PipelineCost.
